(** * property-development-mcp: the aggregation core, embedded and verified

    A shallow embedding of three TypeScript services of the repository,

    - [RateLimiter]      (src/services/RateLimiter.ts), the sliding-window
                         admission controller,
    - [CacheService]     (src/services/CacheService.ts), the TTL cache with
                         bounded eviction,
    - [PropertyAnalyzer] (src/services/PropertyAnalyzer.ts), the orchestrator
                         and its quality scorer,

    and of the rate-limit check of the server (index.ts), followed by the
    statements the specification makes about them (Part III, and Part V for
    partial failure) and by further properties of the code (Part IV).

    Conventions of the embedding.
    - A JavaScript [number] holding a count or a millisecond time stamp is a
      [Z]; a [number] holding a measure (latitude, distance, a percentage)
      is a [Q].
    - [Date.now()]: a method of the limiter or of the cache takes the value
      of each clock read it performs as an argument, named [now]; the
      analyzer runs in a world that carries the clock.
    - A method that mutates [this] returns the new store next to its result.
    - Logging is left out; it has no effect on any value. *)

From Stdlib Require Import ZArith QArith Qround String List Lia.
From Stdlib Require Import Sorting.Sorted Sorting.Permutation.
From stdpp Require Import base option list gmap strings.

Close Scope Q_scope.
Open Scope Z_scope.

(* ===================================================================== *)
(** * Part I: the embedding *)
(* ===================================================================== *)

(** ** RateLimiter.ts *)

Module RateLimiter.

(** [interface RateLimitConfig], after the constructor has filled the
    optional fields in ([Required<RateLimitConfig>]). *)
Record RateLimitConfig : Type := {
  windowMs : Z;
  maxRequests : Z;
  keyGenerator : string -> string;
  skipSuccessfulRequests : bool;
  skipFailedRequests : bool
}.

(** [interface RequestRecord]. *)
Record RequestRecord : Type := {
  timestamp : Z;
  success : bool
}.

(** [private requests: Map<string, RequestRecord[]>]. No method of the
    class depends on the iteration order of this map. *)
Abbreviation Requests := (gmap string (list RequestRecord)).

(** [constructor(maxRequests = 60, windowMs = 60000, options = {})] with no
    options: the identity key generator and both skip flags off. *)
Definition defaultConfig (maxRequests windowMs : Z) : RateLimitConfig :=
  {| windowMs := windowMs;
     maxRequests := maxRequests;
     keyGenerator := fun id => id;
     skipSuccessfulRequests := false;
     skipFailedRequests := false |}.

(** A freshly constructed limiter holds no record. *)
Definition empty : Requests := ∅.

(** [this.requests.get(key) || []]. *)
Definition stored (key : string) (st : Requests) : list RequestRecord :=
  default [] (st !! key).

(** The predicate of the [filter] calls of lines 150-152 and 174-176:
    [now - request.timestamp < this.config.windowMs]. *)
Definition inWindow (cfg : RateLimitConfig) (now : Z) (r : RequestRecord) : bool :=
  now - timestamp r <? windowMs cfg.

(** [private getValidRequests(key, now)]: filters the stored records and
    writes the filtered array back when something was dropped. *)
Definition getValidRequests (cfg : RateLimitConfig) (key : string) (now : Z)
    (st : Requests) : list RequestRecord * Requests :=
  let requests := stored key st in
  let validRequests := List.filter (inWindow cfg now) requests in
  let st' :=
    if negb (length validRequests =? length requests)%nat then
      if (length validRequests =? 0)%nat then delete key st
      else <[key := validRequests]> st
    else st in
  (validRequests, st').

(** [canMakeRequest(identifier)]; [now] is the clock read of line 44. *)
Definition canMakeRequest (cfg : RateLimitConfig) (now : Z) (identifier : string)
    (st : Requests) : bool * Requests :=
  let key := keyGenerator cfg identifier in
  let '(requests, st') := getValidRequests cfg key now st in
  (Z.of_nat (length requests) <? maxRequests cfg, st').

(** [recordRequest(identifier, success = true)]. [now] is the clock read of
    line 55 (it becomes the time stamp of the record); [now'] is the later
    read made inside the call to [canMakeRequest]. *)
Definition recordRequest (cfg : RateLimitConfig) (now now' : Z)
    (identifier : string) (success : bool) (st : Requests) : bool * Requests :=
  let key := keyGenerator cfg identifier in
  let '(allowed, st1) := canMakeRequest cfg now' identifier st in
  if negb allowed then (false, st1)
  else if success && skipSuccessfulRequests cfg then (true, st1)
  else if negb success && skipFailedRequests cfg then (true, st1)
  else
    let requests := stored key st1 in
    (true, <[key := requests ++ [ {| timestamp := now; success := success |} ] ]> st1).

(** [getRemainingRequests(identifier)]. *)
Definition getRemainingRequests (cfg : RateLimitConfig) (now : Z)
    (identifier : string) (st : Requests) : Z * Requests :=
  let key := keyGenerator cfg identifier in
  let '(requests, st') := getValidRequests cfg key now st in
  (Z.max 0 (maxRequests cfg - Z.of_nat (length requests)), st').

(** [Math.min(...xs)] for a non-empty argument list [x :: xs]. *)
Definition mathMin (x : Z) (xs : list Z) : Z := fold_left Z.min xs x.

(** [getResetTime(identifier)]; [now] is the clock read of line 107. The
    method reads [this.requests] directly. *)
Definition getResetTime (cfg : RateLimitConfig) (now : Z) (identifier : string)
    (st : Requests) : Z :=
  let key := keyGenerator cfg identifier in
  match stored key st with
  | [] => 0
  | r :: rs =>
      let oldestRequest := mathMin (timestamp r) (map timestamp rs) in
      let resetTime := oldestRequest + windowMs cfg in
      Z.max 0 (resetTime - now)
  end.

(** The object returned by [getStatus]; [resetTime] is
    [Math.ceil(resetTimeMs / 1000)]. *)
Record Status : Type := {
  limit : Z;
  remaining : Z;
  resetTime : Z;
  resetTimeMs : Z
}.

(** [getStatus(identifier)]: [now1] is read by [getRemainingRequests],
    [now2] by [getResetTime]. *)
Definition getStatus (cfg : RateLimitConfig) (now1 now2 : Z) (identifier : string)
    (st : Requests) : Status * Requests :=
  let '(remaining, st') := getRemainingRequests cfg now1 identifier st in
  let resetTimeMs := getResetTime cfg now2 identifier st' in
  ({| limit := maxRequests cfg;
      remaining := remaining;
      resetTime := - ((- resetTimeMs) / 1000);
      resetTimeMs := resetTimeMs |}, st').

(** [reset(identifier)] and [resetAll()]. *)
Definition reset (cfg : RateLimitConfig) (identifier : string) (st : Requests) : Requests :=
  delete (keyGenerator cfg identifier) st.

Definition resetAll (st : Requests) : Requests := ∅.

(** [private cleanup()], the periodic sweep: every key keeps its records
    still in the window and is dropped when none is left. *)
Definition cleanup (cfg : RateLimitConfig) (now : Z) (st : Requests) : Requests :=
  omap (fun requests =>
          match List.filter (inWindow cfg now) requests with
          | [] => None
          | validRequests => Some validRequests
          end) st.

(** A run of [n] consecutive [canMakeRequest] calls for one identifier, all
    reading the clock at [now]; the results come in call order. *)
Fixpoint canMakeRequestTimes (cfg : RateLimitConfig) (now : Z) (identifier : string)
    (n : nat) (st : Requests) : list bool * Requests :=
  match n with
  | O => ([], st)
  | S n' =>
      let '(b, st1) := canMakeRequest cfg now identifier st in
      let '(bs, st2) := canMakeRequestTimes cfg now identifier n' st1 in
      (b :: bs, st2)
  end.

(** A run of consecutive [recordRequest] calls for one identifier; each
    element of [clock] holds the two clock reads of one call. *)
Fixpoint recordRequests (cfg : RateLimitConfig) (identifier : string) (success : bool)
    (clock : list (Z * Z)) (st : Requests) : list bool * Requests :=
  match clock with
  | [] => ([], st)
  | (now, now') :: clock' =>
      let '(b, st1) := recordRequest cfg now now' identifier success st in
      let '(bs, st2) := recordRequests cfg identifier success clock' st1 in
      (b :: bs, st2)
  end.

(** One call on the limiter, with the clock values it reads.
    ([getResetTime] changes nothing and [getStats] only prunes, as
    [getRemainingRequests] does for every key.) *)
Inductive Op : Type :=
| OpCanMakeRequest (identifier : string) (now : Z)
| OpRecordRequest (identifier : string) (success : bool) (now now' : Z)
| OpGetRemainingRequests (identifier : string) (now : Z)
| OpGetStatus (identifier : string) (now1 now2 : Z)
| OpReset (identifier : string)
| OpResetAll
| OpCleanup (now : Z).

Definition step (cfg : RateLimitConfig) (st : Requests) (op : Op) : Requests :=
  match op with
  | OpCanMakeRequest identifier now => snd (canMakeRequest cfg now identifier st)
  | OpRecordRequest identifier success now now' =>
      snd (recordRequest cfg now now' identifier success st)
  | OpGetRemainingRequests identifier now =>
      snd (getRemainingRequests cfg now identifier st)
  | OpGetStatus identifier now1 now2 => snd (getStatus cfg now1 now2 identifier st)
  | OpReset identifier => reset cfg identifier st
  | OpResetAll => resetAll st
  | OpCleanup now => cleanup cfg now st
  end.

(** The store after a sequence of calls on a freshly constructed limiter. *)
Definition run (cfg : RateLimitConfig) (ops : list Op) : Requests :=
  fold_left (step cfg) ops empty.

(** What the function returned by [middleware()] does with one request:
    it answers 429 with [retryAfter: status.resetTime] (the message prints
    the same number of seconds), or it sets the three rate-limit headers
    and calls [next()]. *)
Inductive MiddlewareResult : Type :=
| TooManyRequests (retryAfter : Z)
| Next (limitHeader remainingHeader resetHeader : Z).

(** The clock reads of one pass through the middleware, in the order they
    are made: by [canMakeRequest] (line 251), by [recordRequest] for the
    time stamp and for its own check (line 264), by [getStatus] for the
    remaining quota and for the reset time (lines 252 and 267), and by the
    [X-RateLimit-Reset] header (line 270). A refused request makes the
    first, fourth and fifth only. *)
Record MiddlewareClock : Type := {
  readCheck : Z;
  readStamp : Z;
  readRecheck : Z;
  readRemaining : Z;
  readReset : Z;
  readHeader : Z
}.

(** The request handler returned by [middleware()]; [identifier] is the
    value of [req.ip || req.connection.remoteAddress || 'unknown'] (line
    249). *)
Definition middleware (cfg : RateLimitConfig) (clock : MiddlewareClock)
    (identifier : string) (st : Requests) : MiddlewareResult * Requests :=
  let '(allowed, st1) := canMakeRequest cfg (readCheck clock) identifier st in
  if negb allowed then
    let '(status, st2) :=
      getStatus cfg (readRemaining clock) (readReset clock) identifier st1 in
    (TooManyRequests (resetTime status), st2)
  else
    let '(_, st2) :=
      recordRequest cfg (readStamp clock) (readRecheck clock) identifier true st1 in
    let '(status, st3) :=
      getStatus cfg (readRemaining clock) (readReset clock) identifier st2 in
    (Next (limit status) (remaining status)
          (- ((- readHeader clock) / 1000) + resetTime status), st3).

(** Consecutive requests of one client through the middleware. *)
Fixpoint middlewareRequests (cfg : RateLimitConfig) (identifier : string)
    (clocks : list MiddlewareClock) (st : Requests)
    : list MiddlewareResult * Requests :=
  match clocks with
  | [] => ([], st)
  | clock :: clocks' =>
      let '(r, st1) := middleware cfg clock identifier st in
      let '(rs, st2) := middlewareRequests cfg identifier clocks' st1 in
      (r :: rs, st2)
  end.

End RateLimiter.

(** ** CacheService.ts *)

Module CacheService.

Section Store.

(** The cached payload, [data: any]. *)
Context {V : Type}.

(** [interface CacheEntry]. *)
Record CacheEntry : Type := {
  data : V;
  timestamp : Z;
  ttl : Z;
  accessCount : Z;
  lastAccessed : Z
}.

(** [private cache: Map<string, CacheEntry>]. A JavaScript [Map] iterates
    in insertion order and [evictOldest] sorts that iteration, so the store
    is the list of the map's [entries()], oldest insertion first. *)
Definition Store : Type := list (string * CacheEntry).

(** The two [readonly] fields set by the constructor. *)
Record Config : Type := {
  defaultTTL : Z;
  maxSize : Z
}.

(** [constructor(defaultTTLMinutes = 30, maxSize = 1000)]. *)
Definition mkConfig (defaultTTLMinutes maxSize : Z) : Config :=
  {| defaultTTL := defaultTTLMinutes * 60 * 1000; maxSize := maxSize |}.

(** *** The [Map] primitives *)

(** [Map.prototype.get]. *)
Fixpoint mapGet (key : string) (s : Store) : option CacheEntry :=
  match s with
  | [] => None
  | (k, e) :: s' => if String.eqb k key then Some e else mapGet key s'
  end.

(** [Map.prototype.set]: a present key keeps its place in the iteration
    order, a new key goes last. *)
Fixpoint mapSet (key : string) (e : CacheEntry) (s : Store) : Store :=
  match s with
  | [] => [(key, e)]
  | (k, e') :: s' =>
      if String.eqb k key then (k, e) :: s' else (k, e') :: mapSet key e s'
  end.

(** [Map.prototype.delete], without its boolean result. *)
Definition mapDelete (key : string) (s : Store) : Store :=
  List.filter (fun p => negb (String.eqb (fst p) key)) s.

(** [Map.prototype.has]. *)
Definition mapHas (key : string) (s : Store) : bool :=
  match mapGet key s with Some _ => true | None => false end.

(** [this.cache.size]. *)
Definition size (s : Store) : Z := Z.of_nat (length s).

(** *** The methods *)

(** [ttlMinutes ? ttlMinutes * 60 * 1000 : this.defaultTTL] (lines 32 and
    247). The optional argument is [None] when omitted; the conditional
    tests truthiness, and the number 0 is falsy. *)
Definition ttlOf (cfg : Config) (ttlMinutes : option Z) : Z :=
  match ttlMinutes with
  | Some m => if m =? 0 then defaultTTL cfg else m * 60 * 1000
  | None => defaultTTL cfg
  end.

(** The comparator handed to [sort] in [evictOldest], as the test
    "[a] may stay before [b]" ([compare(a, b) <= 0]). *)
Definition rankLe (a b : string * CacheEntry) : bool :=
  if negb (accessCount (snd a) =? accessCount (snd b))
  then accessCount (snd a) - accessCount (snd b) <=? 0
  else lastAccessed (snd a) - lastAccessed (snd b) <=? 0.

(** [Array.prototype.sort] with that comparator. The sort is stable
    (ECMAScript 2019), and a stable sort by a total preorder has one
    result; insertion from the right computes it. *)
Fixpoint insertSorted (x : string * CacheEntry) (l : list (string * CacheEntry))
    : list (string * CacheEntry) :=
  match l with
  | [] => [x]
  | y :: l' => if rankLe x y then x :: y :: l' else y :: insertSorted x l'
  end.

Fixpoint sortEntries (l : list (string * CacheEntry)) : list (string * CacheEntry) :=
  match l with
  | [] => []
  | x :: l' => insertSorted x (sortEntries l')
  end.

(** [Math.max(1, Math.floor(this.maxSize * 0.1))]. For an integer
    [maxSize] the floor of the product is the integer quotient by 10. *)
Definition toRemove (cfg : Config) : Z := Z.max 1 (maxSize cfg / 10).

(** [private evictOldest()]: the loop of lines 182-184 deletes the keys of
    the first [toRemove] sorted entries, stopping at the end of the array. *)
Definition evictOldest (cfg : Config) (s : Store) : Store :=
  let entries := sortEntries s in
  fold_left (fun acc p => mapDelete (fst p) acc)
            (firstn (Z.to_nat (toRemove cfg)) entries) s.

(** [set(key, data, ttlMinutes?)]; [now] is the clock read of line 33. *)
Definition set (cfg : Config) (key : string) (v : V) (ttlMinutes : option Z)
    (now : Z) (s : Store) : Store :=
  let ttl := ttlOf cfg ttlMinutes in
  let s1 := if size s >=? maxSize cfg then evictOldest cfg s else s in
  mapSet key
    {| data := v; timestamp := now; ttl := ttl; accessCount := 0; lastAccessed := now |}
    s1.

(** [now - entry.timestamp > entry.ttl], the expiry test of lines 62, 85
    and 151. *)
Definition expired (now : Z) (e : CacheEntry) : bool :=
  now - timestamp e >? ttl e.

(** [get(key)]: [None] is the [null] result. A hit updates the entry in
    place ([entry.accessCount++; entry.lastAccessed = now]). *)
Definition get (key : string) (now : Z) (s : Store) : option V * Store :=
  match mapGet key s with
  | None => (None, s)
  | Some entry =>
      if expired now entry then (None, mapDelete key s)
      else
        (Some (data entry),
         mapSet key
           {| data := data entry; timestamp := timestamp entry; ttl := ttl entry;
              accessCount := accessCount entry + 1; lastAccessed := now |}
           s)
  end.

(** [has(key)]. *)
Definition has (key : string) (now : Z) (s : Store) : bool * Store :=
  match mapGet key s with
  | None => (false, s)
  | Some entry =>
      if expired now entry then (false, mapDelete key s) else (true, s)
  end.

(** [delete(key)]. *)
Definition delete (key : string) (s : Store) : bool * Store :=
  (mapHas key s, mapDelete key s).

(** [clear()]. *)
Definition clear (s : Store) : Store := [].

(** [private cleanup()], the periodic sweep. *)
Definition cleanup (now : Z) (s : Store) : Store :=
  List.filter (fun p => negb (expired now (snd p))) s.

(** [refresh(key, ttlMinutes?)]. *)
Definition refresh (cfg : Config) (key : string) (ttlMinutes : option Z) (now : Z)
    (s : Store) : bool * Store :=
  match mapGet key s with
  | None => (false, s)
  | Some entry =>
      (true,
       mapSet key
         {| data := data entry; timestamp := now; ttl := ttlOf cfg ttlMinutes;
            accessCount := accessCount entry; lastAccessed := lastAccessed entry |}
         s)
  end.

(** *** Sequences of operations *)

(** One call on the cache, with the clock value it reads. The remaining
    public methods are compositions of these ([setMultiple] and
    [getMultiple] iterate [set] and [get], [getOrSet] is a [get] followed
    on a miss by a [set], [destroy] ends with [clear]) or only read
    ([getStats], [getKeys]). *)
Inductive Op : Type :=
| OpSet (key : string) (v : V) (ttlMinutes : option Z) (now : Z)
| OpGet (key : string) (now : Z)
| OpHas (key : string) (now : Z)
| OpDelete (key : string)
| OpClear
| OpRefresh (key : string) (ttlMinutes : option Z) (now : Z)
| OpCleanup (now : Z).

Definition step (cfg : Config) (s : Store) (op : Op) : Store :=
  match op with
  | OpSet key v ttlMinutes now => set cfg key v ttlMinutes now s
  | OpGet key now => snd (get key now s)
  | OpHas key now => snd (has key now s)
  | OpDelete key => snd (delete key s)
  | OpClear => clear s
  | OpRefresh key ttlMinutes now => snd (refresh cfg key ttlMinutes now s)
  | OpCleanup now => cleanup now s
  end.

(** The store after a sequence of calls on a freshly constructed cache. *)
Definition run (cfg : Config) (ops : list Op) : Store :=
  fold_left (step cfg) ops [].

(** *** Get or compute *)

(** How [getOrSet] goes on after its lookup (lines 262-266): it returns
    the cached value, or it calls [fn] and waits. *)
Inductive Lookup : Type :=
| Cached (v : V)
| CallsFn.

(** [getOrSet(key, fn, ttlMinutes?)] up to its [await]. The test is
    [cached !== null], and [get] also returns [null] when the stored
    payload is [null]: [isNull] tells that payload. *)
Definition getOrSetStart (isNull : V -> bool) (key : string) (now : Z) (s : Store)
    : Lookup * Store :=
  let '(cached, s') := get key now s in
  match cached with
  | Some v => if isNull v then (CallsFn, s') else (Cached v, s')
  | None => (CallsFn, s')
  end.

(** [getOrSet] after its [await] (lines 268-271), once the promise of [fn]
    has settled: a result is stored and returned, a rejection is passed
    on. [now] is the clock read of the [set]. *)
Definition getOrSetResume {E : Type} (cfg : Config) (key : string)
    (ttlMinutes : option Z) (settled : V + E) (now : Z) (s : Store)
    : (V + E) * Store :=
  match settled with
  | inl result => (inl result, set cfg key result ttlMinutes now s)
  | inr reason => (inr reason, s)
  end.

End Store.

Arguments CacheEntry : clear implicits.
Arguments Store : clear implicits.
Arguments Op : clear implicits.

End CacheService.

(** ** PropertyAnalyzer.ts *)

Module PropertyAnalyzer.

(** *** The exported interfaces *)

(** ['High' | 'Medium' | 'Low']. *)
Inductive Rating : Type := High | Medium | Low.

Definition ratingEqb (a b : Rating) : bool :=
  match a, b with
  | High, High | Medium, Medium | Low, Low => true
  | _, _ => false
  end.

#[global] Instance Rating_eq_dec : EqDecision Rating.
Proof. solve_decision. Defined.

(** [{ lat: number; lng: number }]. *)
Record Coordinates : Type := {
  lat : Q;
  lng : Q
}.

Module PlanningApplication.
Record t : Type := {
  reference : string;
  description : string;
  status : string;
  date : string;
  decision : option string;
  url : option string
}.
End PlanningApplication.

Module Comparable.
Record t : Type := {
  address : string;
  price : Z;
  saleDate : string;
  propertyType : string;
  bedrooms : Z;
  floorArea : option Q;
  pricePerSqFt : Q;
  distance : Q;
  rating : Rating;
  source : string;
  url : option string
}.
End Comparable.

Module MarketData.
Record t : Type := {
  averagePrice : Z;
  priceChange1Year : Q;
  priceChange5Year : Q;
  timeOnMarket : Z;
  demandLevel : Rating;
  soldPriceAccuracy : Q;
  sampleSize : Z
}.
End MarketData.

(** ['Rail' | 'Underground' | 'Bus' | 'Tram']. *)
Inductive TransportType : Type := Rail | Underground | Bus | Tram.

Module TransportLink.
Record t : Type := {
  type : TransportType;
  name : string;
  distance : Q;
  walkingTime : Z;
  zones : list string
}.
End TransportLink.

Module Amenity.
Record t : Type := {
  type : string;
  name : string;
  distance : Q;
  rating : option Q;
  address : option string
}.
End Amenity.

Module DataQuality.
Record t : Type := {
  overallScore : Z;
  comparablesQuality : Rating;
  marketDataQuality : Rating;
  planningDataQuality : Rating;
  warnings : list string
}.
End DataQuality.

(** The object built by [scrapeRightmoveDetails], [estimatePropertyDetails]
    and [getDefaultPropertyDetails]. *)
Module PropertyDetails.
Record t : Type := {
  currentValue : Z;
  propertyType : string;
  bedrooms : Z;
  bathrooms : Z;
  tenure : string;
  useClass : string;
  localAuthority : string
}.
End PropertyDetails.

(** The object built by [checkPlanningRestrictions]. *)
Module Restrictions.
Record t : Type := {
  conservationArea : bool;
  listedBuilding : bool;
  article4Direction : bool
}.
End Restrictions.

(** [interface PropertyData]. The optional [floorArea] and [yearBuilt] are
    never assigned by [analyze]; [analysisDate] holds the instant that
    [new Date().toISOString()] prints. *)
Module PropertyData.
Record t : Type := {
  address : string;
  coordinates : Coordinates;
  currentValue : Z;
  propertyType : string;
  useClass : string;
  bedrooms : Z;
  bathrooms : Z;
  tenure : string;
  planningHistory : list PlanningApplication.t;
  localAuthority : string;
  conservationArea : bool;
  listedBuilding : bool;
  article4Direction : bool;
  comparables : list Comparable.t;
  marketTrends : MarketData.t;
  transportLinks : list TransportLink.t;
  localAmenities : list Amenity.t;
  analysisDate : Z;
  dataQuality : DataQuality.t
}.
End PropertyData.

(** *** The quality scorer *)

(** [Math.round]: the nearest integer, halves going up. *)
Definition mathRound (x : Q) : Z := Qfloor (x + (1 # 2))%Q.

(** [const scores = { 'High': 3, 'Medium': 2, 'Low': 1 }]. *)
Definition scores (r : Rating) : Z :=
  match r with High => 3 | Medium => 2 | Low => 1 end.

(** [private assessDataQuality(comparables, marketData, planningHistory)].
    The three [warnings.push] calls are the three [++]. The score is
    computed over the rationals: each of the seven values that
    [(avgScore / 3) * 100] can take lies at least 1/9 away from a half
    integer, so the double-precision computation of the source rounds to
    the same integer. *)
Definition assessDataQuality (comparables : list Comparable.t)
    (marketData : MarketData.t) (planningHistory : list PlanningApplication.t)
    : DataQuality.t :=
  let warnings0 : list string := [] in
  let highQualityComps :=
    length (List.filter (fun c => ratingEqb (Comparable.rating c) High) comparables) in
  let comparablesQuality :=
    if (5 <=? length comparables)%nat && (2 <=? highQualityComps)%nat then High
    else if (3 <=? length comparables)%nat then Medium else Low in
  let warnings1 :=
    if ratingEqb comparablesQuality Low
    then warnings0 ++ ["Limited comparable sales data available"%string]
    else warnings0 in
  let marketDataQuality :=
    if MarketData.sampleSize marketData >=? 20 then High
    else if MarketData.sampleSize marketData >=? 10 then Medium else Low in
  let warnings2 :=
    if ratingEqb marketDataQuality Low
    then warnings1 ++ ["Market data based on limited sample size"%string]
    else warnings1 in
  let planningDataQuality :=
    if (0 <? length planningHistory)%nat then Medium else Low in
  let warnings3 :=
    if ratingEqb planningDataQuality Low
    then warnings2 ++ ["No planning history data available"%string]
    else warnings2 in
  let avgScore : Q :=
    (inject_Z (scores comparablesQuality + scores marketDataQuality
               + scores planningDataQuality) / 3)%Q in
  let overallScore := mathRound ((avgScore / 3) * 100)%Q in
  {| DataQuality.overallScore := overallScore;
     DataQuality.comparablesQuality := comparablesQuality;
     DataQuality.marketDataQuality := marketDataQuality;
     DataQuality.planningDataQuality := planningDataQuality;
     DataQuality.warnings := warnings3 |}.

(** *** Values in flight *)

(** What [catch (error)] can bind: an [Error] with its message, or a
    thrown value that is no [Error] ([error instanceof Error] is false). *)
Inductive Thrown : Type :=
| IsError (message : string)
| NotError.

(** [PromiseSettledResult<A>]. *)
Inductive Settled (A : Type) : Type :=
| Fulfilled (value : A)
| Rejected (reason : Thrown).

Arguments Fulfilled {A} value.
Arguments Rejected {A} reason.

(** The values the analyzer keeps in the shared cache ([data: any]), one
    shape per key prefix; [VForeign] stands for what other clients of the
    cache store ("analysis_..." and "report_..." in the server). *)
Inductive JsAny : Type :=
| VCoordinates (c : Coordinates)
| VPropertyDetails (d : PropertyDetails.t)
| VPlanningHistory (l : list PlanningApplication.t)
| VComparables (l : list Comparable.t)
| VMarketData (m : MarketData.t)
| VTransportLinks (l : list TransportLink.t)
| VAmenities (l : list Amenity.t)
| VRestrictions (r : Restrictions.t)
| VForeign (json : string).

(** *** The outside world *)

(** The HTTP requests the analyzer sends with [axios.get]. *)
Inductive Request : Type :=
| GetPostcode (postcode : string)
    (* `${POSTCODE_IO}/postcodes/${postcode}` *)
| GetRightmove (address : string)
    (* `${RIGHTMOVE_BASE}/property-for-sale/find.html?searchLocation=...` *)
| GetLandRegistry (postcode : string)
    (* `${LAND_REGISTRY}/data/ppi/transaction-record.csv?in-postcode=...` *)
| GetPlaces (coords : Coordinates) (placeType : string) (apiKey : string).
    (* `https://maps.googleapis.com/maps/api/place/nearbysearch/json?...` *)

(** [response.data.result] of postcodes.io. *)
Record PostcodeResult : Type := {
  latitude : Q;
  longitude : Q;
  admin_district : option string
}.

(** The first [.propertyCard] of a Rightmove result page, with its three
    texts already read: [parsePrice(priceText)], the property type text,
    [parseInt(bedroomsText) || 0]. *)
Record PropertyCard : Type := {
  priceValue : Z;
  propertyInformation : string;
  cardBedrooms : Z
}.

(** One line of the Land Registry CSV that has at least 7 fields:
    [fields[0]], [parseInt(fields[1]) || 0], [fields[2] || ''],
    [fields[4] || 'Unknown'], [fields[7] || 'Unknown']. *)
Record LandRegistryRow : Type := {
  transactionId : string;
  rowPrice : Z;
  rowSaleDate : string;
  rowPropertyType : string;
  rowAddress : string
}.

(** One element of [response.data.results] of the Places API. *)
Record Place : Type := {
  placeName : string;
  placeLocation : Coordinates;
  placeRating : option Q;
  placeVicinity : option string
}.

(** The part of a response the analyzer reads. For the Land Registry the
    list holds the lines after the header, [None] for a line with fewer
    than 7 fields. *)
Definition Response (r : Request) : Type :=
  match r with
  | GetPostcode _ => option PostcodeResult
  | GetRightmove _ => option PropertyCard
  | GetLandRegistry _ => list (option LandRegistryRow)
  | GetPlaces _ _ _ => list Place
  end.

(** Everything the analyzer takes from its surroundings: the remote
    services, how long each takes to answer, the environment variables,
    the configuration of the injected cache, and the helper methods whose
    bodies are regular expressions, trigonometry or calendar arithmetic. *)
Record Env : Type := {
  respond : forall r : Request, Settled (Response r);
  elapsed : Request -> Z;
  GOOGLE_PLACES : option string;
  LAND_REGISTRY : string;
  cacheConfig : @CacheService.Config;
  extractPostcode : string -> string;
  calculateDistance : Coordinates -> Coordinates -> Q;
  dateGetTime : string -> option Z;
  threeYearsBefore : Z -> Z;
  numberToString : Q -> string;
  determineTransportType : string -> TransportType;
  extractTravelZones : string -> list string
}.

(** The state a call runs in: the shared cache, the clock, and the
    requests sent so far, oldest first. *)
Record World : Type := {
  cache : CacheService.Store JsAny;
  clock : Z;
  issued : list Request
}.

(** *** Asynchronous functions *)

(** The body of an [async] function, as the tree of what it does next: it
    returns, throws, touches the cache, reads the clock, or suspends at an
    [await] of a request or of a timer. *)
Inductive Async (A : Type) : Type :=
| Ret (a : A)
| Throw (e : Thrown)
| CacheGet (key : string) (k : option JsAny -> Async A)
| CacheSet (key : string) (v : JsAny) (k : Async A)
| DateNow (k : Z -> Async A)
| Await (r : Request) (k : Settled (Response r) -> Async A)
| Sleep (ms : Z) (k : Async A).

Arguments Ret {A} a.
Arguments Throw {A} e.
Arguments CacheGet {A} key k.
Arguments CacheSet {A} key v k.
Arguments DateNow {A} k.
Arguments Await {A} r k.
Arguments Sleep {A} ms k.

(** Sequencing of statements. *)
Fixpoint bind {A B : Type} (m : Async A) (f : A -> Async B) : Async B :=
  match m with
  | Ret a => f a
  | Throw e => Throw e
  | CacheGet key k => CacheGet key (fun v => bind (k v) f)
  | CacheSet key v k => CacheSet key v (bind k f)
  | DateNow k => DateNow (fun t => bind (k t) f)
  | Await r k => Await r (fun x => bind (k x) f)
  | Sleep ms k => Sleep ms (bind k f)
  end.

Notation "x <- m ;; f" := (bind m (fun x => f))
  (at level 100, m at next level, right associativity).
Notation "m ;;; f" := (bind m (fun _ => f))
  (at level 100, right associativity).

(** [try { body } catch (error) { handler }]. *)
Fixpoint tryCatch {A : Type} (body : Async A) (handler : Thrown -> Async A) : Async A :=
  match body with
  | Ret a => Ret a
  | Throw e => handler e
  | CacheGet key k => CacheGet key (fun v => tryCatch (k v) handler)
  | CacheSet key v k => CacheSet key v (tryCatch k handler)
  | DateNow k => DateNow (fun t => tryCatch (k t) handler)
  | Await r k => Await r (fun x => tryCatch (k x) handler)
  | Sleep ms k => Sleep ms (tryCatch k handler)
  end.

(** [this.cache.get(key)], [this.cache.set(key, data)] and [Date.now()]. *)
Definition cacheGet (key : string) : Async (option JsAny) := CacheGet key Ret.
Definition cacheSet (key : string) (v : JsAny) : Async unit := CacheSet key v (Ret tt).
Definition dateNow : Async Z := DateNow Ret.

(** [await axios.get(url, config)]: a rejected request throws at the
    [await]. *)
Definition axiosGet (r : Request) : Async (Response r) :=
  Await r (fun x => match x with Fulfilled v => Ret v | Rejected e => Throw e end).

(** [await new Promise(resolve => setTimeout(resolve, ms))]. *)
Definition sleep (ms : Z) : Async unit := Sleep ms (Ret tt).

(** [if (cached) return cached;] for a hit. Every cached value is an
    object or an array, hence truthy. TypeScript lets a value of any shape
    through; the analyzer writes one shape per key prefix, and the model
    stops a value of another shape here with a [TypeError]. *)
Definition returnCached {A : Type} (cast : JsAny -> option A) (v : JsAny) : Async A :=
  match cast v with
  | Some a => Ret a
  | None => Throw (IsError "TypeError: unexpected cached value")
  end.

(** *** Running asynchronous functions *)

Definition withCache (w : World) (c : CacheService.Store JsAny) : World :=
  {| cache := c; clock := clock w; issued := issued w |}.

Definition send (w : World) (r : Request) : World :=
  {| cache := cache w; clock := clock w; issued := issued w ++ [r] |}.

Definition advance (w : World) (ms : Z) : World :=
  {| cache := cache w; clock := clock w + ms; issued := issued w |}.

(** A promise as the event loop sees it: settled, or waiting for the
    answer to a request already sent, or for a timer. *)
Inductive Task (A : Type) : Type :=
| Done (result : Settled A)
| Pending (r : Request) (k : Settled (Response r) -> Async A)
| Sleeping (ms : Z) (k : Async A).

Arguments Done {A} result.
Arguments Pending {A} r k.
Arguments Sleeping {A} ms k.

(** Calling an [async] function: the body runs synchronously up to its
    first [await]; a request is sent before the function suspends. *)
Fixpoint start (env : Env) {A : Type} (m : Async A) (w : World) : World * Task A :=
  match m with
  | Ret a => (w, Done (Fulfilled a))
  | Throw e => (w, Done (Rejected e))
  | CacheGet key k =>
      let '(v, c) := CacheService.get key (clock w) (cache w) in
      start env (k v) (withCache w c)
  | CacheSet key v k =>
      start env k
        (withCache w (CacheService.set (cacheConfig env) key v None (clock w) (cache w)))
  | DateNow k => start env (k (clock w)) w
  | Await r k => (send w r, Pending r k)
  | Sleep ms k => (w, Sleeping ms k)
  end.

(** Running a body to its end: every [await] sends its request, the clock
    moves by the time the answer takes, and the body resumes with it. *)
Fixpoint complete (env : Env) {A : Type} (m : Async A) (w : World) : World * Settled A :=
  match m with
  | Ret a => (w, Fulfilled a)
  | Throw e => (w, Rejected e)
  | CacheGet key k =>
      let '(v, c) := CacheService.get key (clock w) (cache w) in
      complete env (k v) (withCache w c)
  | CacheSet key v k =>
      complete env k
        (withCache w (CacheService.set (cacheConfig env) key v None (clock w) (cache w)))
  | DateNow k => complete env (k (clock w)) w
  | Await r k => complete env (k (respond env r)) (advance (send w r) (elapsed env r))
  | Sleep ms k => complete env k (advance w ms)
  end.

(** [await promise] for a promise obtained from [start]. *)
Definition settle (env : Env) {A : Type} (t : Task A) (w : World) : World * Settled A :=
  match t with
  | Done result => (w, result)
  | Pending r k => complete env (k (respond env r)) (advance w (elapsed env r))
  | Sleeping ms k => complete env k (advance w ms)
  end.

(** *** Helper methods *)

Definition asCoordinates (v : JsAny) : option Coordinates :=
  match v with VCoordinates c => Some c | _ => None end.
Definition asPropertyDetails (v : JsAny) : option PropertyDetails.t :=
  match v with VPropertyDetails d => Some d | _ => None end.
Definition asPlanningHistory (v : JsAny) : option (list PlanningApplication.t) :=
  match v with VPlanningHistory l => Some l | _ => None end.
Definition asComparables (v : JsAny) : option (list Comparable.t) :=
  match v with VComparables l => Some l | _ => None end.
Definition asMarketData (v : JsAny) : option MarketData.t :=
  match v with VMarketData m => Some m | _ => None end.
Definition asTransportLinks (v : JsAny) : option (list TransportLink.t) :=
  match v with VTransportLinks l => Some l | _ => None end.
Definition asAmenities (v : JsAny) : option (list Amenity.t) :=
  match v with VAmenities l => Some l | _ => None end.
Definition asRestrictions (v : JsAny) : option Restrictions.t :=
  match v with VRestrictions r => Some r | _ => None end.

(** [text || 'Unknown']: the empty string is falsy. *)
Definition orUnknown (text : string) : string :=
  if String.eqb text "" then "Unknown"%string else text.

(** [table[key]] on an object literal. *)
Fixpoint lookup {A : Type} (key : string) (table : list (string * A)) : option A :=
  match table with
  | [] => None
  | (k, a) :: table' => if String.eqb k key then Some a else lookup key table'
  end.

(** [private getDefaultPropertyDetails()]. *)
Definition getDefaultPropertyDetails : PropertyDetails.t :=
  {| PropertyDetails.currentValue := 0;
     PropertyDetails.propertyType := "Unknown";
     PropertyDetails.bedrooms := 0;
     PropertyDetails.bathrooms := 0;
     PropertyDetails.tenure := "Unknown";
     PropertyDetails.useClass := "Unknown";
     PropertyDetails.localAuthority := "Unknown" |}.

(** [private getDefaultMarketData()]. *)
Definition getDefaultMarketData : MarketData.t :=
  {| MarketData.averagePrice := 400000;
     MarketData.priceChange1Year := 6%Q;
     MarketData.priceChange5Year := 20%Q;
     MarketData.timeOnMarket := 50;
     MarketData.demandLevel := Medium;
     MarketData.soldPriceAccuracy := (8 # 10)%Q;
     MarketData.sampleSize := 10 |}.

(** The literal passed to [extractResult] on line 189, which is also what
    [checkPlanningRestrictions] computes. *)
Definition noRestrictions : Restrictions.t :=
  {| Restrictions.conservationArea := false;
     Restrictions.listedBuilding := false;
     Restrictions.article4Direction := false |}.

(** [private rateComparable(comp)]; [now] is its [Date.now()]. An invalid
    sale date gives [NaN], and every comparison with [NaN] is false. *)
Definition rateComparable (env : Env) (now : Z) (comp : Comparable.t) : Rating :=
  match dateGetTime env (Comparable.saleDate comp) with
  | None => Low
  | Some saleTime =>
      let monthsAgo := (inject_Z (now - saleTime) / inject_Z (1000 * 60 * 60 * 24 * 30))%Q in
      if Qle_bool monthsAgo 6%Q && (Comparable.price comp >? 0) then High
      else if Qle_bool monthsAgo 18%Q && (Comparable.price comp >? 0) then Medium
      else Low
  end.

(** The [areaData] table of [generateMarketDataByArea]: average price,
    one-year change, demand level. *)
Definition areaData : list (string * (Z * Q * Rating)) :=
  [ ("SW"%string, (800000, (82 # 10)%Q, High));
    ("W1"%string, (1200000, (65 # 10)%Q, High));
    ("E1"%string, (500000, (121 # 10)%Q, High));
    ("SE"%string, (450000, (78 # 10)%Q, Medium));
    ("N1"%string, (600000, (92 # 10)%Q, High));
    ("CR"%string, (400000, (55 # 10)%Q, Medium)) ].

(** [private generateMarketDataByArea(postcodeArea)]. *)
Definition generateMarketDataByArea (postcodeArea : string) : MarketData.t :=
  let '(averagePrice, priceChange1Year, demandLevel) :=
    match lookup postcodeArea areaData with
    | Some base => base
    | None => (400000, 6%Q, Medium)
    end in
  {| MarketData.averagePrice := averagePrice;
     MarketData.priceChange1Year := priceChange1Year;
     MarketData.priceChange5Year := (priceChange1Year * (35 # 10))%Q;
     MarketData.timeOnMarket :=
       if ratingEqb demandLevel High then 35
       else if ratingEqb demandLevel Medium then 50 else 75;
     MarketData.demandLevel := demandLevel;
     MarketData.soldPriceAccuracy := (95 # 100)%Q;
     MarketData.sampleSize := 25 |}.

(** The [areaEstimates] table of [estimatePropertyDetails]. *)
Definition areaEstimates : list (string * Z) :=
  [ ("SW"%string, 800000); ("W1"%string, 1200000); ("WC"%string, 900000);
    ("EC"%string, 700000); ("N1"%string, 600000); ("E1"%string, 500000);
    ("SE"%string, 450000); ("CR"%string, 400000); ("BR"%string, 350000);
    ("DA"%string, 300000); ("TN"%string, 350000); ("ME"%string, 280000) ].

(** [private async getLocalAuthority(address)]. *)
Definition getLocalAuthority (env : Env) (address : string) : Async string :=
  tryCatch
    (let postcode := extractPostcode env address in
     response <- axiosGet (GetPostcode postcode) ;;
     Ret (match response with
          | Some result =>
              match admin_district result with
              | Some district => orUnknown district
              | None => "Unknown"%string
              end
          | None => "Unknown"%string
          end))
    (fun _ => Ret "Unknown"%string).

(** *** The providers *)

(** [private async getCoordinates(address)], the seed resolution. *)
Definition getCoordinates (env : Env) (address : string) : Async Coordinates :=
  tryCatch
    (let postcode := extractPostcode env address in
     let cacheKey := ("coords_" +:+ postcode)%string in
     cached <- cacheGet cacheKey ;;
     match cached with
     | Some v => returnCached asCoordinates v
     | None =>
         response <- axiosGet (GetPostcode postcode) ;;
         match response with
         | None => Throw (IsError "TypeError: Cannot read properties of undefined")
         | Some result =>
             let coordinates := {| lat := latitude result; lng := longitude result |} in
             cacheSet cacheKey (VCoordinates coordinates) ;;;
             Ret coordinates
         end
     end)
    (fun _ => Throw (IsError ("Could not geocode address: " +:+ address))).

(** [private async scrapeRightmoveDetails(address)]; [None] is [null]. *)
Definition scrapeRightmoveDetails (env : Env) (address : string)
    : Async (option PropertyDetails.t) :=
  tryCatch
    (response <- axiosGet (GetRightmove address) ;;
     match response with
     | None => Ret None
     | Some firstResult =>
         localAuthority <- getLocalAuthority env address ;;
         Ret (Some
           {| PropertyDetails.currentValue := priceValue firstResult;
              PropertyDetails.propertyType := orUnknown (propertyInformation firstResult);
              PropertyDetails.bedrooms := cardBedrooms firstResult;
              PropertyDetails.bathrooms := 1;
              PropertyDetails.tenure := "Freehold";
              PropertyDetails.useClass := "C3";
              PropertyDetails.localAuthority := localAuthority |})
     end)
    (fun _ => Ret None).

(** [private async estimatePropertyDetails(address)]. *)
Definition estimatePropertyDetails (env : Env) (address : string)
    : Async PropertyDetails.t :=
  let postcode := extractPostcode env address in
  let postcodeArea := String.substring 0 2 postcode in
  let estimatedValue := default 400000 (lookup postcodeArea areaEstimates) in
  localAuthority <- getLocalAuthority env address ;;
  Ret {| PropertyDetails.currentValue := estimatedValue;
         PropertyDetails.propertyType := "Terraced";
         PropertyDetails.bedrooms := 3;
         PropertyDetails.bathrooms := 1;
         PropertyDetails.tenure := "Freehold";
         PropertyDetails.useClass := "C3";
         PropertyDetails.localAuthority := localAuthority |}.

(** [private async getPropertyDetails(address, _coords)]. *)
Definition getPropertyDetails (env : Env) (address : string) (_coords : Coordinates)
    : Async PropertyDetails.t :=
  tryCatch
    (let cacheKey := ("details_" +:+ address)%string in
     cached <- cacheGet cacheKey ;;
     match cached with
     | Some v => returnCached asPropertyDetails v
     | None =>
         scraped <- scrapeRightmoveDetails env address ;;
         propertyDetails <-
           match scraped with
           | Some d =>
               if PropertyDetails.currentValue d =? 0
               then estimatePropertyDetails env address
               else Ret d
           | None => estimatePropertyDetails env address
           end ;;
         cacheSet cacheKey (VPropertyDetails propertyDetails) ;;;
         Ret propertyDetails
     end)
    (fun _ => Ret getDefaultPropertyDetails).

(** The placeholder list of [getPlanningHistory]. *)
Definition mockPlanningHistory : list PlanningApplication.t :=
  [ {| PlanningApplication.reference := "P/2023/0001";
       PlanningApplication.description := "Single storey rear extension";
       PlanningApplication.status := "Approved";
       PlanningApplication.date := "2023-01-15";
       PlanningApplication.decision := Some "Approved"%string;
       PlanningApplication.url :=
         Some "https://planning.example.gov.uk/application/P20230001"%string |};
    {| PlanningApplication.reference := "P/2022/0156";
       PlanningApplication.description := "Loft conversion with rear dormer";
       PlanningApplication.status := "Approved";
       PlanningApplication.date := "2022-08-10";
       PlanningApplication.decision := Some "Approved"%string;
       PlanningApplication.url := None |} ].

(** [private async getPlanningHistory(address, _coords)]. *)
Definition getPlanningHistory (env : Env) (address : string) (_coords : Coordinates)
    : Async (list PlanningApplication.t) :=
  tryCatch
    (let cacheKey := ("planning_" +:+ address)%string in
     cached <- cacheGet cacheKey ;;
     match cached with
     | Some v => returnCached asPlanningHistory v
     | None =>
         cacheSet cacheKey (VPlanningHistory mockPlanningHistory) ;;;
         Ret mockPlanningHistory
     end)
    (fun _ => Ret []).

(** The body of the loop of [getLandRegistryComparables] for one line;
    [now] is the [new Date()] the cut-off is computed from. *)
Definition landRegistryComparable (env : Env) (now : Z)
    (line : option LandRegistryRow) : list Comparable.t :=
  match line with
  | None => []
  | Some fields =>
      let recent :=
        match dateGetTime env (rowSaleDate fields) with
        | Some saleTime => threeYearsBefore env now <=? saleTime
        | None => false
        end in
      if recent && (rowPrice fields >? 0) then
        [ {| Comparable.address := rowAddress fields;
             Comparable.price := rowPrice fields;
             Comparable.saleDate := rowSaleDate fields;
             Comparable.propertyType := rowPropertyType fields;
             Comparable.bedrooms := 0;
             Comparable.floorArea := None;
             Comparable.pricePerSqFt := 0%Q;
             Comparable.distance := (1 # 2)%Q;
             Comparable.rating := Medium;
             Comparable.source := "Land Registry";
             Comparable.url :=
               Some (LAND_REGISTRY env +:+ "/data/ppi/transaction-record/"
                     +:+ transactionId fields)%string |} ]
      else []
  end.

(** [private async getLandRegistryComparables(postcode)]; the loop takes
    the first 10 lines after the header and is synchronous, so its
    [new Date()] calls are taken as one read. *)
Definition getLandRegistryComparables (env : Env) (postcode : string)
    : Async (list Comparable.t) :=
  tryCatch
    (response <- axiosGet (GetLandRegistry postcode) ;;
     now <- dateNow ;;
     Ret (flat_map (landRegistryComparable env now) (firstn 10 response)))
    (fun _ => Ret []).

(** The centre of London, the second argument of [calculateDistance] in
    [getComparables]. *)
Definition london : Coordinates := {| lat := (515074 # 10000)%Q; lng := (- (1278 # 10000))%Q |}.

(** The object built by the [map] callback of [getComparables]. *)
Definition enhanceComparable (env : Env) (now : Z) (coords : Coordinates)
    (comp : Comparable.t) : Comparable.t :=
  {| Comparable.address := Comparable.address comp;
     Comparable.price := Comparable.price comp;
     Comparable.saleDate := Comparable.saleDate comp;
     Comparable.propertyType := Comparable.propertyType comp;
     Comparable.bedrooms := Comparable.bedrooms comp;
     Comparable.floorArea := Comparable.floorArea comp;
     Comparable.pricePerSqFt :=
       match Comparable.floorArea comp with
       | Some area =>
           if Qeq_bool area 0%Q then 0%Q
           else (inject_Z (Comparable.price comp) / area)%Q
       | None => 0%Q
       end;
     Comparable.distance := calculateDistance env coords london;
     Comparable.rating := rateComparable env now comp;
     Comparable.source := Comparable.source comp;
     Comparable.url := Comparable.url comp |}.

(** [private async getComparables(coords, postcode)]. The [map] callback
    runs synchronously, so its [Date.now()] calls (inside [rateComparable])
    are taken as one read. *)
Definition getComparables (env : Env) (coords : Coordinates) (postcode : string)
    : Async (list Comparable.t) :=
  tryCatch
    (let cacheKey := ("comparables_" +:+ postcode)%string in
     cached <- cacheGet cacheKey ;;
     match cached with
     | Some v => returnCached asComparables v
     | None =>
         landRegistryComps <- getLandRegistryComparables env postcode ;;
         now <- dateNow ;;
         let enhancedComparables :=
           map (enhanceComparable env now coords) landRegistryComps in
         cacheSet cacheKey (VComparables enhancedComparables) ;;;
         Ret enhancedComparables
     end)
    (fun _ => Ret []).

(** [private async getMarketData(postcode)]. *)
Definition getMarketData (env : Env) (postcode : string) : Async MarketData.t :=
  tryCatch
    (let cacheKey := ("market_" +:+ postcode)%string in
     cached <- cacheGet cacheKey ;;
     match cached with
     | Some v => returnCached asMarketData v
     | None =>
         let postcodeArea := String.substring 0 2 postcode in
         let marketData := generateMarketDataByArea postcodeArea in
         cacheSet cacheKey (VMarketData marketData) ;;;
         Ret marketData
     end)
    (fun _ => Ret getDefaultMarketData).

(** [`..._${coords.lat}_${coords.lng}`], the tail of three cache keys. *)
Definition coordsKey (env : Env) (coords : Coordinates) : string :=
  (numberToString env (lat coords) +:+ "_" +:+ numberToString env (lng coords))%string.

(** [if (this.APIs.GOOGLE_PLACES)]: an unset variable and the empty string
    are both falsy. *)
Definition googlePlacesKey (env : Env) : option string :=
  match GOOGLE_PLACES env with
  | Some key => if String.eqb key "" then None else Some key
  | None => None
  end.

(** The object pushed by the loop of [getTransportLinks]. *)
Definition transportLinkOf (env : Env) (coords : Coordinates) (place : Place)
    : TransportLink.t :=
  let distance := calculateDistance env coords (placeLocation place) in
  {| TransportLink.type := determineTransportType env (placeName place);
     TransportLink.name := placeName place;
     TransportLink.distance := distance;
     TransportLink.walkingTime := mathRound (distance * 12)%Q;
     TransportLink.zones := extractTravelZones env (placeName place) |}.

(** [private async getTransportLinks(coords)]. *)
Definition getTransportLinks (env : Env) (coords : Coordinates)
    : Async (list TransportLink.t) :=
  tryCatch
    (let cacheKey := ("transport_" +:+ coordsKey env coords)%string in
     cached <- cacheGet cacheKey ;;
     match cached with
     | Some v => returnCached asTransportLinks v
     | None =>
         transportLinks <-
           match googlePlacesKey env with
           | Some apiKey =>
               response <- axiosGet (GetPlaces coords "transit_station" apiKey) ;;
               Ret (map (transportLinkOf env coords) (firstn 5 response))
           | None => Ret []
           end ;;
         cacheSet cacheKey (VTransportLinks transportLinks) ;;;
         Ret transportLinks
     end)
    (fun _ => Ret []).

(** The object pushed by the inner loop of [getLocalAmenities]. *)
Definition amenityOf (env : Env) (coords : Coordinates) (type : string) (place : Place)
    : Amenity.t :=
  {| Amenity.type := type;
     Amenity.name := placeName place;
     Amenity.distance := calculateDistance env coords (placeLocation place);
     Amenity.rating := placeRating place;
     Amenity.address := placeVicinity place |}.

(** [const amenityTypes]. *)
Definition amenityTypes : list string :=
  [ "school"; "hospital"; "supermarket"; "restaurant"; "park"; "gym" ]%string.

(** The [for (const type of amenityTypes)] loop of [getLocalAmenities],
    with the array [amenities] it pushes to as an accumulator. A failure
    inside one iteration is caught inside that iteration. *)
Fixpoint amenitiesLoop (env : Env) (coords : Coordinates) (apiKey : string)
    (types : list string) (amenities : list Amenity.t) : Async (list Amenity.t) :=
  match types with
  | [] => Ret amenities
  | type :: types' =>
      amenities' <-
        tryCatch
          (response <- axiosGet (GetPlaces coords type apiKey) ;;
           let pushed := amenities ++ map (amenityOf env coords type) (firstn 3 response) in
           sleep 100 ;;;
           Ret pushed)
          (fun _ => Ret amenities) ;;
      amenitiesLoop env coords apiKey types' amenities'
  end.

(** [private async getLocalAmenities(coords)]. *)
Definition getLocalAmenities (env : Env) (coords : Coordinates)
    : Async (list Amenity.t) :=
  tryCatch
    (let cacheKey := ("amenities_" +:+ coordsKey env coords)%string in
     cached <- cacheGet cacheKey ;;
     match cached with
     | Some v => returnCached asAmenities v
     | None =>
         amenities <-
           match googlePlacesKey env with
           | Some apiKey => amenitiesLoop env coords apiKey amenityTypes []
           | None => Ret []
           end ;;
         cacheSet cacheKey (VAmenities amenities) ;;;
         Ret amenities
     end)
    (fun _ => Ret []).

(** [private async checkPlanningRestrictions(coords)]. *)
Definition checkPlanningRestrictions (env : Env) (coords : Coordinates)
    : Async Restrictions.t :=
  tryCatch
    (let cacheKey := ("restrictions_" +:+ coordsKey env coords)%string in
     cached <- cacheGet cacheKey ;;
     match cached with
     | Some v => returnCached asRestrictions v
     | None =>
         let restrictions := noRestrictions in
         cacheSet cacheKey (VRestrictions restrictions) ;;;
         Ret restrictions
     end)
    (fun _ => Ret noRestrictions).

(** *** [analyze] *)

(** The [dataPromises] array of lines 123-131: seven promises, each of
    its own type. *)
Record DataPromises : Type := {
  promise0 : Task PropertyDetails.t;
  promise1 : Task (list PlanningApplication.t);
  promise2 : Task (list Comparable.t);
  promise3 : Task MarketData.t;
  promise4 : Task (list TransportLink.t);
  promise5 : Task (list Amenity.t);
  promise6 : Task Restrictions.t
}.

(** Building the array calls the seven providers in order: each runs up
    to its first [await] before the next one is called. *)
Definition startDataPromises (env : Env) (address : string) (coordinates : Coordinates)
    (postcode : string) (w : World) : World * DataPromises :=
  let '(w1, t0) := start env (getPropertyDetails env address coordinates) w in
  let '(w2, t1) := start env (getPlanningHistory env address coordinates) w1 in
  let '(w3, t2) := start env (getComparables env coordinates postcode) w2 in
  let '(w4, t3) := start env (getMarketData env postcode) w3 in
  let '(w5, t4) := start env (getTransportLinks env coordinates) w4 in
  let '(w6, t5) := start env (getLocalAmenities env coordinates) w5 in
  let '(w7, t6) := start env (checkPlanningRestrictions env coordinates) w6 in
  (w7, {| promise0 := t0; promise1 := t1; promise2 := t2; promise3 := t3;
          promise4 := t4; promise5 := t5; promise6 := t6 |}).

(** The outcomes [Promise.allSettled(dataPromises)] resolves to. *)
Record Outcomes : Type := {
  propertyDetails : Settled PropertyDetails.t;
  planningHistory : Settled (list PlanningApplication.t);
  comparables : Settled (list Comparable.t);
  marketData : Settled MarketData.t;
  transportLinks : Settled (list TransportLink.t);
  amenities : Settled (list Amenity.t);
  restrictions : Settled Restrictions.t
}.

(** [await Promise.allSettled(dataPromises)]. Pending promises are
    resumed in array order. *)
Definition allSettled (env : Env) (ps : DataPromises) (w : World) : World * Outcomes :=
  let '(w0, r0) := settle env (promise0 ps) w in
  let '(w1, r1) := settle env (promise1 ps) w0 in
  let '(w2, r2) := settle env (promise2 ps) w1 in
  let '(w3, r3) := settle env (promise3 ps) w2 in
  let '(w4, r4) := settle env (promise4 ps) w3 in
  let '(w5, r5) := settle env (promise5 ps) w4 in
  let '(w6, r6) := settle env (promise6 ps) w5 in
  (w6, {| propertyDetails := r0; planningHistory := r1; comparables := r2;
          marketData := r3; transportLinks := r4; amenities := r5;
          restrictions := r6 |}).

(** [const extractResult = (result, defaultValue) => ...] (lines 174-181). *)
Definition extractResult {A : Type} (result : Settled A) (defaultValue : A) : A :=
  match result with
  | Fulfilled value => value
  | Rejected _ => defaultValue
  end.

(** The object literal of lines 141-159; [now] is its [new Date()]. *)
Definition basicResult (address : string) (coordinates : Coordinates)
    (details : PropertyDetails.t) (restricted : Restrictions.t) (now : Z)
    : PropertyData.t :=
  {| PropertyData.address := address;
     PropertyData.coordinates := coordinates;
     PropertyData.currentValue := PropertyDetails.currentValue details;
     PropertyData.propertyType := PropertyDetails.propertyType details;
     PropertyData.useClass := PropertyDetails.useClass details;
     PropertyData.bedrooms := PropertyDetails.bedrooms details;
     PropertyData.bathrooms := PropertyDetails.bathrooms details;
     PropertyData.tenure := PropertyDetails.tenure details;
     PropertyData.planningHistory := [];
     PropertyData.localAuthority := PropertyDetails.localAuthority details;
     PropertyData.conservationArea := Restrictions.conservationArea restricted;
     PropertyData.listedBuilding := Restrictions.listedBuilding restricted;
     PropertyData.article4Direction := Restrictions.article4Direction restricted;
     PropertyData.comparables := [];
     PropertyData.marketTrends := getDefaultMarketData;
     PropertyData.transportLinks := [];
     PropertyData.localAmenities := [];
     PropertyData.analysisDate := now;
     PropertyData.dataQuality :=
       {| DataQuality.overallScore := 60;
          DataQuality.comparablesQuality := Low;
          DataQuality.marketDataQuality := Low;
          DataQuality.planningDataQuality := Low;
          DataQuality.warnings := ["Basic analysis - limited data gathered"%string] |} |}.

(** Lines 183-214: the seven [extractResult] calls, the quality
    assessment and the result object; [now] is its [new Date()]. *)
Definition comprehensiveResult (address : string) (coordinates : Coordinates)
    (o : Outcomes) (now : Z) : PropertyData.t :=
  let finalPropertyDetails := extractResult (propertyDetails o) getDefaultPropertyDetails in
  let finalPlanningHistory := extractResult (planningHistory o) [] in
  let finalComparables := extractResult (comparables o) [] in
  let finalMarketData := extractResult (marketData o) getDefaultMarketData in
  let finalTransportLinks := extractResult (transportLinks o) [] in
  let finalAmenities := extractResult (amenities o) [] in
  let finalRestrictions := extractResult (restrictions o) noRestrictions in
  let dataQuality :=
    assessDataQuality finalComparables finalMarketData finalPlanningHistory in
  {| PropertyData.address := address;
     PropertyData.coordinates := coordinates;
     PropertyData.currentValue := PropertyDetails.currentValue finalPropertyDetails;
     PropertyData.propertyType := PropertyDetails.propertyType finalPropertyDetails;
     PropertyData.useClass := PropertyDetails.useClass finalPropertyDetails;
     PropertyData.bedrooms := PropertyDetails.bedrooms finalPropertyDetails;
     PropertyData.bathrooms := PropertyDetails.bathrooms finalPropertyDetails;
     PropertyData.tenure := PropertyDetails.tenure finalPropertyDetails;
     PropertyData.planningHistory := finalPlanningHistory;
     PropertyData.localAuthority := PropertyDetails.localAuthority finalPropertyDetails;
     PropertyData.conservationArea := Restrictions.conservationArea finalRestrictions;
     PropertyData.listedBuilding := Restrictions.listedBuilding finalRestrictions;
     PropertyData.article4Direction := Restrictions.article4Direction finalRestrictions;
     PropertyData.comparables := finalComparables;
     PropertyData.marketTrends := finalMarketData;
     PropertyData.transportLinks := finalTransportLinks;
     PropertyData.localAmenities := finalAmenities;
     PropertyData.analysisDate := now;
     PropertyData.dataQuality := dataQuality |}.

(** The [catch] of lines 219-222. *)
Definition analysisFailed (error : Thrown) : Thrown :=
  IsError ("Property analysis failed: " +:+
           match error with
           | IsError message => message
           | NotError => "Unknown error"%string
           end).

(** [async analyze(address, analysisType = 'comprehensive')]. The result
    is the promise the call settles to, next to the world at that moment.
    In the basic branch [Promise.all] waits for promises 0 and 6 only;
    the other five stay as they were started. *)
Definition analyze (env : Env) (address analysisType : string) (w : World)
    : World * Settled PropertyData.t :=
  let '(w0, seed) := complete env (getCoordinates env address) w in
  match seed with
  | Rejected error => (w0, Rejected (analysisFailed error))
  | Fulfilled coordinates =>
      let postcode := extractPostcode env address in
      let '(w1, dataPromises) := startDataPromises env address coordinates postcode w0 in
      if String.eqb analysisType "basic" then
        let '(w2, first) := settle env (promise0 dataPromises) w1 in
        let '(w3, last) := settle env (promise6 dataPromises) w2 in
        match first, last with
        | Fulfilled details, Fulfilled restricted =>
            (w3, Fulfilled (basicResult address coordinates details restricted (clock w3)))
        | Rejected error, _ => (w3, Rejected (analysisFailed error))
        | _, Rejected error => (w3, Rejected (analysisFailed error))
        end
      else
        let '(w2, outcomes) := allSettled env dataPromises w1 in
        (w2, Fulfilled (comprehensiveResult address coordinates outcomes (clock w2)))
  end.

(** The requests a call of [analyze] sends before it settles. *)
Definition requestsOf (env : Env) (address analysisType : string) (w : World)
    : list Request :=
  issued (fst (analyze env address analysisType w)).

(** The requests that go to the sources of the comprehensive branch only:
    the Land Registry serves the comparables, the Places API serves the
    transport links and the local amenities. (Planning history and market
    data are computed without a request; Rightmove and postcodes.io serve
    the property details, postcodes.io also the seed.) *)
Definition optionalFetch (r : Request) : bool :=
  match r with
  | GetLandRegistry _ | GetPlaces _ _ _ => true
  | GetPostcode _ | GetRightmove _ => false
  end.

End PropertyAnalyzer.

(** ** index.ts: the rate limit of the server *)

Module Server.

Import RateLimiter.

(** [new RateLimiter(parseInt(process.env.MAX_REQUESTS_PER_MINUTE || '60'),
    60000)]; the argument is the number parsed. *)
Definition rateLimiter (maxRequestsPerMinute : Z) : RateLimitConfig :=
  defaultConfig maxRequestsPerMinute 60000.

(** [const clientId = 'default'] of the tool-call handler. *)
Definition clientId : string := "default".

(** The two places of the server that reach its limiter: the check at
    the head of the tool-call handler, and the limiter's own timer. The
    limiter is a private field and no other code of the server names
    it. *)
Inductive Event : Type :=
| ToolCall (now : Z)
| Tick (now : Z).

(** What the handler does with a tool call after the check (lines
    113-126): it answers "Rate limit exceeded", or it goes on to the
    tool. *)
Inductive Gate : Type :=
| RateLimitExceeded
| Dispatched.

Definition checkRateLimit (cfg : RateLimitConfig) (now : Z) (st : Requests)
    : Gate * Requests :=
  let '(allowed, st') := canMakeRequest cfg now clientId st in
  (if negb allowed then RateLimitExceeded else Dispatched, st').

(** The answers to the tool calls of a run of the server. *)
Fixpoint serve (cfg : RateLimitConfig) (events : list Event) (st : Requests)
    : list Gate :=
  match events with
  | [] => []
  | ToolCall now :: events' =>
      let '(gate, st') := checkRateLimit cfg now st in
      gate :: serve cfg events' st'
  | Tick now :: events' => serve cfg events' (cleanup cfg now st)
  end.

End Server.

(* ===================================================================== *)
(** * Part II: the vocabulary of the properties *)
(* ===================================================================== *)

(** ** The admission controller *)

Section RateLimiterVocabulary.

Import RateLimiter.

Implicit Types (cfg : RateLimitConfig) (st : Requests).

(** The specification's reading of the window, in its own words: the
    records of an identifier that are active at [now] are those whose age
    is strictly less than the window. *)
Definition activeRecords (cfg : RateLimitConfig) (now : Z)
    (rs : list RequestRecord) : list RequestRecord :=
  filter (fun r => now - timestamp r < windowMs cfg) rs.

(** The specification's [resetIn]: the time until the oldest active record
    ages out of the window, and 0 when no record is active. *)
Definition resetInSpec (cfg : RateLimitConfig) (now : Z) (identifier : string)
    (st : Requests) : Z :=
  match activeRecords cfg now (stored (keyGenerator cfg identifier) st) with
  | [] => 0
  | r :: rs => mathMin (timestamp r) (map timestamp rs) + windowMs cfg - now
  end.

(** What the skip flags of the configuration say about one outcome. *)
Definition skipped cfg (success : bool) : bool :=
  (success && skipSuccessfulRequests cfg) || (negb success && skipFailedRequests cfg).

(** A call is timed inside the window opened at [t0] when its record is
    stamped no earlier than [t0] and its admission check reads the clock
    before [t0 + windowMs]. *)
Definition timedWithin cfg (t0 : Z) (call : Z * Z) : Prop :=
  t0 <= fst call /\ snd call - t0 < windowMs cfg.

(** The clock of 61 calls, one every half second from time 0. *)
Definition halfSecondClock : list (Z * Z) :=
  map (fun i => (Z.of_nat i * 500, Z.of_nat i * 500)) (seq 0 61).

(** The store after a request recorded at time 0, a periodic sweep at
    time 40000 and a request recorded at time 50000, on a fresh limiter
    with the default quota. *)
Definition twoRequests : Requests :=
  let cfg := defaultConfig 60 60000 in
  let st1 := snd (recordRequest cfg 0 0 "default" true empty) in
  let st2 := cleanup cfg 40000 st1 in
  snd (recordRequest cfg 50000 50000 "default" true st2).

(** The identifier a call is about; [resetAll] and the sweep are about
    every identifier. *)
Definition opIdentifier (op : Op) : option string :=
  match op with
  | OpCanMakeRequest identifier _ | OpRecordRequest identifier _ _ _
  | OpGetRemainingRequests identifier _ | OpGetStatus identifier _ _
  | OpReset identifier => Some identifier
  | OpResetAll | OpCleanup _ => None
  end.

(** Is the call a [recordRequest]? *)
Definition isRecord (op : Op) : bool :=
  match op with OpRecordRequest _ _ _ _ => true | _ => false end.

(** What every reachable store of the limiter satisfies: no key holds an
    empty array, and no key holds more than [maxRequests] records. *)
Definition withinLimits cfg st : Prop :=
  map_Forall (fun _ rs => rs <> [] /\ Z.of_nat (length rs) <= maxRequests cfg) st.

(** The clock of one pass through the middleware with every read at [t]. *)
Definition clockAt (t : Z) : MiddlewareClock :=
  {| readCheck := t; readStamp := t; readRecheck := t;
     readRemaining := t; readReset := t; readHeader := t |}.

(** A pass inside the window opened at [t0]: its time stamp is not before
    [t0], and every clock read is less than a window after [t0]. *)
Definition passWithin cfg (t0 : Z) (clock : MiddlewareClock) : Prop :=
  t0 <= readStamp clock
  /\ Forall (fun t => t - t0 < windowMs cfg)
       [ readCheck clock; readStamp clock; readRecheck clock;
         readRemaining clock; readReset clock; readHeader clock ].

(** [Math.ceil(ms / 1000)]. *)
Definition ceilSeconds (ms : Z) : Z := - ((- ms) / 1000).

(** What the middleware answers to the [i]-th request (counting from 0)
    of a run that starts on a fresh limiter at time [t0]: the first
    [maxRequests] requests pass with a remaining quota that counts down,
    the others are refused; either way the reset time is the time until
    the first request leaves the window, in seconds, rounded up. *)
Definition middlewareOutcome cfg (t0 : Z) (i : nat) (clock : MiddlewareClock)
    : MiddlewareResult :=
  let wait := ceilSeconds (t0 + windowMs cfg - readReset clock) in
  if Z.of_nat i <? maxRequests cfg
  then Next (maxRequests cfg) (maxRequests cfg - Z.of_nat i - 1)
            (ceilSeconds (readHeader clock) + wait)
  else TooManyRequests wait.

End RateLimiterVocabulary.

(** ** The cache *)

Section CacheVocabulary.

Import CacheService.

Context {V : Type}.

Implicit Types (s : Store V) (p q : string * CacheEntry V).

(** Keys stay distinct: the store is a map. *)
Definition distinctKeys s : Prop := NoDup (map fst s).


(** The entries [evictOldest] picks: the first [toRemove] of the sorted
    array. *)
Definition victims cfg s : list (string * CacheEntry V) :=
  firstn (Z.to_nat (toRemove cfg)) (sortEntries s).

(** The test the deleting loop amounts to: does [q] carry the key of a
    picked entry? *)
Definition hasVictimKey cfg s q : bool :=
  existsb (fun p => String.eqb (fst q) (fst p)) (victims cfg s).


(** Does the call write the payload or the expiry of [key]? Only [set]
    and [refresh] assign [data], [timestamp] or [ttl]. *)
Definition rewrites (key : string) (op : Op V) : bool :=
  match op with
  | OpSet k _ _ _ => String.eqb k key
  | OpRefresh k _ _ => String.eqb k key
  | _ => false
  end.

End CacheVocabulary.

(** A cache of capacity 2: "b" is never read, so the third insert evicts
    it and keeps "a". *)
Definition smallCacheRun : list (CacheService.Op string) :=
  [ CacheService.OpSet "a" "1"%string None 0;
    CacheService.OpSet "b" "2"%string None 1;
    CacheService.OpGet "a" 2;
    CacheService.OpSet "c" "3"%string None 3 ].

(** ** The orchestrator and its scorer *)

Section AnalyzerVocabulary.

Import PropertyAnalyzer.

(** The rubric in the specification's words: every component is rated,
    ratings count High = 3, Medium = 2, Low = 1, and the overall score is
    the mean of the three component scores, divided by 3, times 100,
    rounded. *)
Definition rubricScore (c m p : Rating) : Z :=
  mathRound (((inject_Z (scores c) + inject_Z (scores m) + inject_Z (scores p)) / 3) / 3 * 100)%Q.

(** The number of comparables rated High, as the specification counts
    them and as line 735 computes it. *)
Definition ratedHigh (comparables : list Comparable.t) : nat :=
  length (filter (fun c => Comparable.rating c = High) comparables).

(** The thresholds of the rubric, component by component: at least five
    comparables of which at least two are rated High rate High, at least
    three rate Medium. *)
Definition comparablesRating (comparables : list Comparable.t) : Rating :=
  if decide (5 <= length comparables /\ 2 <= ratedHigh comparables)%nat then High
  else if decide (3 <= length comparables)%nat then Medium else Low.

(** Sample-size thresholds for the market data. *)
Definition marketRating (marketData : MarketData.t) : Rating :=
  if decide (20 <= MarketData.sampleSize marketData) then High
  else if decide (10 <= MarketData.sampleSize marketData) then Medium else Low.

(** A non-empty history rates Medium, an empty one Low. *)
Definition planningRating (planningHistory : list PlanningApplication.t) : Rating :=
  match planningHistory with [] => Low | _ :: _ => Medium end.

(** One warning for every component rated Low, in the order comparables,
    market data, planning. *)
Definition lowWarning (r : Rating) (text : string) : list string :=
  if ratingEqb r Low then [text] else [].

(** A body all of whose paths end in [return]. *)
Inductive Total {A : Type} : Async A -> Prop :=
| Total_Ret a : Total (Ret a)
| Total_CacheGet key k : (forall v, Total (k v)) -> Total (CacheGet key k)
| Total_CacheSet key v k : Total k -> Total (CacheSet key v k)
| Total_DateNow k : (forall t, Total (k t)) -> Total (DateNow k)
| Total_Await r k : (forall x, Total (k x)) -> Total (Await r k)
| Total_Sleep ms k : Total k -> Total (Sleep ms k).

(** A promise that cannot be rejected. *)
Definition taskTotal {A : Type} (t : Task A) : Prop :=
  match t with
  | Done (Fulfilled _) => True
  | Done (Rejected _) => False
  | Pending r k => forall x, Total (k x)
  | Sleeping ms k => Total k
  end.

(** The [axios] mock of PropertyAnalyzer.test.ts (lines 283-304):
    postcodes.io and Rightmove answer, every other URL is rejected. *)
Definition testRespond (r : Request) : Settled (Response r) :=
  match r with
  | GetPostcode _ =>
      Fulfilled (Some {| latitude := (515074 # 10000)%Q;
                         longitude := (- (1278 # 10000))%Q;
                         admin_district := Some "Westminster"%string |})
  | GetRightmove _ =>
      Fulfilled (Some {| priceValue := 450000;
                         propertyInformation := "";
                         cardBedrooms := 0 |})
  | GetLandRegistry _ => Rejected (IsError "Unknown URL")
  | GetPlaces _ _ _ => Rejected (IsError "Unknown URL")
  end.

(** The surroundings of that suite: the API key of setup.ts, the cache of
    [new CacheService(5, 100)], and the helper methods at the values they
    take on the one address and the one location of the scenario. *)
Definition testEnv : Env :=
  {| respond := testRespond;
     elapsed := fun _ => 50;
     GOOGLE_PLACES := Some "test-google-key"%string;
     LAND_REGISTRY := "https://landregistry.data.gov.uk";
     cacheConfig := CacheService.mkConfig 5 100;
     extractPostcode := fun address =>
       if String.eqb address "123 Main St, London SW1A 1AA"
       then "SW1A1AA"%string else ""%string;
     calculateDistance := fun _ _ => 0%Q;
     dateGetTime := fun _ => None;
     threeYearsBefore := fun now => now - 94608000000;
     numberToString := fun x =>
       if Qeq_bool x (515074 # 10000) then "51.5074"%string else "-0.1278"%string;
     determineTransportType := fun _ => Bus;
     extractTravelZones := fun _ => [] |}.

(** The address the suite analyses. *)
Definition testAddress : string := "123 Main St, London SW1A 1AA".

(** A fresh cache, no request sent yet. *)
Definition freshWorld : World :=
  {| cache := []; clock := 1700000000000; issued := [] |}.

(** The same, with the coordinates of the postcode already cached (the
    suite's [cache.set('coords_SW1A1AA', coordinates)]). *)
Definition seededWorld : World :=
  {| cache :=
       CacheService.set (CacheService.mkConfig 5 100) "coords_SW1A1AA"
         (VCoordinates london) None 1700000000000 [];
     clock := 1700000000000;
     issued := [] |}.

(** The same surroundings when every request is rejected (the suite's
    [mockRejectedValue(new Error('Network error'))]). *)
Definition networkDown : Env :=
  {| respond := fun r => Rejected (IsError "Network error");
     elapsed := elapsed testEnv;
     GOOGLE_PLACES := GOOGLE_PLACES testEnv;
     LAND_REGISTRY := LAND_REGISTRY testEnv;
     cacheConfig := cacheConfig testEnv;
     extractPostcode := extractPostcode testEnv;
     calculateDistance := calculateDistance testEnv;
     dateGetTime := dateGetTime testEnv;
     threeYearsBefore := threeYearsBefore testEnv;
     numberToString := numberToString testEnv;
     determineTransportType := determineTransportType testEnv;
     extractTravelZones := extractTravelZones testEnv |}.

(** What a body can end with: every [return] gives a value in [P], every
    [throw] a value in [T]. *)
Inductive Leaves {A : Type} (P : A -> Prop) (T : Thrown -> Prop) : Async A -> Prop :=
| Leaves_Ret a : P a -> Leaves P T (Ret a)
| Leaves_Throw e : T e -> Leaves P T (Throw e)
| Leaves_CacheGet key k : (forall v, Leaves P T (k v)) -> Leaves P T (CacheGet key k)
| Leaves_CacheSet key v k : Leaves P T k -> Leaves P T (CacheSet key v k)
| Leaves_DateNow k : (forall t, Leaves P T (k t)) -> Leaves P T (DateNow k)
| Leaves_Await r k : (forall x, Leaves P T (k x)) -> Leaves P T (Await r k)
| Leaves_Sleep ms k : Leaves P T k -> Leaves P T (Sleep ms k).

(** A body that sends at most [n] requests on any of its paths. *)
Inductive Sends {A : Type} : nat -> Async A -> Prop :=
| Sends_Ret n a : Sends n (Ret a)
| Sends_Throw n e : Sends n (Throw e)
| Sends_CacheGet n key k : (forall v, Sends n (k v)) -> Sends n (CacheGet key k)
| Sends_CacheSet n key v k : Sends n k -> Sends n (CacheSet key v k)
| Sends_DateNow n k : (forall t, Sends n (k t)) -> Sends n (DateNow k)
| Sends_Await n r k : (forall x, Sends n (k x)) -> Sends (S n) (Await r k)
| Sends_Sleep n ms k : Sends n k -> Sends n (Sleep ms k).

(** A promise that sends at most [n] more requests once it is resumed. *)
Definition taskSends {A : Type} (n : nat) (t : Task A) : Prop :=
  match t with
  | Done _ => True
  | Pending r k => forall x, Sends n (k x)
  | Sleeping ms k => Sends n k
  end.

(** A look-up that finds nothing to return: no entry, or an expired one
    (which the look-up removes). *)
Definition misses (key : string) (w : World) : Prop :=
  fst (CacheService.get key (clock w) (cache w)) = None.

(** The three fields of the property details that no source is asked
    for. *)
Definition placeholders (d : PropertyDetails.t) : Prop :=
  PropertyDetails.bathrooms d = 1
  /\ PropertyDetails.tenure d = "Freehold"%string
  /\ PropertyDetails.useClass d = "C3"%string.

(** What the Land Registry records of one sale, as [getComparables] hands
    it on: a positive price and the source, no bedrooms and no floor
    area. *)
Definition landRegistrySale (c : Comparable.t) : Prop :=
  0 < Comparable.price c
  /\ Comparable.source c = "Land Registry"%string
  /\ Comparable.bedrooms c = 0
  /\ Comparable.floorArea c = None.

(** What the loop of [getLocalAmenities] collects for one amenity type:
    the first three places of the answer, or nothing when the request
    fails. *)
Definition amenitiesOfType (env : Env) (coords : Coordinates) (apiKey type : string)
    : list Amenity.t :=
  match respond env (GetPlaces coords type apiKey) with
  | Fulfilled response => map (amenityOf env coords type) (firstn 3 response)
  | Rejected _ => []
  end.

(** Surroundings in which every source answers, Rightmove with a card
    whose price reads 0. *)
Definition answeringEnv : Env :=
  {| respond := fun r =>
       match r with
       | GetPostcode _ =>
           Fulfilled (Some {| latitude := (515074 # 10000)%Q;
                              longitude := (- (1278 # 10000))%Q;
                              admin_district := Some "Westminster"%string |})
       | GetRightmove _ =>
           Fulfilled (Some {| priceValue := 0;
                              propertyInformation := "";
                              cardBedrooms := 0 |})
       | GetLandRegistry _ => Fulfilled []
       | GetPlaces _ _ _ => Fulfilled []
       end;
     elapsed := elapsed testEnv;
     GOOGLE_PLACES := GOOGLE_PLACES testEnv;
     LAND_REGISTRY := LAND_REGISTRY testEnv;
     cacheConfig := cacheConfig testEnv;
     extractPostcode := extractPostcode testEnv;
     calculateDistance := calculateDistance testEnv;
     dateGetTime := dateGetTime testEnv;
     threeYearsBefore := threeYearsBefore testEnv;
     numberToString := numberToString testEnv;
     determineTransportType := determineTransportType testEnv;
     extractTravelZones := extractTravelZones testEnv |}.

(** A body that neither reads nor writes the cache under [key]. *)
Inductive Avoids {A : Type} (key : string) : Async A -> Prop :=
| Avoids_Ret a : Avoids key (Ret a)
| Avoids_Throw e : Avoids key (Throw e)
| Avoids_CacheGet key' k :
    key' <> key -> (forall v, Avoids key (k v)) -> Avoids key (CacheGet key' k)
| Avoids_CacheSet key' v k :
    key' <> key -> Avoids key k -> Avoids key (CacheSet key' v k)
| Avoids_DateNow k : (forall t, Avoids key (k t)) -> Avoids key (DateNow k)
| Avoids_Await r k : (forall x, Avoids key (k x)) -> Avoids key (Await r k)
| Avoids_Sleep ms k : Avoids key k -> Avoids key (Sleep ms k).

(** The cache holds no entry under [key]. *)
Definition absent (key : string) (w : World) : Prop :=
  CacheService.mapGet key (cache w) = None.

(** A look-up of [key] in the world [w] would return [v]: the entry is
    there and has not expired. *)
Definition cachedAt (w : World) (key : string) (v : JsAny) : Prop :=
  fst (CacheService.get key (clock w) (cache w)) = Some v.

(** The world after a first comprehensive analysis of the test address
    on an empty cache, every source answering. *)
Definition analysedWorld : World :=
  fst (analyze answeringEnv testAddress "comprehensive" freshWorld).

(** What a body can end with in given surroundings: as [Leaves], but an
    [await] of a request goes on with the answer the surroundings give to
    that request. *)
Inductive Answers {A : Type} (env : Env) (P : A -> Prop) (T : Thrown -> Prop)
    : Async A -> Prop :=
| Answers_Ret a : P a -> Answers env P T (Ret a)
| Answers_Throw e : T e -> Answers env P T (Throw e)
| Answers_CacheGet key k :
    (forall v, Answers env P T (k v)) -> Answers env P T (CacheGet key k)
| Answers_CacheSet key v k : Answers env P T k -> Answers env P T (CacheSet key v k)
| Answers_DateNow k : (forall t, Answers env P T (k t)) -> Answers env P T (DateNow k)
| Answers_Await r k : Answers env P T (k (respond env r)) -> Answers env P T (Await r k)
| Answers_Sleep ms k : Answers env P T k -> Answers env P T (Sleep ms k).

(** The same for a promise. *)
Definition taskAnswers {A : Type} (env : Env) (P : A -> Prop) (T : Thrown -> Prop)
    (t : Task A) : Prop :=
  match t with
  | Done (Fulfilled a) => P a
  | Done (Rejected e) => T e
  | Pending r k => Answers env P T (k (respond env r))
  | Sleeping ms k => Answers env P T k
  end.

(** The request fails. *)
Definition rejects (env : Env) (r : Request) : Prop :=
  match respond env r with
  | Rejected _ => True
  | Fulfilled _ => False
  end.

(** The cache holds no entry for any of the seven providers of an
    analysis of [address] at [coordinates]. *)
Definition uncached (env : Env) (address : string) (coordinates : Coordinates)
    (w : World) : Prop :=
  absent ("details_" +:+ address) w
  /\ absent ("planning_" +:+ address) w
  /\ absent ("comparables_" +:+ extractPostcode env address) w
  /\ absent ("market_" +:+ extractPostcode env address) w
  /\ absent ("transport_" +:+ coordsKey env coordinates) w
  /\ absent ("amenities_" +:+ coordsKey env coordinates) w
  /\ absent ("restrictions_" +:+ coordsKey env coordinates) w.

(** What the sources say, written as functions of their answers: the
    district postcodes.io names for the postcode of the address, ... *)
Definition localAuthorityOf (env : Env) (address : string) : string :=
  match respond env (GetPostcode (extractPostcode env address)) with
  | Fulfilled (Some result) =>
      match admin_district result with
      | Some district => if String.eqb district "" then "Unknown"%string else district
      | None => "Unknown"%string
      end
  | Fulfilled None => "Unknown"%string
  | Rejected _ => "Unknown"%string
  end.

(** ... the estimate for the postcode area of the address, ... *)
Definition estimatedDetails (env : Env) (address : string) : PropertyDetails.t :=
  {| PropertyDetails.currentValue :=
       match lookup (String.substring 0 2 (extractPostcode env address)) areaEstimates with
       | Some value => value
       | None => 400000
       end;
     PropertyDetails.propertyType := "Terraced";
     PropertyDetails.bedrooms := 3;
     PropertyDetails.bathrooms := 1;
     PropertyDetails.tenure := "Freehold";
     PropertyDetails.useClass := "C3";
     PropertyDetails.localAuthority := localAuthorityOf env address |}.

(** ... the first card of Rightmove when there is one with a price other
    than 0, and the estimate otherwise, ... *)
Definition fetchedDetails (env : Env) (address : string) : PropertyDetails.t :=
  match respond env (GetRightmove address) with
  | Fulfilled (Some card) =>
      if priceValue card =? 0 then estimatedDetails env address
      else
        {| PropertyDetails.currentValue := priceValue card;
           PropertyDetails.propertyType :=
             if String.eqb (propertyInformation card) "" then "Unknown"%string
             else propertyInformation card;
           PropertyDetails.bedrooms := cardBedrooms card;
           PropertyDetails.bathrooms := 1;
           PropertyDetails.tenure := "Freehold";
           PropertyDetails.useClass := "C3";
           PropertyDetails.localAuthority := localAuthorityOf env address |}
  | Fulfilled None => estimatedDetails env address
  | Rejected _ => estimatedDetails env address
  end.

(** ... the recent sales among the first ten lines of the Land Registry,
    rated at the time they are read, and no sale when the request fails,
    ... *)
Definition fetchedComparables (env : Env) (coordinates : Coordinates)
    (postcode : string) (now1 now2 : Z) : list Comparable.t :=
  match respond env (GetLandRegistry postcode) with
  | Fulfilled response =>
      map (enhanceComparable env now2 coordinates)
        (flat_map (landRegistryComparable env now1) (firstn 10 response))
  | Rejected _ => []
  end.

(** ... the first five transit stations, and none without an API key or
    when the request fails, ... *)
Definition fetchedTransportLinks (env : Env) (coordinates : Coordinates)
    : list TransportLink.t :=
  match googlePlacesKey env with
  | Some apiKey =>
      match respond env (GetPlaces coordinates "transit_station" apiKey) with
      | Fulfilled response => map (transportLinkOf env coordinates) (firstn 5 response)
      | Rejected _ => []
      end
  | None => []
  end.

(** ... and the first three places of each amenity type whose request is
    answered. *)
Definition fetchedAmenities (env : Env) (coordinates : Coordinates) : list Amenity.t :=
  match googlePlacesKey env with
  | Some apiKey => flat_map (amenitiesOfType env coordinates apiKey) amenityTypes
  | None => []
  end.

(** The seven outcomes of an analysis that finds nothing in the cache. *)
Definition fetchedOutcomes (env : Env) (address : string) (coordinates : Coordinates)
    (now1 now2 : Z) : Outcomes :=
  {| propertyDetails := Fulfilled (fetchedDetails env address);
     planningHistory := Fulfilled mockPlanningHistory;
     comparables :=
       Fulfilled (fetchedComparables env coordinates (extractPostcode env address)
                    now1 now2);
     marketData :=
       Fulfilled (generateMarketDataByArea
                    (String.substring 0 2 (extractPostcode env address)));
     transportLinks := Fulfilled (fetchedTransportLinks env coordinates);
     amenities := Fulfilled (fetchedAmenities env coordinates);
     restrictions := Fulfilled noRestrictions |}.

(** Rightmove, the Land Registry and the Places API all fail. *)
Definition sourcesDown (env : Env) (address : string) (coordinates : Coordinates)
    : Prop :=
  rejects env (GetRightmove address)
  /\ rejects env (GetLandRegistry (extractPostcode env address))
  /\ forall placeType apiKey, rejects env (GetPlaces coordinates placeType apiKey).

End AnalyzerVocabulary.

(* ===================================================================== *)
(** * Part III: the properties *)
(* ===================================================================== *)

(** ** The admission controller *)

Section RateLimiterProperties.

Import RateLimiter.

Implicit Types (cfg : RateLimitConfig) (st : Requests) (rs : list RequestRecord).

Lemma filter_all_length {A : Type} (f : A -> bool) (l : list A) :
  length (List.filter f l) = length l -> List.filter f l = l.
Proof.
  induction l as [|x l IH]; simpl; [done|].
  destruct (f x); simpl; intros Hlen.
  - f_equal. apply IH. lia.
  - pose proof (List.filter_length_le f l). lia.
Qed.

Lemma filter_all_Forall {A : Type} (f : A -> bool) (l : list A) :
  Forall (fun x => f x = true) l -> List.filter f l = l.
Proof.
  induction 1 as [|x l Hx _ IH]; simpl; [done|]. by rewrite Hx, IH.
Qed.

Lemma filter_twice {A : Type} (f : A -> bool) (l : list A) :
  List.filter f (List.filter f l) = List.filter f l.
Proof.
  induction l as [|x l IH]; [done|]. simpl.
  destruct (f x) eqn:E; simpl; rewrite ?E; by rewrite IH.
Qed.

(** The array [getValidRequests] returns. *)
Lemma getValidRequests_result cfg key now st :
  fst (getValidRequests cfg key now st) = List.filter (inWindow cfg now) (stored key st).
Proof. reflexivity. Qed.

(** After [getValidRequests] the key holds exactly the returned array. *)
Lemma getValidRequests_stored cfg key now st :
  stored key (snd (getValidRequests cfg key now st))
  = List.filter (inWindow cfg now) (stored key st).
Proof.
  unfold getValidRequests; simpl.
  destruct (Nat.eqb_spec (length (List.filter (inWindow cfg now) (stored key st)))
                         (length (stored key st))) as [He|Hne]; simpl.
  - symmetry. by apply filter_all_length.
  - destruct (Nat.eqb_spec (length (List.filter (inWindow cfg now) (stored key st))) 0)
      as [H0|H0].
    + unfold stored at 1. rewrite lookup_delete_eq. simpl.
      symmetry. by apply length_zero_iff_nil.
    + unfold stored at 1. by rewrite lookup_insert_eq.
Qed.

(** Pruning one key leaves every other key alone. *)
Lemma getValidRequests_other cfg key key' now st :
  key <> key' ->
  stored key' (snd (getValidRequests cfg key now st)) = stored key' st.
Proof.
  intros Hne. unfold getValidRequests; simpl.
  destruct (negb _); [|done].
  destruct (_ =? _)%nat; unfold stored.
  - by rewrite lookup_delete_ne.
  - by rewrite lookup_insert_ne.
Qed.

(** The specification's active records are the ones the code's filter
    keeps. *)
Lemma activeRecords_filter cfg now rs :
  activeRecords cfg now rs = List.filter (inWindow cfg now) rs.
Proof.
  unfold activeRecords, inWindow.
  induction rs as [|r rs IH]; [done|].
  rewrite filter_cons. simpl. rewrite IH.
  destruct (decide _) as [H|H], (Z.ltb_spec (now - timestamp r) (windowMs cfg)); done || lia.
Qed.

Lemma canMakeRequest_result cfg now identifier st :
  fst (canMakeRequest cfg now identifier st)
  = (Z.of_nat (length (List.filter (inWindow cfg now)
                         (stored (keyGenerator cfg identifier) st))) <? maxRequests cfg).
Proof. reflexivity. Qed.

Lemma canMakeRequest_stored cfg now identifier st :
  stored (keyGenerator cfg identifier) (snd (canMakeRequest cfg now identifier st))
  = List.filter (inWindow cfg now) (stored (keyGenerator cfg identifier) st).
Proof. apply getValidRequests_stored. Qed.

(** [recordRequest], read off in one equation. *)
Lemma recordRequest_unfold cfg now now' identifier success st :
  recordRequest cfg now now' identifier success st =
  let key := keyGenerator cfg identifier in
  let allowed := fst (canMakeRequest cfg now' identifier st) in
  let st1 := snd (canMakeRequest cfg now' identifier st) in
  if allowed && negb (skipped cfg success)
  then (true, <[key := stored key st1 ++ [ {| timestamp := now; success := success |} ] ]> st1)
  else (allowed, st1).
Proof.
  unfold recordRequest, skipped.
  destruct (canMakeRequest cfg now' identifier st) as [allowed st1]; simpl.
  destruct allowed, success, (skipSuccessfulRequests cfg), (skipFailedRequests cfg); reflexivity.
Qed.

(** An accepted, recorded request: every stored record is still in the
    window at the check and there is room. *)
Lemma recordRequest_accepted cfg now now' identifier success st :
  skipped cfg success = false ->
  Forall (fun r => inWindow cfg now' r = true) (stored (keyGenerator cfg identifier) st) ->
  Z.of_nat (length (stored (keyGenerator cfg identifier) st)) < maxRequests cfg ->
  fst (recordRequest cfg now now' identifier success st) = true /\
  stored (keyGenerator cfg identifier) (snd (recordRequest cfg now now' identifier success st))
  = stored (keyGenerator cfg identifier) st ++ [ {| timestamp := now; success := success |} ].
Proof.
  intros Hskip Hall Hroom. rewrite recordRequest_unfold; cbv zeta.
  rewrite canMakeRequest_result, (filter_all_Forall _ _ Hall), Hskip.
  rewrite (proj2 (Z.ltb_lt _ _) Hroom). cbn [andb negb fst snd].
  split; [done|]. unfold stored at 1. rewrite lookup_insert_eq.
  change (default [] (Some ?x)) with x.
  by rewrite canMakeRequest_stored, (filter_all_Forall _ _ Hall).
Qed.

(** A rejected request: the window is full at the check. *)
Lemma recordRequest_rejected cfg now now' identifier success st :
  Forall (fun r => inWindow cfg now' r = true) (stored (keyGenerator cfg identifier) st) ->
  maxRequests cfg <= Z.of_nat (length (stored (keyGenerator cfg identifier) st)) ->
  fst (recordRequest cfg now now' identifier success st) = false /\
  stored (keyGenerator cfg identifier) (snd (recordRequest cfg now now' identifier success st))
  = stored (keyGenerator cfg identifier) st.
Proof.
  intros Hall Hfull. rewrite recordRequest_unfold; cbv zeta.
  rewrite canMakeRequest_result, (filter_all_Forall _ _ Hall).
  rewrite (proj2 (Z.ltb_ge _ _) Hfull). cbn [andb negb fst snd].
  split; [done|]. by rewrite canMakeRequest_stored, (filter_all_Forall _ _ Hall).
Qed.

Lemma recordRequests_app cfg identifier success clock1 clock2 st :
  recordRequests cfg identifier success (clock1 ++ clock2) st =
  let '(bs1, st1) := recordRequests cfg identifier success clock1 st in
  let '(bs2, st2) := recordRequests cfg identifier success clock2 st1 in
  (bs1 ++ bs2, st2).
Proof.
  revert st. induction clock1 as [|[now now'] clock1 IH]; intros st; simpl.
  - by destruct (recordRequests cfg identifier success clock2 st).
  - destruct (recordRequest cfg now now' identifier success st) as [b st1].
    rewrite IH.
    destruct (recordRequests cfg identifier success clock1 st1) as [bs1 st2].
    by destruct (recordRequests cfg identifier success clock2 st2).
Qed.

(** While there is room, consecutive requests inside one window are all
    accepted and all recorded. *)
Lemma recordRequests_fill cfg identifier success t0 clock st :
  skipped cfg success = false ->
  Forall (fun r => t0 <= timestamp r) (stored (keyGenerator cfg identifier) st) ->
  Forall (timedWithin cfg t0) clock ->
  Z.of_nat (length (stored (keyGenerator cfg identifier) st) + length clock)
    <= maxRequests cfg ->
  fst (recordRequests cfg identifier success clock st) = repeat true (length clock) /\
  stored (keyGenerator cfg identifier) (snd (recordRequests cfg identifier success clock st))
  = stored (keyGenerator cfg identifier) st
    ++ map (fun call => {| timestamp := fst call; success := success |}) clock.
Proof.
  intros Hskip. revert st.
  induction clock as [|[now now'] clock IH]; intros st Hold Hclock Hroom; simpl.
  - by rewrite app_nil_r.
  - apply Forall_cons_1 in Hclock as [[Hnow Hnow'] Hclock]. simpl in Hnow, Hnow'.
    destruct (recordRequest_accepted cfg now now' identifier success st Hskip) as [Hb Hst].
    + eapply Forall_impl; [exact Hold|]. intros r Hr. unfold inWindow. simpl in Hr.
      apply Z.ltb_lt. lia.
    + simpl in Hroom. lia.
    + destruct (recordRequest cfg now now' identifier success st) as [b st1].
      simpl in Hb, Hst. subst b.
      destruct (IH st1) as [Hbs Hst2].
      * rewrite Hst. apply Forall_app; split; [done|]. by repeat constructor.
      * done.
      * rewrite Hst, length_app. simpl in *. lia.
      * destruct (recordRequests cfg identifier success clock st1) as [bs st2].
        simpl in *. rewrite Hbs, Hst2, Hst, <- app_assoc. done.
Qed.

Lemma stored_empty key : stored key empty = [].
Proof. unfold stored, empty. by rewrite lookup_empty. Qed.

(** The general rule: [canMakeRequest] answers true exactly when the
    identifier has fewer than [maxRequests] records whose age is strictly
    less than the window. *)
Lemma canMakeRequest_iff cfg now identifier st :
  fst (canMakeRequest cfg now identifier st) = true <->
  Z.of_nat (length (activeRecords cfg now (stored (keyGenerator cfg identifier) st)))
    < maxRequests cfg.
Proof. rewrite canMakeRequest_result, activeRecords_filter. apply Z.ltb_lt. Qed.

(** C7 (as stated, refuted). [canMakeRequest] only looks: on a fresh
    limiter with the default quota of 60 per 60 s, 61 consecutive calls
    for one identifier all answer true, the 61st included. *)
Lemma canMakeRequest_61_calls_all_admitted :
  fst (canMakeRequestTimes (defaultConfig 60 60000) 0 "default" 61 empty) = repeat true 61
  /\ nth 60 (fst (canMakeRequestTimes (defaultConfig 60 60000) 0 "default" 61 empty)) false
     = true.
Proof. split; vm_compute; reflexivity. Qed.

(** C7 (amended). With [maxRequests = 60] and a window of 60 s, of 61
    consecutive [recordRequest] calls for one identifier that fall inside
    one window exactly the first 60 are accepted and the 61st is refused;
    [canMakeRequest] then answers false as long as the first record is
    younger than the window, and true again once that record is 60 s old;
    in general [canMakeRequest] answers true iff fewer than [maxRequests]
    records of the identifier have an age strictly below the window. *)
Theorem sliding_window_admission (identifier : string) (success : bool)
    (first : Z * Z) (rest : list (Z * Z)) :
  length rest = 60%nat ->
  Forall (timedWithin (defaultConfig 60 60000) (fst first)) (first :: rest) ->
  let cfg := defaultConfig 60 60000 in
  let run := recordRequests cfg identifier success (first :: rest) empty in
  fst run = repeat true 60 ++ [false]
  /\ (forall now, now - fst first < 60000 -> fst (canMakeRequest cfg now identifier (snd run)) = false)
  /\ (forall now, 60000 <= now - fst first -> fst (canMakeRequest cfg now identifier (snd run)) = true)
  /\ (forall cfg' now identifier' st,
        fst (canMakeRequest cfg' now identifier' st) = true <->
        Z.of_nat (length (activeRecords cfg' now (stored (keyGenerator cfg' identifier') st)))
          < maxRequests cfg').
Proof.
  intros Hlen Hclock cfg run.
  set (mk := fun call : Z * Z => {| timestamp := fst call; success := success |}).
  assert (Hsplit : first :: rest = (first :: firstn 59 rest) ++ skipn 59 rest)
    by (simpl; by rewrite firstn_skipn).
  destruct (skipn 59 rest) as [|last tl] eqn:Hlast.
  { apply (f_equal length) in Hlast. rewrite length_skipn in Hlast. simpl in Hlast. lia. }
  assert (tl = []) as ->.
  { apply (f_equal length) in Hlast. rewrite length_skipn in Hlast. simpl in Hlast.
    destruct tl; [done|simpl in Hlast; lia]. }
  assert (Hfront : length (first :: firstn 59 rest) = 60%nat)
    by (simpl; rewrite length_firstn; lia).
  rewrite Hsplit in Hclock. apply Forall_app in Hclock as [Hfrontc Hlastc].
  apply Forall_cons_1 in Hlastc as [[Hl1 Hl2] _].
  destruct (recordRequests_fill cfg identifier success (fst first)
              (first :: firstn 59 rest) empty) as [Hbs Hst].
  { by destruct success. }
  { rewrite stored_empty. constructor. }
  { exact Hfrontc. }
  { rewrite stored_empty, Hfront. simpl. lia. }
  rewrite Hfront in Hbs. rewrite stored_empty, app_nil_l in Hst. fold mk in Hst.
  assert (Hstamps : Forall (fun r => fst first <= timestamp r)
                      (map mk (first :: firstn 59 rest))).
  { apply Forall_map. eapply Forall_impl; [exact Hfrontc|]. by intros call [? _]. }
  assert (Hrun : fst run = repeat true 60 ++ [false] /\
                 stored (keyGenerator cfg identifier) (snd run)
                 = map mk (first :: firstn 59 rest)).
  { unfold run. rewrite Hsplit, recordRequests_app.
    destruct (recordRequests cfg identifier success (first :: firstn 59 rest) empty)
      as [bs st1]. cbn [fst snd] in Hbs, Hst. destruct last as [lnow lnow'].
    cbn [recordRequests].
    destruct (recordRequest_rejected cfg lnow lnow' identifier success st1) as [Hb Hs].
    - rewrite Hst. eapply Forall_impl; [exact Hstamps|]. intros r Hr. cbn beta in Hr.
      unfold inWindow. apply Z.ltb_lt. simpl in *. lia.
    - rewrite Hst, length_map, Hfront. simpl. lia.
    - destruct (recordRequest cfg lnow lnow' identifier success st1) as [b st2].
      cbn [fst snd] in Hb, Hs |- *. subst b bs. split; [done|].
      by rewrite Hs, Hst. }
  destruct Hrun as [Hres Hfinal].
  split; [exact Hres|]. split; [|split].
  - intros now Hnow. rewrite canMakeRequest_result, Hfinal.
    rewrite filter_all_Forall.
    + rewrite length_map, Hfront. reflexivity.
    + eapply Forall_impl; [exact Hstamps|]. intros r Hr. simpl in Hr.
      unfold inWindow. apply Z.ltb_lt. simpl. lia.
  - intros now Hnow. rewrite canMakeRequest_result, Hfinal.
    apply Z.ltb_lt. cbn [map List.filter].
    replace (inWindow cfg now (mk first)) with false
      by (symmetry; unfold inWindow; apply Z.ltb_ge; simpl; lia).
    pose proof (List.filter_length_le (inWindow cfg now) (map mk (firstn 59 rest))) as Hle.
    rewrite length_map, length_firstn in Hle. simpl. lia.
  - intros cfg' now identifier' st. apply canMakeRequest_iff.
Qed.

Lemma sliding_window_admission_witness :
  fst (recordRequests (defaultConfig 60 60000) "default" true halfSecondClock empty)
  = repeat true 60 ++ [false].
Proof.
  refine (proj1 (sliding_window_admission "default" true (0, 0) (tl halfSecondClock) _ _)).
  - reflexivity.
  - apply Forall_forall. intros call Hin.
    change ((0, 0) :: tl halfSecondClock) with halfSecondClock in Hin.
    unfold halfSecondClock in Hin. apply list_elem_of_In, in_map_iff in Hin as [i [<- Hi]].
    apply in_seq in Hi. unfold timedWithin. simpl. lia.
Defined.

(** [Math.min] returns one of its arguments. *)
Lemma mathMin_In (x : Z) (xs : list Z) : In (mathMin x xs) (x :: xs).
Proof.
  unfold mathMin. revert x. induction xs as [|y xs IH]; intros x; simpl; [by left|].
  destruct (IH (Z.min x y)) as [H|H]; [|by right; right].
  rewrite <- H. destruct (Z.min_spec x y) as [[_ ->]|[_ ->]]; [by left|by right; left].
Qed.

(** On a store that holds no stale record for the identifier,
    [getResetTime] is the specification's [resetIn]. *)
Lemma getResetTime_pruned cfg now identifier st :
  Forall (fun r => inWindow cfg now r = true) (stored (keyGenerator cfg identifier) st) ->
  getResetTime cfg now identifier st = resetInSpec cfg now identifier st.
Proof.
  intros Hall. unfold getResetTime, resetInSpec.
  rewrite activeRecords_filter, (filter_all_Forall _ _ Hall).
  destruct (stored (keyGenerator cfg identifier) st) as [|r rs]; [done|].
  cbv zeta. apply Z.max_r.
  pose proof (mathMin_In (timestamp r) (map timestamp rs)) as Hin.
  change (timestamp r :: map timestamp rs) with (map timestamp (r :: rs)) in Hin.
  apply in_map_iff in Hin as [r' [Hr' Hin]].
  rewrite Forall_forall in Hall. apply list_elem_of_In, Hall in Hin.
  unfold inWindow in Hin. apply Z.ltb_lt in Hin. lia.
Qed.

(** The sibling path: [getStatus] prunes (through [getRemainingRequests])
    before it asks for the reset time, so when both clock reads coincide
    its [resetTimeMs] is the specification's [resetIn]. *)
Lemma getStatus_resetTimeMs cfg now identifier st :
  resetTimeMs (fst (getStatus cfg now now identifier st)) = resetInSpec cfg now identifier st.
Proof.
  unfold getStatus, getRemainingRequests.
  pose proof (getValidRequests_stored cfg (keyGenerator cfg identifier) now st) as Hst.
  destruct (getValidRequests cfg (keyGenerator cfg identifier) now st) as [valid st'].
  cbn [fst snd resetTimeMs] in *.
  rewrite getResetTime_pruned.
  - unfold resetInSpec. rewrite Hst, !activeRecords_filter. by rewrite filter_twice.
  - rewrite Hst. apply Forall_forall. intros r Hr.
    apply list_elem_of_In, filter_In in Hr. tauto.
Qed.

(** C8. [getResetTime] reads the stored records without pruning them.
    After requests recorded at times 0 and 50000 (and a sweep at 40000
    that finds nothing to drop), at time 70000 the record of time 0 is
    stale and the record of time 50000 is active and ages out in 40000 ms:
    that is the specification's [resetIn], and the method answers 0. *)
Theorem getResetTime_counts_stale_records :
  stored "default" twoRequests
    = [ {| timestamp := 0; success := true |}; {| timestamp := 50000; success := true |} ]
  /\ activeRecords (defaultConfig 60 60000) 70000 (stored "default" twoRequests)
    = [ {| timestamp := 50000; success := true |} ]
  /\ resetInSpec (defaultConfig 60 60000) 70000 "default" twoRequests = 40000
  /\ getResetTime (defaultConfig 60 60000) 70000 "default" twoRequests = 0.
Proof. repeat split; vm_compute; reflexivity. Qed.

(** C10 (as stated, refuted). With [skipSuccessfulRequests] set, a
    successful request on a fresh limiter is answered true and nothing is
    appended. *)
Lemma recordRequest_accepts_without_record :
  let cfg := {| windowMs := 60000; maxRequests := 60; keyGenerator := fun id => id;
                skipSuccessfulRequests := true; skipFailedRequests := false |} in
  fst (recordRequest cfg 0 0 "default" true empty) = true
  /\ stored "default" (snd (recordRequest cfg 0 0 "default" true empty)) = [].
Proof. split; vm_compute; reflexivity. Qed.

(** C10 (amended). [recordRequest] checks admission again, at its own
    clock read: its result is the answer of [canMakeRequest] at that
    moment, that is, whether fewer than [maxRequests] records are active.
    The identifier then holds its active records, followed by the new
    record exactly when the request was admitted and the configuration
    does not skip its outcome; no other identifier changes. So a refused
    request appends nothing, and an admitted one is answered true whether
    or not it is recorded. *)
Theorem recordRequest_revalidates cfg now now' identifier success st :
  let key := keyGenerator cfg identifier in
  let active := activeRecords cfg now' (stored key st) in
  let admitted := bool_decide (Z.of_nat (length active) < maxRequests cfg) in
  let result := recordRequest cfg now now' identifier success st in
  fst result = fst (canMakeRequest cfg now' identifier st)
  /\ fst result = admitted
  /\ stored key (snd result)
     = active ++ (if admitted && negb (skipped cfg success)
                  then [ {| timestamp := now; success := success |} ] else [])
  /\ (forall key', key <> key' -> stored key' (snd result) = stored key' st).
Proof.
  intros key active admitted result.
  assert (Hadm : fst (canMakeRequest cfg now' identifier st) = admitted).
  { unfold admitted, active, key. rewrite canMakeRequest_result, activeRecords_filter.
    destruct (Z.ltb_spec (Z.of_nat (length (List.filter (inWindow cfg now')
                (stored (keyGenerator cfg identifier) st)))) (maxRequests cfg));
      symmetry; [by apply bool_decide_eq_true|by apply bool_decide_eq_false; lia]. }
  assert (Hst : stored key (snd (canMakeRequest cfg now' identifier st)) = active).
  { unfold active. rewrite activeRecords_filter. apply canMakeRequest_stored. }
  assert (Hother : forall key', key <> key' ->
            stored key' (snd (canMakeRequest cfg now' identifier st)) = stored key' st).
  { intros key' Hne. by apply getValidRequests_other. }
  unfold result. rewrite recordRequest_unfold. cbv zeta. fold key.
  rewrite Hadm.
  destruct (admitted && negb (skipped cfg success)) eqn:E; cbn [fst snd].
  - apply andb_prop in E as [E1 E2]. rewrite E1 in *.
    repeat split; try done.
    + unfold stored at 1. rewrite lookup_insert_eq.
      change (default [] (Some ?x)) with x. by rewrite Hst.
    + intros key' Hne. unfold stored at 1. rewrite lookup_insert_ne by done.
      by apply Hother.
  - repeat split; try done. by rewrite Hst, app_nil_r.
Qed.

End RateLimiterProperties.

(** ** The cache *)

Section CacheProperties.

Import CacheService.

Context {V : Type}.

Implicit Types (s : Store V) (e : CacheEntry V) (p q : string * CacheEntry V).

(** *** The [Map] primitives *)

Lemma mapGet_mapSet_eq key e s : mapGet key (mapSet key e s) = Some e.
Proof.
  induction s as [|[k e'] s IH]; simpl.
  - by rewrite String.eqb_refl.
  - destruct (String.eqb k key) eqn:E; simpl; rewrite E; [done|exact IH].
Qed.

Lemma mapGet_mapSet_ne key key' e s :
  key <> key' -> mapGet key' (mapSet key e s) = mapGet key' s.
Proof.
  intros Hne. induction s as [|[k e'] s IH]; simpl.
  - destruct (String.eqb_spec key key'); [done|done].
  - destruct (String.eqb_spec k key) as [->|Hk]; simpl.
    + destruct (String.eqb_spec key key'); [done|done].
    + destruct (String.eqb_spec k key'); [done|exact IH].
Qed.

Lemma mapGet_mapDelete_eq key s : mapGet key (mapDelete key s) = None.
Proof.
  unfold mapDelete. induction s as [|[k e] s IH]; simpl; [done|].
  destruct (String.eqb k key) eqn:E; simpl; [exact IH|]. by rewrite E.
Qed.

Lemma mapGet_In key e s : mapGet key s = Some e -> In (key, e) s.
Proof.
  induction s as [|[k e'] s IH]; simpl; [done|].
  destruct (String.eqb_spec k key) as [->|Hk]; [|by right; apply IH].
  intros [= ->]. by left.
Qed.

Lemma mapGet_None key s : mapGet key s = None -> ~ In key (map fst s).
Proof.
  induction s as [|[k e'] s IH]; simpl; [tauto|].
  destruct (String.eqb_spec k key) as [->|Hk]; [done|].
  intros H [?|?]; [done|by apply IH].
Qed.

Lemma length_mapDelete_le key s : (length (mapDelete key s) <= length s)%nat.
Proof. apply List.filter_length_le. Qed.

Lemma keys_mapSet key e s :
  map fst (mapSet key e s)
  = if mapHas key s then map fst s else map fst s ++ [key].
Proof.
  unfold mapHas. induction s as [|[k e'] s IH]; simpl; [done|].
  destruct (String.eqb_spec k key) as [->|Hk]; simpl; [done|].
  rewrite IH. by destruct (mapGet key s).
Qed.

Lemma length_mapSet key e s :
  length (mapSet key e s) = if mapHas key s then length s else S (length s).
Proof.
  rewrite <- (length_map fst), keys_mapSet.
  destruct (mapHas key s); rewrite ?length_app, !length_map; simpl; lia.
Qed.

Lemma distinctKeys_mapSet key e s : distinctKeys s -> distinctKeys (mapSet key e s).
Proof.
  unfold distinctKeys. rewrite keys_mapSet. unfold mapHas.
  destruct (mapGet key s) eqn:E; [done|].
  intros Hs. apply NoDup_app. repeat split; [done| |apply NoDup_singleton].
  intros k Hk Hin. apply list_elem_of_In in Hk.
  apply list_elem_of_In in Hin as [<-|[]]. by apply (mapGet_None key s).
Qed.

Lemma distinctKeys_filter (f : string * CacheEntry V -> bool) s :
  distinctKeys s -> distinctKeys (List.filter f s).
Proof.
  unfold distinctKeys. induction s as [|p s IH]; simpl; [done|].
  intros Hs. apply NoDup_cons in Hs as [Hp Hs].
  destruct (f p); simpl; [|by apply IH].
  apply NoDup_cons. split; [|by apply IH].
  intros Hin. apply Hp. apply list_elem_of_In, in_map_iff in Hin as [q [Hq Hin]].
  apply list_elem_of_In, in_map_iff. exists q. split; [done|].
  apply filter_In in Hin. tauto.
Qed.

(** *** Expiry *)

(** The entry [set] stores. *)
Lemma mapGet_set cfg key (v : V) ttlMinutes now s :
  mapGet key (set cfg key v ttlMinutes now s)
  = Some {| data := v; timestamp := now; ttl := ttlOf cfg ttlMinutes;
            accessCount := 0; lastAccessed := now |}.
Proof. unfold set. apply mapGet_mapSet_eq. Qed.

(** C5 (as stated, refuted). An explicit per-call TTL of 0 minutes is
    falsy on line 32: the entry gets the default TTL of 30 minutes, and one
    minute later it is still served. *)
Lemma set_with_zero_ttl_uses_default :
  let cfg := mkConfig 30 1000 in
  let s1 := set cfg "key" "value"%string (Some 0) 0 [] in
  option_map ttl (mapGet "key" s1) = Some 1800000
  /\ fst (get "key" 60000 s1) = Some "value"%string
  /\ fst (has "key" 60000 s1) = true.
Proof. repeat split; vm_compute; reflexivity. Qed.

(** C5 (amended). After [set(key, value, ttl)] the entry lives for
    [ttlOf]: the per-call TTL in milliseconds when one is given and is not
    0, the configured default otherwise (also for an explicit 0). While
    the age of the entry is at most that TTL, so immediately after [set]
    when the TTL is not negative, [get] returns the value and [has]
    answers true; once the age exceeds it, [get] returns absent, [has]
    answers false, and either call removes the entry from the store. *)
Theorem set_get_ttl cfg key (v : V) ttlMinutes now s :
  let s1 := set cfg key v ttlMinutes now s in
  let T := ttlOf cfg ttlMinutes in
  (forall later, later - now <= T ->
     fst (get key later s1) = Some v /\ fst (has key later s1) = true)
  /\ (0 <= T -> fst (get key now s1) = Some v)
  /\ (forall later, T < later - now ->
        fst (get key later s1) = None /\ fst (has key later s1) = false
        /\ mapHas key (snd (get key later s1)) = false
        /\ mapHas key (snd (has key later s1)) = false)
  /\ (forall m, m <> 0 -> ttlMinutes = Some m -> T = m * 60 * 1000)
  /\ (ttlMinutes = None \/ ttlMinutes = Some 0 -> T = defaultTTL cfg).
Proof.
  intros s1 T.
  assert (Hfresh : forall later, later - now <= T ->
            fst (get key later s1) = Some v /\ fst (has key later s1) = true).
  { intros later Hage. unfold get, has, s1. rewrite mapGet_set.
    unfold expired; cbn [timestamp ttl data]. fold T.
    destruct (Z.gtb_spec (later - now) T); [lia|done]. }
  split; [exact Hfresh|]. split; [|split; [|split]].
  - intros HT. apply Hfresh. lia.
  - intros later Hage. unfold get, has, s1. rewrite mapGet_set.
    unfold expired; cbn [timestamp ttl data]. fold T.
    destruct (Z.gtb_spec (later - now) T); [|lia]. cbn [fst snd].
    unfold mapHas. by rewrite mapGet_mapDelete_eq.
  - intros m Hm ->. unfold T, ttlOf. by destruct (Z.eqb_spec m 0).
  - intros [->| ->]; reflexivity.
Qed.

(** *** The eviction order *)



Lemma insertSorted_perm p (l : list (string * CacheEntry V)) :
  Permutation (insertSorted p l) (p :: l).
Proof.
  induction l as [|q l IH]; simpl; [done|].
  destruct (rankLe p q); [done|].
  rewrite IH. apply perm_swap.
Qed.

Lemma sortEntries_perm (l : list (string * CacheEntry V)) :
  Permutation (sortEntries l) l.
Proof.
  induction l as [|p l IH]; simpl; [done|].
  rewrite insertSorted_perm. by constructor.
Qed.




(** *** [evictOldest] *)

Lemma filter_true {A : Type} (l : list A) : List.filter (fun _ => true) l = l.
Proof. induction l as [|x l IH]; simpl; by rewrite ?IH. Qed.

Lemma filter_filter {A : Type} (f g : A -> bool) (l : list A) :
  List.filter f (List.filter g l) = List.filter (fun x => g x && f x) l.
Proof.
  induction l as [|x l IH]; simpl; [done|].
  destruct (g x); simpl; [destruct (f x)|]; by rewrite IH.
Qed.

Lemma fold_mapDelete (ps : list (string * CacheEntry V)) s :
  fold_left (fun acc p => mapDelete (fst p) acc) ps s
  = List.filter (fun q => negb (existsb (fun p => String.eqb (fst q) (fst p)) ps)) s.
Proof.
  revert s. induction ps as [|p ps IH]; intros s; simpl.
  - by rewrite filter_true.
  - rewrite IH. unfold mapDelete. rewrite filter_filter.
    apply List.filter_ext. intros q. by rewrite negb_orb.
Qed.

(** The loop of [evictOldest] keeps exactly the entries whose key is not
    the key of a picked entry. *)
Lemma evictOldest_filter cfg s :
  evictOldest cfg s = List.filter (fun q => negb (hasVictimKey cfg s q)) s.
Proof. unfold evictOldest. apply fold_mapDelete. Qed.


Lemma victims_In cfg s p : In p (victims cfg s) -> In p s.
Proof.
  unfold victims. intros H.
  eapply Permutation_in; [apply sortEntries_perm|].
  rewrite <- (firstn_skipn (Z.to_nat (toRemove cfg)) (sortEntries s)).
  apply in_or_app. by left.
Qed.

Lemma distinctKeys_inj s p q :
  distinctKeys s -> In p s -> In q s -> fst p = fst q -> p = q.
Proof.
  unfold distinctKeys. induction s as [|a s IH]; simpl; [done|].
  intros Hs. apply NoDup_cons in Hs as [Ha Hs].
  intros [->|Hp] [->|Hq] Hk; try done.
  - exfalso. apply Ha. rewrite Hk. apply list_elem_of_In, in_map, Hq.
  - exfalso. apply Ha. rewrite <- Hk. apply list_elem_of_In, in_map, Hp.
  - by apply IH.
Qed.

(** With distinct keys, carrying the key of a picked entry means being
    that entry. *)
Lemma hasVictimKey_In cfg s q :
  distinctKeys s -> In q s -> hasVictimKey cfg s q = true -> In q (victims cfg s).
Proof.
  intros Hs Hq Hv. unfold hasVictimKey in Hv.
  apply existsb_exists in Hv as [p [Hp Hk]]. apply String.eqb_eq in Hk.
  assert (p = q) as <-; [|done].
  symmetry in Hk. eapply distinctKeys_inj; eauto using victims_In.
Qed.

Lemma In_hasVictimKey cfg s q : In q (victims cfg s) -> hasVictimKey cfg s q = true.
Proof.
  intros Hq. unfold hasVictimKey. apply existsb_exists. exists q.
  split; [done|apply String.eqb_refl].
Qed.

Lemma NoDup_list_filter {A : Type} (f : A -> bool) (l : list A) :
  NoDup l -> NoDup (List.filter f l).
Proof.
  induction 1 as [|x l Hx Hl IH]; simpl; [constructor|].
  destruct (f x); [|done]. constructor; [|done].
  intros Hin. apply Hx. apply list_elem_of_In, filter_In in Hin as [Hin _].
  by apply list_elem_of_In.
Qed.

Lemma filter_length_lt {A : Type} (f : A -> bool) (l : list A) (x : A) :
  In x l -> f x = false -> (length (List.filter f l) < length l)%nat.
Proof.
  induction l as [|y l IH]; simpl; [done|].
  intros [->|Hin] Hx.
  - rewrite Hx. pose proof (List.filter_length_le f l). lia.
  - specialize (IH Hin Hx). destruct (f y); simpl; lia.
Qed.





(** *** The capacity invariant *)

Lemma mapGet_mapHas key e s : mapGet key s = Some e -> mapHas key s = true.
Proof. unfold mapHas. by intros ->. Qed.








End CacheProperties.

Example smallCacheRun_keys :
  map fst (CacheService.run (CacheService.mkConfig 30 2) smallCacheRun)
  = ["a"; "c"]%string.
Proof. reflexivity. Qed.


(** ** The quality scorer *)

Section ScorerProperties.

Import PropertyAnalyzer.

Lemma ratingEqb_eq (a b : Rating) : ratingEqb a b = true <-> a = b.
Proof. destruct a, b; simpl; split; congruence. Qed.

Lemma ratedHigh_filter (comparables : list Comparable.t) :
  length (List.filter (fun c => ratingEqb (Comparable.rating c) High) comparables)
  = ratedHigh comparables.
Proof.
  unfold ratedHigh. induction comparables as [|c l IH]; [done|].
  rewrite filter_cons. simpl.
  destruct (decide (Comparable.rating c = High)) as [H|H].
  - rewrite (proj2 (ratingEqb_eq _ _) H). simpl. by rewrite IH.
  - destruct (ratingEqb (Comparable.rating c) High) eqn:E; [|exact IH].
    by apply ratingEqb_eq in E.
Qed.

Lemma assessDataQuality_comparables c m p :
  DataQuality.comparablesQuality (assessDataQuality c m p) = comparablesRating c.
Proof.
  unfold assessDataQuality, comparablesRating; cbn [DataQuality.comparablesQuality].
  rewrite ratedHigh_filter.
  destruct (Nat.leb_spec 5 (length c)), (Nat.leb_spec 2 (ratedHigh c)),
           (Nat.leb_spec 3 (length c)); simpl; repeat case_decide; done || lia.
Qed.

Lemma assessDataQuality_market c m p :
  DataQuality.marketDataQuality (assessDataQuality c m p) = marketRating m.
Proof.
  unfold assessDataQuality, marketRating; cbn [DataQuality.marketDataQuality].
  destruct (Z.geb_spec (MarketData.sampleSize m) 20),
           (Z.geb_spec (MarketData.sampleSize m) 10); repeat case_decide; done || lia.
Qed.

Lemma assessDataQuality_planning c m p :
  DataQuality.planningDataQuality (assessDataQuality c m p) = planningRating p.
Proof. by destruct p. Qed.

(** The score is a function of the three ratings alone. *)
Lemma assessDataQuality_score c m p :
  DataQuality.overallScore (assessDataQuality c m p)
  = rubricScore (comparablesRating c) (marketRating m) (planningRating p).
Proof.
  rewrite <- (assessDataQuality_comparables c m p), <- (assessDataQuality_market c m p),
          <- (assessDataQuality_planning c m p).
  unfold assessDataQuality.
  cbn [DataQuality.overallScore DataQuality.comparablesQuality
       DataQuality.marketDataQuality DataQuality.planningDataQuality].
  destruct (if (5 <=? length c)%nat && _ then High else _),
           (if MarketData.sampleSize m >=? 20 then High else _),
           (if (0 <? length p)%nat then Medium else Low); reflexivity.
Qed.

(** The seven values of the score. *)
Lemma rubricScore_values (a b c : Rating) :
  rubricScore a b c = (200 * (scores a + scores b + scores c) + 9) / 18.
Proof. destruct a, b, c; reflexivity. Qed.

Lemma assessDataQuality_warnings c m p :
  DataQuality.warnings (assessDataQuality c m p)
  = lowWarning (comparablesRating c) "Limited comparable sales data available"
    ++ lowWarning (marketRating m) "Market data based on limited sample size"
    ++ lowWarning (planningRating p) "No planning history data available".
Proof.
  rewrite <- (assessDataQuality_comparables c m p), <- (assessDataQuality_market c m p),
          <- (assessDataQuality_planning c m p).
  unfold assessDataQuality, lowWarning.
  cbn [DataQuality.warnings DataQuality.comparablesQuality
       DataQuality.marketDataQuality DataQuality.planningDataQuality].
  destruct (if (5 <=? length c)%nat && _ then High else _),
           (if MarketData.sampleSize m >=? 20 then High else _),
           (if (0 <? length p)%nat then Medium else Low); reflexivity.
Qed.

(** C9. The scorer is a function of its three inputs that follows the
    rubric: one comparable rated Low, a sample of 5 and no planning
    history rate Low, Low, Low and score 33; five comparables of which two
    are rated High, a sample of 25 and one planning application rate High,
    High, Medium and score 89; in general each component is rated by its
    thresholds and the score is the mean of the three component scores
    (High = 3, Medium = 2, Low = 1), divided by 3, times 100, rounded. *)
Theorem quality_score_follows_rubric :
  (forall c m,
     Comparable.rating c = Low -> MarketData.sampleSize m = 5 ->
     let q := assessDataQuality [c] m [] in
     DataQuality.comparablesQuality q = Low /\ DataQuality.marketDataQuality q = Low
     /\ DataQuality.planningDataQuality q = Low /\ DataQuality.overallScore q = 33)
  /\ (forall comparables m application,
        length comparables = 5%nat -> ratedHigh comparables = 2%nat ->
        MarketData.sampleSize m = 25 ->
        let q := assessDataQuality comparables m [application] in
        DataQuality.comparablesQuality q = High /\ DataQuality.marketDataQuality q = High
        /\ DataQuality.planningDataQuality q = Medium /\ DataQuality.overallScore q = 89)
  /\ (forall comparables m planningHistory,
        let q := assessDataQuality comparables m planningHistory in
        DataQuality.comparablesQuality q = comparablesRating comparables
        /\ DataQuality.marketDataQuality q = marketRating m
        /\ DataQuality.planningDataQuality q = planningRating planningHistory
        /\ DataQuality.overallScore q
           = rubricScore (DataQuality.comparablesQuality q) (DataQuality.marketDataQuality q)
               (DataQuality.planningDataQuality q)
        /\ DataQuality.overallScore q
           = mathRound ((inject_Z (scores (DataQuality.comparablesQuality q))
                         + inject_Z (scores (DataQuality.marketDataQuality q))
                         + inject_Z (scores (DataQuality.planningDataQuality q))) / 3 / 3 * 100)%Q).
Proof.
  split; [|split].
  - intros c m Hc Hm q. unfold q.
    rewrite assessDataQuality_score, assessDataQuality_comparables,
            assessDataQuality_market, assessDataQuality_planning.
    unfold comparablesRating, marketRating. rewrite Hm.
    rewrite !decide_False by (simpl; lia). done.
  - intros comparables m application Hlen Hhigh Hm q. unfold q.
    rewrite assessDataQuality_score, assessDataQuality_comparables,
            assessDataQuality_market, assessDataQuality_planning.
    unfold comparablesRating, marketRating. rewrite Hlen, Hhigh, Hm. done.
  - intros comparables m planningHistory q. unfold q.
    rewrite assessDataQuality_score, assessDataQuality_comparables,
            assessDataQuality_market, assessDataQuality_planning. done.
Qed.

End ScorerProperties.

(** ** The orchestrator *)

Section AnalyzerProperties.

Import PropertyAnalyzer.

(** *** Bodies that cannot throw *)

(** A [try] whose handler returns makes a body that cannot throw. *)
Lemma tryCatch_Total {A : Type} (body : Async A) (handler : Thrown -> Async A) :
  (forall e, Total (handler e)) -> Total (tryCatch body handler).
Proof.
  intros Hh. induction body; simpl; try (constructor; auto); apply Hh.
Qed.

Lemma start_Total env {A : Type} (m : Async A) w :
  Total m -> taskTotal (snd (start env m w)).
Proof.
  intros Hm. revert w. induction Hm as [a|key k _ IH|key v k _ IH|k _ IH|r k Hk _|ms k Hk _];
    intros w; simpl; auto.
  destruct (CacheService.get key (clock w) (cache w)) as [v c]. apply IH.
Qed.

Lemma complete_Total env {A : Type} (m : Async A) w :
  Total m -> exists a, snd (complete env m w) = Fulfilled a.
Proof.
  intros Hm. revert w. induction Hm as [a|key k _ IH|key v k _ IH|k _ IH|r k _ IH|ms k _ IH];
    intros w; simpl; eauto.
  destruct (CacheService.get key (clock w) (cache w)) as [v c]. apply IH.
Qed.

Lemma settle_Total env {A : Type} (t : Task A) w :
  taskTotal t -> exists a, snd (settle env t w) = Fulfilled a.
Proof.
  destruct t as [[a|e]|r k|ms k]; simpl; intros Ht; [eauto|done|..];
    by apply complete_Total.
Qed.

(** A [try] whose handler throws one fixed error can only be rejected with
    that error. *)
Lemma complete_tryCatch_rethrow env {A : Type} (body : Async A) (e0 reason : Thrown) w :
  snd (complete env (tryCatch body (fun _ => Throw e0)) w) = Rejected reason ->
  reason = e0.
Proof.
  revert w. induction body as [a|e|key k IH|key v k IH|k IH|r k IH|ms k IH];
    intros w; simpl; try congruence; eauto.
  destruct (CacheService.get key (clock w) (cache w)) as [v c]. apply IH.
Qed.

(** Every provider of [dataPromises] wraps its body in a [try] whose
    handler returns the provider's default. *)
Lemma getPropertyDetails_Total env address coords :
  Total (getPropertyDetails env address coords).
Proof. apply tryCatch_Total. intros; constructor. Qed.

Lemma getPlanningHistory_Total env address coords :
  Total (getPlanningHistory env address coords).
Proof. apply tryCatch_Total. intros; constructor. Qed.

Lemma getComparables_Total env coords postcode :
  Total (getComparables env coords postcode).
Proof. apply tryCatch_Total. intros; constructor. Qed.

Lemma getMarketData_Total env postcode : Total (getMarketData env postcode).
Proof. apply tryCatch_Total. intros; constructor. Qed.

Lemma getTransportLinks_Total env coords : Total (getTransportLinks env coords).
Proof. apply tryCatch_Total. intros; constructor. Qed.

Lemma getLocalAmenities_Total env coords : Total (getLocalAmenities env coords).
Proof. apply tryCatch_Total. intros; constructor. Qed.

Lemma checkPlanningRestrictions_Total env coords :
  Total (checkPlanningRestrictions env coords).
Proof. apply tryCatch_Total. intros; constructor. Qed.

(** The error of a failed seed resolution names the address. *)
Lemma getCoordinates_rejected env address w reason :
  snd (complete env (getCoordinates env address) w) = Rejected reason ->
  reason = IsError ("Could not geocode address: " +:+ address).
Proof. apply complete_tryCatch_rethrow. Qed.

(** None of the seven promises can be rejected. *)
Lemma startDataPromises_Total env address coordinates postcode w :
  let ps := snd (startDataPromises env address coordinates postcode w) in
  taskTotal (promise0 ps) /\ taskTotal (promise6 ps).
Proof.
  unfold startDataPromises.
  pose proof (start_Total env _ w (getPropertyDetails_Total env address coordinates)) as H0.
  destruct (start env (getPropertyDetails env address coordinates) w) as [w1 t0].
  destruct (start env (getPlanningHistory env address coordinates) w1) as [w2 t1].
  destruct (start env (getComparables env coordinates postcode) w2) as [w3 t2].
  destruct (start env (getMarketData env postcode) w3) as [w4 t3].
  destruct (start env (getTransportLinks env coordinates) w4) as [w5 t4].
  destruct (start env (getLocalAmenities env coordinates) w5) as [w6 t5].
  pose proof (start_Total env _ w6 (checkPlanningRestrictions_Total env coordinates)) as H6.
  destruct (start env (checkPlanningRestrictions env coordinates) w6) as [w7 t6].
  by split.
Qed.

(** *** The three ways [analyze] ends *)

Lemma analyze_seed_rejected env address analysisType w reason :
  snd (complete env (getCoordinates env address) w) = Rejected reason ->
  analyze env address analysisType w
  = (fst (complete env (getCoordinates env address) w),
     Rejected (IsError ("Property analysis failed: Could not geocode address: "
                        +:+ address))).
Proof.
  intros Hseed. pose proof (getCoordinates_rejected _ _ _ _ Hseed) as ->.
  unfold analyze. destruct (complete env (getCoordinates env address) w) as [w0 seed].
  simpl in Hseed. subst seed. reflexivity.
Qed.

Lemma analyze_basic env address w coordinates :
  snd (complete env (getCoordinates env address) w) = Fulfilled coordinates ->
  exists w' details restricted,
    analyze env address "basic" w
    = (w', Fulfilled (basicResult address coordinates details restricted (clock w'))).
Proof.
  intros Hseed. unfold analyze.
  destruct (complete env (getCoordinates env address) w) as [w0 seed].
  simpl in Hseed. subst seed.
  pose proof (startDataPromises_Total env address coordinates
                (extractPostcode env address) w0) as [H0 H6].
  destruct (startDataPromises env address coordinates (extractPostcode env address) w0)
    as [w1 ps]. cbn [snd] in H0, H6.
  change (String.eqb "basic" "basic") with true. cbv iota.
  destruct (settle_Total env (promise0 ps) w1 H0) as [details Hd].
  destruct (settle env (promise0 ps) w1) as [w2 first]. cbn [snd] in Hd. subst first.
  destruct (settle_Total env (promise6 ps) w2 H6) as [restricted Hr].
  destruct (settle env (promise6 ps) w2) as [w3 last]. cbn [snd] in Hr. subst last.
  by exists w3, details, restricted.
Qed.

Lemma analyze_comprehensive env address analysisType w coordinates :
  String.eqb analysisType "basic" = false ->
  snd (complete env (getCoordinates env address) w) = Fulfilled coordinates ->
  exists w' outcomes,
    analyze env address analysisType w
    = (w', Fulfilled (comprehensiveResult address coordinates outcomes (clock w'))).
Proof.
  intros Hmode Hseed. unfold analyze.
  destruct (complete env (getCoordinates env address) w) as [w0 seed].
  simpl in Hseed. subst seed.
  destruct (startDataPromises env address coordinates (extractPostcode env address) w0)
    as [w1 ps].
  rewrite Hmode.
  destruct (allSettled env ps w1) as [w2 outcomes].
  by exists w2, outcomes.
Qed.

(** *** The scenario of the repository's test suite *)

Lemma lowWarning_Low text : lowWarning Low text = [text].
Proof. reflexivity. Qed.

(** A result without comparables, or without planning history, carries a
    warning. *)
Lemma comprehensiveResult_warns address coordinates o now :
  let result := comprehensiveResult address coordinates o now in
  PropertyData.comparables result = [] \/ PropertyData.planningHistory result = [] ->
  DataQuality.warnings (PropertyData.dataQuality result) <> [].
Proof.
  intros result. unfold result, comprehensiveResult.
  cbn [PropertyData.comparables PropertyData.planningHistory PropertyData.dataQuality].
  rewrite assessDataQuality_warnings.
  intros [-> | ->].
  - change (comparablesRating []) with Low. rewrite lowWarning_Low. discriminate.
  - change (planningRating []) with Low. rewrite lowWarning_Low.
    intros H. apply app_eq_nil in H as [_ H]. apply app_eq_nil in H as [_ H].
    discriminate.
Qed.

(* The statement about seed failure and partial failure is in Part V. *)

(** Seed failure in the suite's error case: the call is rejected and only
    the geocoding request was sent. *)
Example analyze_invalid_address :
  analyze networkDown "Invalid address" "comprehensive" freshWorld
  = ({| cache := []; clock := 1700000000050; issued := [GetPostcode ""] |},
     Rejected (IsError
       "Property analysis failed: Could not geocode address: Invalid address")).
Proof. vm_compute. reflexivity. Qed.

(** Seed served from the cache, every request rejected: both modes
    return; the comprehensive result holds the defaults of the comparables,
    transport and amenities providers and one warning. *)
Example analyze_network_down_after_seed :
  (exists result,
     snd (analyze networkDown testAddress "comprehensive" seededWorld) = Fulfilled result
     /\ PropertyData.comparables result = []
     /\ PropertyData.transportLinks result = []
     /\ PropertyData.localAmenities result = []
     /\ PropertyData.localAuthority result = "Unknown"%string
     /\ DataQuality.warnings (PropertyData.dataQuality result)
        = [ "Limited comparable sales data available"%string ])
  /\ (exists result,
        snd (analyze networkDown testAddress "basic" seededWorld) = Fulfilled result
        /\ DataQuality.warnings (PropertyData.dataQuality result)
           = [ "Basic analysis - limited data gathered"%string ]).
Proof.
  split; (eexists; split; [vm_compute; reflexivity|]; by repeat split).
Qed.

(** *** What a basic analysis asks for *)

(** Requests are only ever added to the log. *)
Lemma complete_issued env {A : Type} (m : Async A) w :
  exists more, issued (fst (complete env m w)) = issued w ++ more.
Proof.
  revert w. induction m as [a|e|key k IH|key v k IH|k IH|r k IH|ms k IH];
    intros w; simpl; try (exists []; by rewrite app_nil_r).
  - destruct (CacheService.get key (clock w) (cache w)) as [v c].
    exact (IH v (withCache w c)).
  - exact (IH (withCache w (CacheService.set (cacheConfig env) key v None (clock w) (cache w)))).
  - exact (IH (clock w) w).
  - destruct (IH (respond env r) (advance (send w r) (elapsed env r))) as [more Hm].
    exists (r :: more). rewrite Hm. simpl. by rewrite <- app_assoc.
  - exact (IH (advance w ms)).
Qed.

Lemma settle_issued env {A : Type} (t : Task A) w :
  exists more, issued (fst (settle env t w)) = issued w ++ more.
Proof.
  destruct t as [result|r k|ms k]; simpl.
  - exists []. by rewrite app_nil_r.
  - apply (complete_issued env (k (respond env r)) (advance w (elapsed env r))).
  - apply (complete_issued env k (advance w ms)).
Qed.

(** Whenever the seed resolution succeeds, a basic analysis has sent
    every request the seven providers send when they are started. *)
Lemma basic_analysis_starts_every_provider env address w coordinates :
  snd (complete env (getCoordinates env address) w) = Fulfilled coordinates ->
  exists more,
    requestsOf env address "basic" w
    = issued (fst (startDataPromises env address coordinates (extractPostcode env address)
                     (fst (complete env (getCoordinates env address) w)))) ++ more.
Proof.
  intros Hseed. unfold requestsOf, analyze.
  destruct (complete env (getCoordinates env address) w) as [w0 seed].
  cbn [fst snd] in *. subst seed.
  destruct (startDataPromises env address coordinates (extractPostcode env address) w0)
    as [w1 ps]. cbn [fst].
  change (String.eqb "basic" "basic") with true. cbv iota.
  destruct (settle_issued env (promise0 ps) w1) as [more0 H0].
  destruct (settle env (promise0 ps) w1) as [w2 first]. cbn [fst] in H0.
  destruct (settle_issued env (promise6 ps) w2) as [more6 H6].
  destruct (settle env (promise6 ps) w2) as [w3 last]. cbn [fst] in H6.
  exists (more0 ++ more6).
  assert (issued w3 = issued w1 ++ more0 ++ more6) as <-
    by (rewrite H6, H0; by rewrite <- app_assoc).
  by destruct first, last.
Qed.

(** Started on a cache that does not hold its key, the comparables
    provider sends its Land Registry request at once. *)
Lemma getComparables_sends env coords postcode w :
  CacheService.mapGet ("comparables_" +:+ postcode) (cache w) = None ->
  issued (fst (start env (getComparables env coords postcode) w))
  = issued w ++ [GetLandRegistry postcode].
Proof.
  intros Hmiss. unfold getComparables. cbn [tryCatch bind cacheGet start].
  unfold CacheService.get. rewrite Hmiss. reflexivity.
Qed.

(** C2. In the test suite's basic analysis (fresh cache, postcodes.io and
    Rightmove answering) the call has sent six requests when it returns:
    next to the seed, Rightmove and the local authority look-up, one to the
    Land Registry for the comparables and two to the Places API for the
    transport links and the local amenities; the planning-history and
    market-data providers have run as well and left their entries in the
    cache. All seven providers are called on lines 123-131, before the
    mode is looked at on line 134. *)
Theorem basic_analysis_queries_optional_sources :
  requestsOf testEnv testAddress "basic" freshWorld
  = [ GetPostcode "SW1A1AA";
      GetRightmove testAddress;
      GetLandRegistry "SW1A1AA";
      GetPlaces london "transit_station" "test-google-key";
      GetPlaces london "school" "test-google-key";
      GetPostcode "SW1A1AA" ]
  /\ List.filter optionalFetch (requestsOf testEnv testAddress "basic" freshWorld)
     = [ GetLandRegistry "SW1A1AA";
         GetPlaces london "transit_station" "test-google-key";
         GetPlaces london "school" "test-google-key" ]
  /\ map fst (cache (fst (analyze testEnv testAddress "basic" freshWorld)))
     = [ "coords_SW1A1AA"; "planning_123 Main St, London SW1A 1AA"; "market_SW1A1AA";
         "restrictions_51.5074_-0.1278"; "details_123 Main St, London SW1A 1AA" ]%string.
Proof. repeat split; vm_compute; reflexivity. Qed.

(** *** The comprehensive reduction *)


(* The amended statement about the reduction is in Part V. *)

(** *** The basic result *)

(** C4 (as stated, refuted). The warning of a basic analysis reads "Basic
    analysis - limited data gathered", with a capital and a hyphen; it is
    not the text the claim quotes. *)
Lemma basic_warning_text_differs :
  exists result,
    snd (analyze testEnv testAddress "basic" freshWorld) = Fulfilled result
    /\ DataQuality.warnings (PropertyData.dataQuality result)
       = [ "Basic analysis - limited data gathered"%string ]
    /\ DataQuality.warnings (PropertyData.dataQuality result)
       <> [ "basic analysis — limited data gathered"%string ].
Proof.
  eexists. split; [vm_compute; reflexivity|]. split; [reflexivity|discriminate].
Qed.

(** C4 (amended). For every subject whose seed resolution succeeds,
    [analyze(subject, "basic")] returns a result with overall score 60, the
    three component ratings Low, no planning history, no comparables, and
    exactly one warning, "Basic analysis - limited data gathered"; when the
    seed resolution fails the call throws instead. *)
Theorem basic_analysis_fixed_result env address w :
  (forall coordinates,
     snd (complete env (getCoordinates env address) w) = Fulfilled coordinates ->
     exists result,
       snd (analyze env address "basic" w) = Fulfilled result
       /\ DataQuality.overallScore (PropertyData.dataQuality result) = 60
       /\ PropertyData.planningHistory result = []
       /\ PropertyData.comparables result = []
       /\ DataQuality.warnings (PropertyData.dataQuality result)
          = [ "Basic analysis - limited data gathered"%string ]
       /\ DataQuality.comparablesQuality (PropertyData.dataQuality result) = Low
       /\ DataQuality.marketDataQuality (PropertyData.dataQuality result) = Low
       /\ DataQuality.planningDataQuality (PropertyData.dataQuality result) = Low)
  /\ (forall reason,
        snd (complete env (getCoordinates env address) w) = Rejected reason ->
        exists error, snd (analyze env address "basic" w) = Rejected error).
Proof.
  split.
  - intros coordinates Hseed.
    destruct (analyze_basic env address w coordinates Hseed)
      as (w' & details & restricted & ->).
    eexists. split; [reflexivity|]. by repeat split.
  - intros reason Hseed. rewrite (analyze_seed_rejected _ _ _ _ _ Hseed). eauto.
Qed.

End AnalyzerProperties.

(* ===================================================================== *)
(** * Part IV: further properties of the code *)
(* ===================================================================== *)

(** ** The admission controller *)

Section RateLimiterFurther.

Import RateLimiter.

Implicit Types (cfg : RateLimitConfig) (st : Requests) (rs : list RequestRecord).

Lemma stored_delete_ne key key' st :
  key <> key' -> stored key' (delete key st) = stored key' st.
Proof. intros Hne. unfold stored. by rewrite lookup_delete_ne. Qed.

Lemma recordRequest_other cfg now now' identifier success st key' :
  keyGenerator cfg identifier <> key' ->
  stored key' (snd (recordRequest cfg now now' identifier success st)) = stored key' st.
Proof.
  intros Hne. rewrite recordRequest_unfold. cbv zeta.
  assert (Hprune : stored key' (snd (canMakeRequest cfg now' identifier st)) = stored key' st)
    by (by apply getValidRequests_other).
  destruct (_ && _); cbn [snd]; [|done].
  unfold stored at 1. rewrite lookup_insert_ne by done. exact Hprune.
Qed.

Lemma getStatus_store cfg now1 now2 identifier st :
  snd (getStatus cfg now1 now2 identifier st)
  = snd (getValidRequests cfg (keyGenerator cfg identifier) now1 st).
Proof.
  unfold getStatus, getRemainingRequests.
  by destruct (getValidRequests cfg (keyGenerator cfg identifier) now1 st).
Qed.

Lemma getRemainingRequests_store cfg now identifier st :
  snd (getRemainingRequests cfg now identifier st)
  = snd (getValidRequests cfg (keyGenerator cfg identifier) now st).
Proof.
  unfold getRemainingRequests.
  by destruct (getValidRequests cfg (keyGenerator cfg identifier) now st).
Qed.

Lemma getRemainingRequests_result cfg now identifier st :
  fst (getRemainingRequests cfg now identifier st)
  = Z.max 0 (maxRequests cfg
             - Z.of_nat (length (List.filter (inWindow cfg now)
                                   (stored (keyGenerator cfg identifier) st)))).
Proof. reflexivity. Qed.

(** A call about one identifier leaves the records of every other key
    alone. *)
Lemma step_other cfg op st identifier key' :
  opIdentifier op = Some identifier ->
  keyGenerator cfg identifier <> key' ->
  stored key' (step cfg st op) = stored key' st.
Proof.
  intros Hop Hne.
  destruct op as [id now|id success now now'|id now|id now1 now2|id| |now];
    simpl in Hop; try discriminate; injection Hop as ->; cbn [step].
  - by apply getValidRequests_other.
  - by apply recordRequest_other.
  - rewrite getRemainingRequests_store. by apply getValidRequests_other.
  - rewrite getStatus_store. by apply getValidRequests_other.
  - by apply stored_delete_ne.
Qed.

(** X1. Quotas are kept per key: a call about one identifier
    ([canMakeRequest], [recordRequest], [getRemainingRequests],
    [getStatus] or [reset]) changes neither the stored records nor any
    answer about an identifier that the key generator maps to a different
    key. *)
Theorem limiter_keys_are_isolated cfg op st identifier other now :
  opIdentifier op = Some identifier ->
  keyGenerator cfg identifier <> keyGenerator cfg other ->
  stored (keyGenerator cfg other) (step cfg st op) = stored (keyGenerator cfg other) st
  /\ fst (canMakeRequest cfg now other (step cfg st op))
     = fst (canMakeRequest cfg now other st)
  /\ fst (getRemainingRequests cfg now other (step cfg st op))
     = fst (getRemainingRequests cfg now other st)
  /\ getResetTime cfg now other (step cfg st op) = getResetTime cfg now other st.
Proof.
  intros Hop Hne. pose proof (step_other cfg op st identifier _ Hop Hne) as Hst.
  split; [exact Hst|].
  rewrite !canMakeRequest_result, !getRemainingRequests_result.
  unfold getResetTime. by rewrite Hst.
Qed.

Lemma limiter_keys_are_isolated_witness :
  fst (canMakeRequest (defaultConfig 1 60000) 10 "bob"
         (step (defaultConfig 1 60000) empty (OpRecordRequest "alice" true 0 0)))
  = fst (canMakeRequest (defaultConfig 1 60000) 10 "bob" empty).
Proof.
  refine (proj1 (proj2 (limiter_keys_are_isolated (defaultConfig 1 60000)
            (OpRecordRequest "alice" true 0 0) empty "alice" "bob" 10 eq_refl _))).
  simpl. discriminate.
Defined.

(** *** The size of the store *)

Lemma withinLimits_empty cfg : withinLimits cfg empty.
Proof. apply map_Forall_empty. Qed.

Lemma stored_within cfg key st :
  withinLimits cfg st ->
  stored key st = [] \/ Z.of_nat (length (stored key st)) <= maxRequests cfg.
Proof.
  intros Hst. unfold stored. destruct (st !! key) as [rs|] eqn:E; [|by left].
  right. by apply (Hst key rs E).
Qed.

Lemma withinLimits_getValidRequests cfg key now st :
  withinLimits cfg st -> withinLimits cfg (snd (getValidRequests cfg key now st)).
Proof.
  intros Hst. unfold getValidRequests. cbn [snd].
  destruct (negb _); [|done].
  destruct (Nat.eqb_spec (length (List.filter (inWindow cfg now) (stored key st))) 0)
    as [H0|H0].
  - by apply map_Forall_delete.
  - apply map_Forall_insert_2; [|done]. split.
    + intros Hnil. by rewrite Hnil in H0.
    + pose proof (List.filter_length_le (inWindow cfg now) (stored key st)) as Hle.
      destruct (stored_within cfg key st Hst) as [Hnil|Hmax]; [|lia].
      rewrite Hnil in H0. by simpl in H0.
Qed.

Lemma withinLimits_recordRequest cfg now now' identifier success st :
  withinLimits cfg st ->
  withinLimits cfg (snd (recordRequest cfg now now' identifier success st)).
Proof.
  intros Hst. rewrite recordRequest_unfold. cbv zeta.
  pose proof (withinLimits_getValidRequests cfg (keyGenerator cfg identifier) now' st Hst)
    as Hst1.
  change (snd (getValidRequests cfg (keyGenerator cfg identifier) now' st))
    with (snd (canMakeRequest cfg now' identifier st)) in Hst1.
  destruct (fst (canMakeRequest cfg now' identifier st) && _) eqn:E; cbn [snd]; [|done].
  apply andb_prop in E as [Hallowed _].
  apply map_Forall_insert_2; [|done]. split.
  - intros Hnil. by apply app_eq_nil in Hnil as [_ ?].
  - rewrite canMakeRequest_result in Hallowed. apply Z.ltb_lt in Hallowed.
    rewrite canMakeRequest_stored, length_app. simpl. lia.
Qed.

Lemma lookup_cleanup cfg now st key :
  cleanup cfg now st !! key
  = match st !! key with
    | Some rs =>
        match List.filter (inWindow cfg now) rs with
        | [] => None
        | valid => Some valid
        end
    | None => None
    end.
Proof. unfold cleanup. rewrite lookup_omap. by destruct (st !! key). Qed.

Lemma stored_cleanup cfg now st key :
  stored key (cleanup cfg now st) = List.filter (inWindow cfg now) (stored key st).
Proof.
  unfold stored. rewrite lookup_cleanup.
  destruct (st !! key) as [rs|]; [|done]. simpl.
  by destruct (List.filter (inWindow cfg now) rs).
Qed.

Lemma withinLimits_cleanup cfg now st :
  withinLimits cfg st -> withinLimits cfg (cleanup cfg now st).
Proof.
  intros Hst key valid Hkey. rewrite lookup_cleanup in Hkey.
  destruct (st !! key) as [rs|] eqn:E; [|done].
  destruct (Hst key rs E) as [_ Hmax].
  pose proof (List.filter_length_le (inWindow cfg now) rs) as Hle.
  destruct (List.filter (inWindow cfg now) rs) as [|r valid'] eqn:Ef; [done|].
  injection Hkey as <-. split; [done|lia].
Qed.

Lemma withinLimits_step cfg st op : withinLimits cfg st -> withinLimits cfg (step cfg st op).
Proof.
  intros Hst. destruct op as [id now|id success now now'|id now|id now1 now2|id| |now];
    cbn [step].
  - by apply withinLimits_getValidRequests.
  - by apply withinLimits_recordRequest.
  - rewrite getRemainingRequests_store. by apply withinLimits_getValidRequests.
  - rewrite getStatus_store. by apply withinLimits_getValidRequests.
  - by apply map_Forall_delete.
  - apply map_Forall_empty.
  - by apply withinLimits_cleanup.
Qed.

(** X2. Whatever calls are made on a limiter, and at whatever times, no
    key ever holds more than [maxRequests] records and no key is kept with
    an empty array: the memory of the limiter is bounded by the quota per
    identifier in use. *)
Theorem limiter_store_stays_within_limits cfg (ops : list Op) :
  map_Forall (fun _ rs => rs <> [] /\ Z.of_nat (length rs) <= maxRequests cfg)
    (run cfg ops).
Proof.
  unfold run. change (withinLimits cfg (fold_left (step cfg) ops empty)).
  assert (Hgen : forall st, withinLimits cfg st ->
            withinLimits cfg (fold_left (step cfg) ops st)).
  { induction ops as [|op ops IH]; intros st Hst; simpl; [done|].
    by apply IH, withinLimits_step. }
  apply Hgen, withinLimits_empty.
Qed.

(** *** Calls that do not record *)

Lemma getValidRequests_empty cfg key now :
  getValidRequests cfg key now empty = ([], empty).
Proof. unfold getValidRequests. by rewrite stored_empty. Qed.

Lemma step_empty cfg op : isRecord op = false -> step cfg empty op = empty.
Proof.
  destruct op as [id now|id success now now'|id now|id now1 now2|id| |now];
    intros Hop; try discriminate; cbn [step].
  - unfold canMakeRequest. by rewrite getValidRequests_empty.
  - rewrite getRemainingRequests_store. by rewrite getValidRequests_empty.
  - rewrite getStatus_store. by rewrite getValidRequests_empty.
  - unfold reset, empty. apply delete_empty.
  - reflexivity.
  - unfold cleanup, empty. apply omap_empty.
Qed.

(** X3. Only [recordRequest] consumes quota: after any sequence of calls
    none of which is a [recordRequest], the limiter holds no record, every
    identifier is admitted (as long as [maxRequests] is positive), has its
    whole quota left and a reset time of 0. *)
Theorem only_recordRequest_consumes_quota cfg (ops : list Op) identifier now :
  forallb (fun op => negb (isRecord op)) ops = true ->
  run cfg ops = empty
  /\ fst (canMakeRequest cfg now identifier (run cfg ops)) = (0 <? maxRequests cfg)
  /\ fst (getRemainingRequests cfg now identifier (run cfg ops)) = Z.max 0 (maxRequests cfg)
  /\ getResetTime cfg now identifier (run cfg ops) = 0.
Proof.
  intros Hops.
  assert (Hrun : run cfg ops = empty).
  { unfold run. induction ops as [|op ops IH]; [done|].
    simpl in Hops. apply andb_prop in Hops as [Hop Hops].
    simpl. rewrite step_empty by (by apply negb_true_iff). by apply IH. }
  rewrite Hrun. split; [done|].
  rewrite canMakeRequest_result, getRemainingRequests_result.
  unfold getResetTime. rewrite stored_empty. simpl.
  repeat split. f_equal. lia.
Qed.

Lemma only_recordRequest_consumes_quota_witness :
  fst (canMakeRequest (defaultConfig 60 60000) 5 "default"
         (run (defaultConfig 60 60000)
            [OpCanMakeRequest "default" 0; OpGetStatus "default" 1 2; OpCleanup 3]))
  = true.
Proof.
  refine (proj1 (proj2 (only_recordRequest_consumes_quota (defaultConfig 60 60000)
            [OpCanMakeRequest "default" 0; OpGetStatus "default" 1 2; OpCleanup 3]
            "default" 5 _))).
  reflexivity.
Defined.

(** *** The periodic sweep *)

(** A record in the window at a later time is in the window now. *)
Lemma filter_inWindow_later cfg now now' rs :
  now <= now' ->
  List.filter (inWindow cfg now') (List.filter (inWindow cfg now) rs)
  = List.filter (inWindow cfg now') rs.
Proof.
  intros Hle. induction rs as [|r rs IH]; [done|]. simpl.
  destruct (inWindow cfg now r) eqn:E; simpl; rewrite IH; [done|].
  replace (inWindow cfg now' r) with false; [done|].
  symmetry. unfold inWindow in *. apply Z.ltb_ge. apply Z.ltb_ge in E. lia.
Qed.

(** X4. The periodic sweep is invisible to admission: after [cleanup] at
    some time every key holds exactly its records still in the window,
    and at that time or later [canMakeRequest] and [getRemainingRequests]
    answer as they would have without the sweep; sweeping twice is
    sweeping once. *)
Theorem cleanup_is_transparent cfg now now' identifier st :
  now <= now' ->
  (forall key, stored key (cleanup cfg now st)
               = List.filter (inWindow cfg now) (stored key st))
  /\ fst (canMakeRequest cfg now' identifier (cleanup cfg now st))
     = fst (canMakeRequest cfg now' identifier st)
  /\ fst (getRemainingRequests cfg now' identifier (cleanup cfg now st))
     = fst (getRemainingRequests cfg now' identifier st)
  /\ cleanup cfg now (cleanup cfg now st) = cleanup cfg now st.
Proof.
  intros Hle. split; [intros key; apply stored_cleanup|].
  rewrite !canMakeRequest_result, !getRemainingRequests_result, !stored_cleanup.
  rewrite (filter_inWindow_later _ _ _ _ Hle). repeat split.
  apply map_eq. intros key. rewrite !lookup_cleanup.
  destruct (st !! key) as [rs|]; [|done].
  destruct (List.filter (inWindow cfg now) rs) as [|r valid] eqn:E; [done|].
  rewrite <- E, filter_twice. by rewrite E.
Qed.

Lemma cleanup_is_transparent_witness :
  fst (canMakeRequest (defaultConfig 60 60000) 70000 "default"
         (cleanup (defaultConfig 60 60000) 65000 twoRequests))
  = fst (canMakeRequest (defaultConfig 60 60000) 70000 "default" twoRequests).
Proof.
  refine (proj1 (proj2 (cleanup_is_transparent (defaultConfig 60 60000) 65000 70000
            "default" twoRequests _))).
  lia.
Defined.

(** *** The remaining quota *)

(** X5. [getRemainingRequests] counts down with the recorded requests.
    In every state and at every time its answer is positive exactly when
    [canMakeRequest] admits at that time. A request that [recordRequest]
    accepts and records lowers it by exactly one, and never below 0 (seen
    at the time of the admission check, the new record being inside the
    window); a request that is refused, or accepted but skipped by the
    configuration, leaves it as it was. *)
Theorem remaining_counts_recorded_requests cfg now now' identifier success st :
  (0 < fst (getRemainingRequests cfg now' identifier st)
   <-> fst (canMakeRequest cfg now' identifier st) = true)
  /\ (fst (recordRequest cfg now now' identifier success st) = true ->
      skipped cfg success = false ->
      now' - now < windowMs cfg ->
      fst (getRemainingRequests cfg now' identifier
             (snd (recordRequest cfg now now' identifier success st)))
      = fst (getRemainingRequests cfg now' identifier st) - 1
      /\ 0 <= fst (getRemainingRequests cfg now' identifier
                     (snd (recordRequest cfg now now' identifier success st))))
  /\ (fst (recordRequest cfg now now' identifier success st) = false
      \/ skipped cfg success = true ->
      fst (getRemainingRequests cfg now' identifier
             (snd (recordRequest cfg now now' identifier success st)))
      = fst (getRemainingRequests cfg now' identifier st)).
Proof.
  split; [|split].
  - rewrite getRemainingRequests_result, canMakeRequest_result, Z.ltb_lt. lia.
  - intros Hacc Hskip Hnew.
    rewrite recordRequest_unfold in Hacc |- *. cbv zeta in Hacc |- *.
    rewrite Hskip in Hacc |- *. rewrite andb_true_r in Hacc |- *.
    destruct (fst (canMakeRequest cfg now' identifier st)) eqn:Hadm;
      cbn [fst snd] in Hacc |- *; [|done].
    rewrite canMakeRequest_result in Hadm. apply Z.ltb_lt in Hadm.
    set (new := {| timestamp := now; success := success |}).
    assert (Hnewin : List.filter (inWindow cfg now') [new] = [new]).
    { simpl. unfold inWindow. cbn [timestamp new].
      by rewrite (proj2 (Z.ltb_lt _ _) Hnew). }
    assert (Hst' : stored (keyGenerator cfg identifier)
                     (<[keyGenerator cfg identifier :=
                          stored (keyGenerator cfg identifier)
                            (snd (canMakeRequest cfg now' identifier st)) ++ [new]]>
                        (snd (canMakeRequest cfg now' identifier st)))
                   = List.filter (inWindow cfg now')
                       (stored (keyGenerator cfg identifier) st) ++ [new]).
    { unfold stored at 1. rewrite lookup_insert_eq. change (default [] (Some ?x)) with x.
      by rewrite canMakeRequest_stored. }
    rewrite !getRemainingRequests_result, Hst', List.filter_app, filter_twice, Hnewin,
            length_app.
    cbn [length]. lia.
  - intros Hsame.
    assert (Hkept : snd (recordRequest cfg now now' identifier success st)
                    = snd (canMakeRequest cfg now' identifier st)).
    { rewrite recordRequest_unfold in Hsame |- *. cbv zeta in Hsame |- *.
      destruct (fst (canMakeRequest cfg now' identifier st)), (skipped cfg success);
        cbn [andb negb fst snd] in Hsame |- *; try done.
      by destruct Hsame. }
    rewrite Hkept, !getRemainingRequests_result, canMakeRequest_stored.
    by rewrite filter_twice.
Qed.

Lemma remaining_counts_recorded_requests_witness :
  (0 < fst (getRemainingRequests (defaultConfig 60 60000) 0 "default" empty)
   <-> fst (canMakeRequest (defaultConfig 60 60000) 0 "default" empty) = true)
  /\ fst (getRemainingRequests (defaultConfig 60 60000) 0 "default"
            (snd (recordRequest (defaultConfig 60 60000) 0 0 "default" true empty)))
     = fst (getRemainingRequests (defaultConfig 60 60000) 0 "default" empty) - 1
  /\ fst (getRemainingRequests (defaultConfig 1 60000) 5 "default"
            (snd (recordRequest (defaultConfig 1 60000) 5 5 "default" true
                    (snd (recordRequest (defaultConfig 1 60000) 0 0 "default" true empty)))))
     = fst (getRemainingRequests (defaultConfig 1 60000) 5 "default"
              (snd (recordRequest (defaultConfig 1 60000) 0 0 "default" true empty))).
Proof.
  split; [|split].
  - exact (proj1 (remaining_counts_recorded_requests (defaultConfig 60 60000)
                    0 0 "default" true empty)).
  - refine (proj1 (proj1 (proj2 (remaining_counts_recorded_requests
                                   (defaultConfig 60 60000) 0 0 "default" true empty))
                     _ _ _)).
    + reflexivity.
    + reflexivity.
    + simpl. lia.
  - refine (proj2 (proj2 (remaining_counts_recorded_requests (defaultConfig 1 60000)
                            5 5 "default" true
                            (snd (recordRequest (defaultConfig 1 60000) 0 0 "default" true
                                    empty)))) _).
    left. reflexivity.
Defined.

(** *** The status report *)

Lemma ceilSeconds_bounds (ms : Z) :
  1000 * (ceilSeconds ms - 1) < ms <= 1000 * ceilSeconds ms.
Proof.
  unfold ceilSeconds.
  pose proof (Z.div_mod (- ms) 1000 ltac:(lia)).
  pose proof (Z.mod_pos_bound (- ms) 1000 ltac:(lia)). lia.
Qed.

(** The specification's reset time is positive as soon as one record is
    active. *)
Lemma resetInSpec_positive cfg now identifier st :
  activeRecords cfg now (stored (keyGenerator cfg identifier) st) <> [] ->
  0 < resetInSpec cfg now identifier st.
Proof.
  unfold resetInSpec. intros Hne.
  destruct (activeRecords cfg now (stored (keyGenerator cfg identifier) st))
    as [|r rs] eqn:E; [done|].
  pose proof (mathMin_In (timestamp r) (map timestamp rs)) as Hin.
  change (timestamp r :: map timestamp rs) with (map timestamp (r :: rs)) in Hin.
  apply in_map_iff in Hin as [r' [Hr' Hin]].
  rewrite <- E, activeRecords_filter in Hin. apply filter_In in Hin as [_ Hin].
  unfold inWindow in Hin. apply Z.ltb_lt in Hin. lia.
Qed.

(** X6. [getStatus] prunes before it reports, so (its two clock reads
    coinciding) its report is coherent: the remaining quota is the quota
    minus the active records, never negative; the reset time is the time
    until the oldest active record leaves the window, in milliseconds and
    rounded up to seconds; and a client told that nothing remains is
    always told a positive wait. *)
Theorem getStatus_is_coherent cfg now identifier st :
  let status := fst (getStatus cfg now now identifier st) in
  let active := activeRecords cfg now (stored (keyGenerator cfg identifier) st) in
  limit status = maxRequests cfg
  /\ remaining status = Z.max 0 (maxRequests cfg - Z.of_nat (length active))
  /\ resetTimeMs status = resetInSpec cfg now identifier st
  /\ 0 <= resetTimeMs status
  /\ 1000 * (resetTime status - 1) < resetTimeMs status <= 1000 * resetTime status
  /\ (0 < maxRequests cfg -> remaining status = 0 ->
      0 < resetTimeMs status /\ 1 <= resetTime status)
  /\ stored (keyGenerator cfg identifier) (snd (getStatus cfg now now identifier st))
     = active.
Proof.
  intros status active.
  assert (Hms : resetTimeMs status = resetInSpec cfg now identifier st)
    by apply getStatus_resetTimeMs.
  assert (Hrem : remaining status
                 = Z.max 0 (maxRequests cfg - Z.of_nat (length active))).
  { unfold status, active, getStatus. rewrite activeRecords_filter.
    pose proof (getRemainingRequests_result cfg now identifier st) as Hr.
    destruct (getRemainingRequests cfg now identifier st) as [n st']. exact Hr. }
  assert (Hsec : resetTime status = ceilSeconds (resetTimeMs status)).
  { unfold status, getStatus.
    by destruct (getRemainingRequests cfg now identifier st) as [n st']. }
  assert (Hlim : limit status = maxRequests cfg).
  { unfold status, getStatus.
    by destruct (getRemainingRequests cfg now identifier st) as [n st']. }
  assert (Hcases : active = [] /\ resetInSpec cfg now identifier st = 0
                   \/ active <> [] /\ 0 < resetInSpec cfg now identifier st).
  { destruct active as [|r rs] eqn:E.
    - left. split; [done|]. unfold resetInSpec. fold active. by rewrite E.
    - right. split; [done|]. apply resetInSpec_positive. fold active. by rewrite E. }
  pose proof (ceilSeconds_bounds (resetTimeMs status)) as Hceil.
  split; [exact Hlim|]. split; [exact Hrem|]. split; [exact Hms|].
  split; [rewrite Hms; destruct Hcases as [[_ ->]|[_ ?]]; lia|].
  split; [by rewrite Hsec|]. split.
  - intros Hmax Hzero. rewrite Hrem in Hzero.
    assert (active <> []) as Hne by (intros Hnil; rewrite Hnil in Hzero; simpl in Hzero; lia).
    destruct Hcases as [[? _]|[_ Hpos]]; [done|].
    rewrite Hsec. rewrite <- Hms in Hpos. split; [done|]. lia.
  - rewrite getStatus_store, getValidRequests_stored. unfold active.
    by rewrite activeRecords_filter.
Qed.

(** *** The middleware *)

Lemma mathMin_le (x : Z) (xs : list Z) (y : Z) : In y (x :: xs) -> mathMin x xs <= y.
Proof.
  unfold mathMin. revert x y. induction xs as [|z xs IH]; intros x y; simpl.
  - intros [->|[]]. lia.
  - pose proof (IH (Z.min x z) (Z.min x z) (or_introl eq_refl)) as Hmin.
    intros [<-|[<-|Hin]]; [lia|lia|].
    apply IH. by right.
Qed.

(** The reset time when the oldest stored record is stamped [t0]. *)
Lemma getResetTime_oldest cfg now identifier st (t0 : Z) :
  Forall (fun r => t0 <= timestamp r) (stored (keyGenerator cfg identifier) st) ->
  Exists (fun r => timestamp r = t0) (stored (keyGenerator cfg identifier) st) ->
  getResetTime cfg now identifier st = Z.max 0 (t0 + windowMs cfg - now).
Proof.
  intros Hall Hex. unfold getResetTime.
  destruct (stored (keyGenerator cfg identifier) st) as [|r rs]; [by inversion Hex|].
  cbv zeta. f_equal. f_equal. f_equal.
  pose proof (mathMin_In (timestamp r) (map timestamp rs)) as Hin.
  change (timestamp r :: map timestamp rs) with (map timestamp (r :: rs)) in Hin.
  apply in_map_iff in Hin as [r' [Hr' Hin]].
  rewrite Forall_forall in Hall. apply list_elem_of_In, Hall in Hin.
  apply Exists_exists in Hex as [r0 [Hr0 Ht0]].
  pose proof (mathMin_le (timestamp r) (map timestamp rs) (timestamp r0)) as Hle.
  change (timestamp r :: map timestamp rs) with (map timestamp (r :: rs)) in Hle.
  specialize (Hle (in_map timestamp _ _ (proj1 (list_elem_of_In _ _) Hr0))). lia.
Qed.

Lemma getStatus_all_valid cfg now1 now2 identifier st :
  Forall (fun r => inWindow cfg now1 r = true) (stored (keyGenerator cfg identifier) st) ->
  fst (getStatus cfg now1 now2 identifier st)
  = {| limit := maxRequests cfg;
       remaining :=
         Z.max 0 (maxRequests cfg
                  - Z.of_nat (length (stored (keyGenerator cfg identifier) st)));
       resetTime := ceilSeconds (getResetTime cfg now2 identifier st);
       resetTimeMs := getResetTime cfg now2 identifier st |}
  /\ stored (keyGenerator cfg identifier) (snd (getStatus cfg now1 now2 identifier st))
     = stored (keyGenerator cfg identifier) st.
Proof.
  intros Hall.
  pose proof (getValidRequests_stored cfg (keyGenerator cfg identifier) now1 st) as Hst.
  pose proof (getValidRequests_result cfg (keyGenerator cfg identifier) now1 st) as Hres.
  rewrite (filter_all_Forall _ _ Hall) in Hst, Hres.
  unfold getStatus, getRemainingRequests.
  destruct (getValidRequests cfg (keyGenerator cfg identifier) now1 st) as [valid st'].
  cbn [fst snd] in *. subst valid. split; [|exact Hst].
  unfold getResetTime. rewrite Hst. reflexivity.
Qed.

Lemma within_inWindow cfg (t0 now : Z) rs :
  Forall (fun r => t0 <= timestamp r) rs -> now - t0 < windowMs cfg ->
  Forall (fun r => inWindow cfg now r = true) rs.
Proof.
  intros Hall Hnow. eapply Forall_impl; [exact Hall|].
  intros r Hr. unfold inWindow. apply Z.ltb_lt. simpl in Hr. lia.
Qed.

(** A request that finds room passes, is recorded, and is told the
    remaining quota and the time to the reset. *)
Lemma middleware_pass cfg clock identifier st (t0 : Z) :
  skipSuccessfulRequests cfg = false ->
  passWithin cfg t0 clock ->
  Forall (fun r => t0 <= timestamp r) (stored (keyGenerator cfg identifier) st) ->
  Exists (fun r => timestamp r = t0)
    (stored (keyGenerator cfg identifier) st
     ++ [ {| timestamp := readStamp clock; success := true |} ]) ->
  Z.of_nat (length (stored (keyGenerator cfg identifier) st)) < maxRequests cfg ->
  fst (middleware cfg clock identifier st)
  = Next (maxRequests cfg)
         (maxRequests cfg - Z.of_nat (length (stored (keyGenerator cfg identifier) st)) - 1)
         (ceilSeconds (readHeader clock)
          + ceilSeconds (t0 + windowMs cfg - readReset clock))
  /\ stored (keyGenerator cfg identifier) (snd (middleware cfg clock identifier st))
     = stored (keyGenerator cfg identifier) st
       ++ [ {| timestamp := readStamp clock; success := true |} ].
Proof.
  intros Hskip Hclock Hall Hex Hroom.
  set (key := keyGenerator cfg identifier) in *.
  set (new := {| timestamp := readStamp clock; success := true |}) in *.
  destruct Hclock as [Hstamp Hclock]. rewrite !Forall_cons in Hclock.
  destruct Hclock as (Hc1 & Hc2 & Hc3 & Hc4 & Hc5 & Hc6 & _).
  unfold middleware.
  pose proof (canMakeRequest_result cfg (readCheck clock) identifier st) as Hadm.
  pose proof (canMakeRequest_stored cfg (readCheck clock) identifier st) as Hst1.
  fold key in Hadm, Hst1.
  rewrite (filter_all_Forall _ _ (within_inWindow cfg t0 _ _ Hall Hc1)) in Hadm, Hst1.
  rewrite (proj2 (Z.ltb_lt _ _) Hroom) in Hadm.
  destruct (canMakeRequest cfg (readCheck clock) identifier st) as [allowed st1].
  cbn [fst snd] in Hadm, Hst1. subst allowed. cbn [negb].
  destruct (recordRequest_accepted cfg (readStamp clock) (readRecheck clock)
              identifier true st1) as [_ Hst2].
  { unfold skipped. by rewrite Hskip. }
  { fold key. rewrite Hst1. exact (within_inWindow cfg t0 _ _ Hall Hc3). }
  { fold key. by rewrite Hst1. }
  fold key new in Hst2. rewrite Hst1 in Hst2.
  destruct (recordRequest cfg (readStamp clock) (readRecheck clock) identifier true st1)
    as [recorded st2]. cbn [snd] in Hst2.
  assert (Hall2 : Forall (fun r => t0 <= timestamp r) (stored key st2)).
  { rewrite Hst2. apply Forall_app. split; [done|]. repeat constructor. exact Hstamp. }
  destruct (getStatus_all_valid cfg (readRemaining clock) (readReset clock) identifier st2)
    as [Hstatus Hst3].
  { exact (within_inWindow cfg t0 _ _ Hall2 Hc4). }
  fold key in Hstatus, Hst3.
  rewrite (getResetTime_oldest cfg (readReset clock) identifier st2 t0) in Hstatus;
    [|exact Hall2|fold key; by rewrite Hst2].
  destruct (getStatus cfg (readRemaining clock) (readReset clock) identifier st2)
    as [status st3]. cbn [fst snd] in Hstatus, Hst3 |- *. subst status.
  cbn [limit remaining resetTime]. rewrite Hst3, Hst2. split; [|done].
  rewrite length_app. cbn [length]. fold (ceilSeconds (readHeader clock)).
  f_equal; [lia|]. f_equal. f_equal. lia.
Qed.

(** A request that finds the window full is refused and told to wait
    until the oldest record leaves the window. *)
Lemma middleware_refused cfg clock identifier st (t0 : Z) :
  passWithin cfg t0 clock ->
  Forall (fun r => t0 <= timestamp r) (stored (keyGenerator cfg identifier) st) ->
  Exists (fun r => timestamp r = t0) (stored (keyGenerator cfg identifier) st) ->
  maxRequests cfg <= Z.of_nat (length (stored (keyGenerator cfg identifier) st)) ->
  fst (middleware cfg clock identifier st)
  = TooManyRequests (ceilSeconds (t0 + windowMs cfg - readReset clock))
  /\ stored (keyGenerator cfg identifier) (snd (middleware cfg clock identifier st))
     = stored (keyGenerator cfg identifier) st.
Proof.
  intros Hclock Hall Hex Hfull.
  set (key := keyGenerator cfg identifier) in *.
  destruct Hclock as [Hstamp Hclock]. rewrite !Forall_cons in Hclock.
  destruct Hclock as (Hc1 & Hc2 & Hc3 & Hc4 & Hc5 & Hc6 & _).
  unfold middleware.
  pose proof (canMakeRequest_result cfg (readCheck clock) identifier st) as Hadm.
  pose proof (canMakeRequest_stored cfg (readCheck clock) identifier st) as Hst1.
  fold key in Hadm, Hst1.
  rewrite (filter_all_Forall _ _ (within_inWindow cfg t0 _ _ Hall Hc1)) in Hadm, Hst1.
  rewrite (proj2 (Z.ltb_ge _ _) Hfull) in Hadm.
  destruct (canMakeRequest cfg (readCheck clock) identifier st) as [allowed st1].
  cbn [fst snd] in Hadm, Hst1. subst allowed. cbn [negb].
  assert (Hall1 : Forall (fun r => t0 <= timestamp r) (stored key st1)) by (by rewrite Hst1).
  destruct (getStatus_all_valid cfg (readRemaining clock) (readReset clock) identifier st1)
    as [Hstatus Hst2].
  { exact (within_inWindow cfg t0 _ _ Hall1 Hc4). }
  fold key in Hstatus, Hst2.
  rewrite (getResetTime_oldest cfg (readReset clock) identifier st1 t0) in Hstatus;
    [|exact Hall1|fold key; by rewrite Hst1].
  destruct (getStatus cfg (readRemaining clock) (readReset clock) identifier st1)
    as [status st2]. cbn [fst snd] in Hstatus, Hst2 |- *. subst status.
  cbn [resetTime]. rewrite Hst2, Hst1. split; [|done].
  f_equal. f_equal. lia.
Qed.

Lemma middlewareRequests_from cfg identifier (t0 : Z) clocks :
  skipSuccessfulRequests cfg = false ->
  1 <= maxRequests cfg ->
  forall (st : Requests) (i : nat),
    Forall (passWithin cfg t0) clocks ->
    Forall (fun r => t0 <= timestamp r) (stored (keyGenerator cfg identifier) st) ->
    length (stored (keyGenerator cfg identifier) st)
    = Nat.min i (Z.to_nat (maxRequests cfg)) ->
    match i with
    | O => match clocks with [] => True | clock :: _ => readStamp clock = t0 end
    | S _ => Exists (fun r => timestamp r = t0) (stored (keyGenerator cfg identifier) st)
    end ->
    fst (middlewareRequests cfg identifier clocks st)
    = imap (fun j => middlewareOutcome cfg t0 (i + j)) clocks.
Proof.
  intros Hskip Hmax. induction clocks as [|clock clocks IH];
    intros st i Hclocks Hall Hlen Hfirst; [reflexivity|].
  apply Forall_cons in Hclocks as [Hclock Hclocks].
  cbn [middlewareRequests imap].
  destruct (Z.of_nat i <? maxRequests cfg) eqn:Hroom.
  - apply Z.ltb_lt in Hroom.
    destruct (middleware_pass cfg clock identifier st t0) as [Hres Hst]; try done.
    { apply Exists_app. destruct i as [|i]; [right|by left].
      apply Exists_cons. by left. }
    { lia. }
    destruct (middleware cfg clock identifier st) as [r st1].
    cbn [fst snd] in Hres, Hst.
    specialize (IH st1 (S i) Hclocks).
    destruct (middlewareRequests cfg identifier clocks st1) as [rs st2].
    cbn [fst] in IH |- *. f_equal.
    + rewrite Hres. unfold middlewareOutcome. rewrite Nat.add_0_r.
      rewrite (proj2 (Z.ltb_lt _ _) Hroom). f_equal. lia.
    + rewrite IH.
      * apply imap_ext. intros j x _. cbn. by rewrite Nat.add_succ_r.
      * rewrite Hst. apply Forall_app. split; [done|]. repeat constructor.
        exact (proj1 Hclock).
      * rewrite Hst, length_app. cbn [length]. lia.
      * rewrite Hst. apply Exists_app. destruct i as [|i]; [right|by left].
        apply Exists_cons. by left.
  - apply Z.ltb_ge in Hroom.
    destruct i as [|i]; [lia|].
    destruct (middleware_refused cfg clock identifier st t0) as [Hres Hst]; try done.
    { lia. }
    destruct (middleware cfg clock identifier st) as [r st1].
    cbn [fst snd] in Hres, Hst.
    specialize (IH st1 (S (S i)) Hclocks).
    destruct (middlewareRequests cfg identifier clocks st1) as [rs st2].
    cbn [fst] in IH |- *. f_equal.
    + rewrite Hres. unfold middlewareOutcome. rewrite Nat.add_0_r.
      by rewrite (proj2 (Z.ltb_ge _ _) Hroom).
    + rewrite IH.
      * apply imap_ext. intros j x _. cbn. by rewrite Nat.add_succ_r.
      * by rewrite Hst.
      * rewrite Hst. lia.
      * by rewrite Hst.
Qed.

(** X7. Through the middleware, a client that sends all its requests
    within one window after its first one has exactly the first
    [maxRequests] of them passed on, each with a remaining quota one
    lower than the one before, and every later one refused; the wait
    announced to it is always the time until the first request leaves
    the window, in whole seconds rounded up. *)
Theorem middleware_passes_the_first_maxRequests cfg identifier first rest :
  skipSuccessfulRequests cfg = false ->
  1 <= maxRequests cfg ->
  Forall (passWithin cfg (readStamp first)) (first :: rest) ->
  fst (middlewareRequests cfg identifier (first :: rest) empty)
  = imap (middlewareOutcome cfg (readStamp first)) (first :: rest).
Proof.
  intros Hskip Hmax Hclocks.
  rewrite (middlewareRequests_from cfg identifier (readStamp first) (first :: rest)
             Hskip Hmax empty 0 Hclocks).
  - by apply imap_ext.
  - rewrite stored_empty. constructor.
  - by rewrite stored_empty.
  - reflexivity.
Qed.

Lemma middleware_passes_the_first_maxRequests_witness :
  fst (middlewareRequests (defaultConfig 2 60000) "10.0.0.1"
         [clockAt 1000; clockAt 2500; clockAt 59000] empty)
  = [ Next 2 1 61; Next 2 0 62; TooManyRequests 2 ].
Proof.
  rewrite (middleware_passes_the_first_maxRequests (defaultConfig 2 60000) "10.0.0.1"
             (clockAt 1000) [clockAt 2500; clockAt 59000]).
  - reflexivity.
  - reflexivity.
  - simpl. lia.
  - unfold passWithin, clockAt. repeat (constructor; cbn); lia.
Defined.

(** *** The wait that is announced *)

Lemma withinLimits_run cfg (ops : list Op) : withinLimits cfg (run cfg ops).
Proof.
  unfold run. generalize (withinLimits_empty cfg). generalize empty.
  induction ops as [|op ops IH]; intros st Hst; [done|].
  cbn [fold_left]. by apply IH, withinLimits_step.
Qed.

Lemma filter_shorter_Exists {A : Type} (f : A -> bool) (l : list A) :
  (length (List.filter f l) < length l)%nat -> exists x, In x l /\ f x = false.
Proof.
  induction l as [|x l IH]; cbn [List.filter length]; [lia|].
  destruct (f x) eqn:E; cbn [length]; intros Hlen.
  - destruct IH as [y [Hy Hfy]]; [lia|]. exists y. split; [by right|done].
  - exists x. split; [by left|done].
Qed.

(** X23. The wait that [getStatus] announces is exact. When a limiter
    with a positive limit reports that an identifier has nothing left,
    the reset time it reports is positive, and from then on
    [canMakeRequest] refuses the identifier at every time before that
    wait is over and admits it at every time from then on. *)
Theorem announced_wait_is_exact cfg (ops : list Op) identifier now later :
  1 <= maxRequests cfg ->
  remaining (fst (getStatus cfg now now identifier (run cfg ops))) = 0 ->
  now <= later ->
  0 < resetTimeMs (fst (getStatus cfg now now identifier (run cfg ops)))
  /\ (fst (canMakeRequest cfg later identifier (run cfg ops)) = true
      <-> now + resetTimeMs (fst (getStatus cfg now now identifier (run cfg ops)))
          <= later).
Proof.
  intros Hmax Hnone Hlater.
  rewrite getStatus_resetTimeMs, canMakeRequest_result.
  assert (Hrem : remaining (fst (getStatus cfg now now identifier (run cfg ops)))
                 = fst (getRemainingRequests cfg now identifier (run cfg ops))).
  { unfold getStatus.
    destruct (getRemainingRequests cfg now identifier (run cfg ops)) as [left st']. done. }
  rewrite Hrem, getRemainingRequests_result in Hnone. clear Hrem.
  unfold resetInSpec. rewrite activeRecords_filter.
  set (rs := stored (keyGenerator cfg identifier) (run cfg ops)) in *.
  pose proof (List.filter_length_le (inWindow cfg now) rs) as Hle.
  assert (Hall : List.filter (inWindow cfg now) rs = rs
                 /\ Z.of_nat (length rs) = maxRequests cfg).
  { pose proof (stored_within cfg (keyGenerator cfg identifier) (run cfg ops)
                  (withinLimits_run cfg ops)) as Hwithin.
    fold rs in Hwithin. destruct Hwithin as [Hnil|Hbound].
    - rewrite Hnil in Hnone. cbn in Hnone. lia.
    - split; [apply filter_all_length|]; lia. }
  destruct Hall as [Hall Hfull]. rewrite Hall.
  destruct rs as [|r rs'] eqn:Hrs; [cbn in Hfull; lia|]. rewrite <- Hrs in *.
  set (oldest := mathMin (timestamp r) (map timestamp rs')).
  assert (Hin : exists r0, In r0 rs /\ timestamp r0 = oldest).
  { pose proof (mathMin_In (timestamp r) (map timestamp rs')) as Hin.
    change (timestamp r :: map timestamp rs') with (map timestamp (r :: rs')) in Hin.
    rewrite <- Hrs in Hin. apply in_map_iff in Hin as [r0 [Hr0 Hin]]. by exists r0. }
  assert (Hmin : forall r0, In r0 rs -> oldest <= timestamp r0).
  { intros r0 Hr0. apply mathMin_le.
    change (timestamp r :: map timestamp rs') with (map timestamp (r :: rs')).
    rewrite <- Hrs. by apply in_map. }
  destruct Hin as [r0 [Hr0 Holdest]].
  assert (Hvalid : inWindow cfg now r0 = true).
  { rewrite <- Hall in Hr0. apply filter_In in Hr0. tauto. }
  unfold inWindow in Hvalid. apply Z.ltb_lt in Hvalid.
  split; [lia|]. rewrite Z.ltb_lt. split.
  - intros Hroom.
    destruct (filter_shorter_Exists (inWindow cfg later) rs) as [r1 [Hr1 Hout]]; [lia|].
    unfold inWindow in Hout. apply Z.ltb_ge in Hout.
    specialize (Hmin r1 Hr1). lia.
  - intros Hover.
    pose proof (filter_length_lt (inWindow cfg later) rs r0 Hr0) as Hshort.
    unfold inWindow at 1 in Hshort. rewrite (proj2 (Z.ltb_ge _ _)) in Hshort by lia.
    specialize (Hshort eq_refl). lia.
Qed.

Lemma announced_wait_is_exact_witness :
  0 < resetTimeMs (fst (getStatus (defaultConfig 1 60000) 10 10 "alice"
                          (run (defaultConfig 1 60000) [OpRecordRequest "alice" true 0 0])))
  /\ (fst (canMakeRequest (defaultConfig 1 60000) 60000 "alice"
             (run (defaultConfig 1 60000) [OpRecordRequest "alice" true 0 0])) = true
      <-> 10 + resetTimeMs (fst (getStatus (defaultConfig 1 60000) 10 10 "alice"
                                   (run (defaultConfig 1 60000)
                                      [OpRecordRequest "alice" true 0 0])))
          <= 60000).
Proof.
  apply (announced_wait_is_exact (defaultConfig 1 60000)
           [OpRecordRequest "alice" true 0 0] "alice" 10 60000).
  - cbn. lia.
  - reflexivity.
  - lia.
Defined.

End RateLimiterFurther.

(** ** The server *)

Section ServerProperties.

Import RateLimiter Server.

Lemma cleanup_empty cfg now : cleanup cfg now empty = empty.
Proof. unfold cleanup, empty. apply omap_empty. Qed.

Lemma serve_empty cfg events :
  serve cfg events empty
  = repeat (if 0 <? maxRequests cfg then Dispatched else RateLimitExceeded)
      (length (List.filter (fun ev => match ev with ToolCall _ => true | Tick _ => false end)
                 events)).
Proof.
  induction events as [|[now|now] events IH]; [done| |].
  - cbn [serve List.filter length repeat]. unfold checkRateLimit, canMakeRequest.
    rewrite getValidRequests_empty. cbn [length Z.of_nat]. rewrite IH.
    change (Z.of_nat 0) with 0. by destruct (0 <? maxRequests cfg).
  - cbn [serve List.filter]. by rewrite cleanup_empty.
Qed.

(** X8. The server checks its limiter before every tool call but never
    records a request in it, so the limit is never reached: whatever
    positive limit is configured, and however many tool calls arrive
    however fast, with the limiter's timer firing in between or not,
    every call goes through to its tool. (With a limit of 0 or less every
    call is refused.) *)
Theorem server_never_reaches_its_rate_limit (maxRequestsPerMinute : Z)
    (events : list Event) :
  let answers := serve (rateLimiter maxRequestsPerMinute) events empty in
  length answers
  = length (List.filter (fun ev => match ev with ToolCall _ => true | Tick _ => false end)
              events)
  /\ (1 <= maxRequestsPerMinute -> Forall (fun gate => gate = Dispatched) answers)
  /\ (maxRequestsPerMinute <= 0 -> Forall (fun gate => gate = RateLimitExceeded) answers).
Proof.
  intros answers. unfold answers. rewrite serve_empty.
  change (maxRequests (rateLimiter maxRequestsPerMinute)) with maxRequestsPerMinute.
  split; [apply repeat_length|]. split; intros Hmax.
  - rewrite (proj2 (Z.ltb_lt _ _)) by lia. apply Forall_forall.
    intros gate Hin. apply list_elem_of_In in Hin. by apply repeat_spec in Hin.
  - rewrite (proj2 (Z.ltb_ge _ _)) by lia. apply Forall_forall.
    intros gate Hin. apply list_elem_of_In in Hin. by apply repeat_spec in Hin.
Qed.

End ServerProperties.

(** ** The cache *)

Section CacheReads.

Import CacheService.

Context {V : Type}.

Implicit Types (s : Store V) (e : CacheEntry V) (p q : string * CacheEntry V).

(** *** Lookups in a store with distinct keys *)

Lemma mapGet_notin key s : ~ In key (map fst s) -> mapGet key s = None.
Proof.
  induction s as [|[k e] s IH]; simpl; [done|].
  intros Hnot. destruct (String.eqb_spec k key) as [->|Hk]; [tauto|].
  apply IH. tauto.
Qed.

Lemma mapGet_mapDelete_ne key k s :
  key <> k -> mapGet k (mapDelete key s) = mapGet k s.
Proof.
  intros Hne. unfold mapDelete. induction s as [|[k0 e] s IH]; simpl; [done|].
  destruct (String.eqb_spec k0 key) as [->|Hk0]; simpl.
  - by destruct (String.eqb_spec key k).
  - by rewrite IH.
Qed.

Lemma mapGet_filter (f : string * CacheEntry V -> bool) key s :
  distinctKeys s ->
  mapGet key (List.filter f s)
  = match mapGet key s with
    | Some e => if f (key, e) then Some e else None
    | None => None
    end.
Proof.
  unfold distinctKeys. induction s as [|[k e] s IH]; simpl; [done|].
  intros Hs. apply NoDup_cons in Hs as [Hk Hs].
  destruct (String.eqb_spec k key) as [->|Hne].
  - destruct (f (key, e)) eqn:Hf; simpl; [by rewrite String.eqb_refl|].
    apply mapGet_notin. intros Hin. apply Hk.
    apply in_map_iff in Hin as [q [Hq Hin]]. apply filter_In in Hin as [Hin _].
    apply list_elem_of_In, in_map_iff. by exists q.
  - destruct (f (k, e)); simpl; [|by apply IH].
    destruct (String.eqb_spec k key); [done|by apply IH].
Qed.

Lemma In_mapGet key e s : distinctKeys s -> In (key, e) s -> mapGet key s = Some e.
Proof.
  unfold distinctKeys. induction s as [|[k e'] s IH]; simpl; [done|].
  intros Hs. apply NoDup_cons in Hs as [Hk Hs]. intros [[= -> ->]|Hin].
  - by rewrite String.eqb_refl.
  - destruct (String.eqb_spec k key) as [->|Hne]; [|by apply IH].
    exfalso. apply Hk. apply list_elem_of_In, in_map_iff. by exists (key, e).
Qed.

Lemma length_mapDelete key s :
  distinctKeys s ->
  (length (mapDelete key s) + (if mapHas key s then 1 else 0) = length s)%nat.
Proof.
  unfold distinctKeys, mapDelete, mapHas. induction s as [|[k e] s IH]; simpl; [done|].
  intros Hs. apply NoDup_cons in Hs as [Hk Hs].
  destruct (String.eqb_spec k key) as [->|Hne]; simpl.
  - specialize (IH Hs). rewrite mapGet_notin in IH; [lia|].
    intros Hin. by apply Hk, list_elem_of_In.
  - specialize (IH Hs). lia.
Qed.

(** *** Distinct keys are kept *)

Lemma distinctKeys_set cfg key (v : V) ttlMinutes now s :
  distinctKeys s -> distinctKeys (set cfg key v ttlMinutes now s).
Proof.
  intros Hs. unfold set. apply distinctKeys_mapSet.
  destruct (size s >=? maxSize cfg); [|done].
  rewrite evictOldest_filter. by apply distinctKeys_filter.
Qed.

Lemma distinctKeys_step cfg s (op : Op V) :
  distinctKeys s -> distinctKeys (step cfg s op).
Proof.
  intros Hs.
  destruct op as [key v ttlMinutes now|key now|key now|key| |key ttlMinutes now|now];
    simpl.
  - by apply distinctKeys_set.
  - unfold get. destruct (mapGet key s) as [e|]; [|done].
    destruct (expired now e); simpl;
      [by apply distinctKeys_filter|by apply distinctKeys_mapSet].
  - unfold has. destruct (mapGet key s) as [e|]; [|done].
    destruct (expired now e); simpl; [by apply distinctKeys_filter|done].
  - by apply distinctKeys_filter.
  - constructor.
  - unfold refresh. destruct (mapGet key s) as [e|]; [|done].
    simpl. by apply distinctKeys_mapSet.
  - by apply distinctKeys_filter.
Qed.

Lemma distinctKeys_fold cfg (ops : list (Op V)) s :
  distinctKeys s -> distinctKeys (fold_left (step cfg) ops s).
Proof.
  revert s. induction ops as [|op ops IH]; intros s Hs; simpl; [done|].
  by apply IH, distinctKeys_step.
Qed.

Lemma distinctKeys_run cfg (ops : list (Op V)) : distinctKeys (run cfg ops).
Proof. apply distinctKeys_fold. constructor. Qed.

(** *** Removing a key *)

(** X9. [delete] answers true exactly when the store holds an entry
    under the key, expired or not; afterwards the key is a miss for [get]
    and [has] at any time and a second [delete] answers false; every
    other key keeps its entry, and the store is one entry smaller when
    the answer was true. *)
Theorem delete_removes_one_key cfg (ops : list (Op V)) key :
  let s := run cfg ops in
  let s' := snd (delete key s) in
  (fst (delete key s) = true <-> exists e, mapGet key s = Some e)
  /\ (forall now, fst (get key now s') = None /\ fst (has key now s') = false)
  /\ fst (delete key s') = false
  /\ (forall k, k <> key -> mapGet k s' = mapGet k s)
  /\ size s' = size s - (if fst (delete key s) then 1 else 0).
Proof.
  intros s s'. unfold s', delete. cbn [fst snd].
  assert (Hgone : mapGet key (mapDelete key s) = None) by apply mapGet_mapDelete_eq.
  split; [|split; [|split; [|split]]].
  - unfold mapHas. destruct (mapGet key s) as [e|]; split; try done.
    + by exists e.
    + by intros [e He].
  - intros now. unfold get, has. by rewrite Hgone.
  - unfold mapHas. by rewrite Hgone.
  - intros k Hk. by apply mapGet_mapDelete_ne.
  - pose proof (length_mapDelete key s (distinctKeys_run cfg ops)) as Hlen.
    unfold size. destruct (mapHas key s); lia.
Qed.

(** *** What a read can return *)

Lemma mapGet_filter_Some (f : string * CacheEntry V -> bool) key e s :
  distinctKeys s -> mapGet key (List.filter f s) = Some e -> mapGet key s = Some e.
Proof.
  intros Hs. rewrite mapGet_filter by done.
  destruct (mapGet key s) as [e'|]; [|done]. by destruct (f (key, e')).
Qed.

Lemma get_result key now s :
  fst (get key now s)
  = match mapGet key s with
    | Some e => if expired now e then None else Some (data e)
    | None => None
    end.
Proof. unfold get. destruct (mapGet key s) as [e|]; [|done]. by destruct (expired now e). Qed.

Lemma has_result key now s :
  fst (has key now s)
  = match mapGet key s with
    | Some e => negb (expired now e)
    | None => false
    end.
Proof. unfold has. destruct (mapGet key s) as [e|]; [|done]. by destruct (expired now e). Qed.

(** Only [set] and [refresh] on a key write what its entry carries as
    payload and expiry. *)
Lemma payload_step cfg key (v : V) (t T : Z) s (op : Op V) :
  distinctKeys s -> rewrites key op = false ->
  (forall e, mapGet key s = Some e -> data e = v /\ timestamp e = t /\ ttl e = T) ->
  forall e, mapGet key (step cfg s op) = Some e ->
            data e = v /\ timestamp e = t /\ ttl e = T.
Proof.
  intros Hs Hop Hinv e.
  destruct op as [k v0 ttlMinutes now|k now|k now|k| |k ttlMinutes now|now];
    cbn [step rewrites] in Hop |- *.
  - apply String.eqb_neq in Hop. unfold set. rewrite mapGet_mapSet_ne by done.
    destruct (size s >=? maxSize cfg); [|apply Hinv].
    rewrite evictOldest_filter. intros He. by apply Hinv, (mapGet_filter_Some _ _ _ _ Hs He).
  - unfold get. destruct (mapGet k s) as [e0|] eqn:E0; [|apply Hinv].
    destruct (expired now e0); cbn [snd].
    + intros He. by apply Hinv, (mapGet_filter_Some _ _ _ _ Hs He).
    + destruct (String.eqb_spec k key) as [->|Hne].
      * rewrite mapGet_mapSet_eq. intros [= <-]. cbn. by apply Hinv.
      * rewrite mapGet_mapSet_ne by done. apply Hinv.
  - unfold has. destruct (mapGet k s) as [e0|] eqn:E0; [|apply Hinv].
    destruct (expired now e0); cbn [snd]; [|apply Hinv].
    intros He. by apply Hinv, (mapGet_filter_Some _ _ _ _ Hs He).
  - cbn [delete snd]. intros He. by apply Hinv, (mapGet_filter_Some _ _ _ _ Hs He).
  - done.
  - apply String.eqb_neq in Hop. unfold refresh.
    destruct (mapGet k s) as [e0|] eqn:E0; [|apply Hinv].
    cbn [snd]. rewrite mapGet_mapSet_ne by done. apply Hinv.
  - intros He. by apply Hinv, (mapGet_filter_Some _ _ _ _ Hs He).
Qed.

Lemma payload_fold cfg key (v : V) (t T : Z) (ops : list (Op V)) s :
  forallb (fun op => negb (rewrites key op)) ops = true ->
  distinctKeys s ->
  (forall e, mapGet key s = Some e -> data e = v /\ timestamp e = t /\ ttl e = T) ->
  forall e, mapGet key (fold_left (step cfg) ops s) = Some e ->
            data e = v /\ timestamp e = t /\ ttl e = T.
Proof.
  revert s. induction ops as [|op ops IH]; intros s Hops Hs Hinv; [exact Hinv|].
  cbn [forallb] in Hops. apply andb_prop in Hops as [Hop Hops].
  apply negb_true_iff in Hop. cbn [fold_left].
  apply IH; [done|by apply distinctKeys_step|by apply payload_step].
Qed.

(** X10. What [get] returns for a key is the value of the latest [set]
    of that key, and only while that [set] is no older than its TTL:
    whatever calls were made before the [set], and whatever calls other
    than a [set] or [refresh] of the key come after it (reads of the key
    included, which never prolong the life of the entry), a later [get]
    either misses or returns that value, and it misses once the TTL has
    passed. *)
Theorem get_returns_the_latest_set_within_its_ttl cfg (ops1 ops2 : list (Op V))
    key (v v' : V) ttlMinutes now later :
  forallb (fun op => negb (rewrites key op)) ops2 = true ->
  fst (get key later (run cfg (ops1 ++ OpSet key v ttlMinutes now :: ops2))) = Some v' ->
  v' = v /\ later - now <= ttlOf cfg ttlMinutes.
Proof.
  intros Hops Hget. unfold run in Hget. rewrite fold_left_app in Hget.
  cbn [fold_left step] in Hget. rewrite get_result in Hget.
  destruct (mapGet key _) as [e|] eqn:He in Hget; [|done].
  apply (payload_fold cfg key v now (ttlOf cfg ttlMinutes)) in He as (Hd & Ht & HT).
  - unfold expired in Hget. rewrite Ht, HT in Hget.
    destruct (Z.gtb_spec (later - now) (ttlOf cfg ttlMinutes)); [done|].
    injection Hget as <-. split; [done|lia].
  - done.
  - apply distinctKeys_set, distinctKeys_run.
  - intros e'. rewrite mapGet_set. by intros [= <-].
Qed.

End CacheReads.

Lemma get_returns_the_latest_set_within_its_ttl_witness :
  fst (CacheService.get "a" 60500
         (CacheService.run (CacheService.mkConfig 30 2)
            ([CacheService.OpSet "a" "old"%string None 0]
             ++ CacheService.OpSet "a" "new"%string (Some 1) 500
                :: [CacheService.OpGet "a" 700;
                    CacheService.OpSet "b" "2"%string None 800;
                    CacheService.OpCleanup 900])))
  = Some "new"%string
  /\ "new"%string = "new"%string /\ 60500 - 500 <= 60000.
Proof.
  assert (Hget : fst (CacheService.get "a" 60500
            (CacheService.run (CacheService.mkConfig 30 2)
               ([CacheService.OpSet "a" "old"%string None 0]
                ++ CacheService.OpSet "a" "new"%string (Some 1) 500
                   :: [CacheService.OpGet "a" 700;
                       CacheService.OpSet "b" "2"%string None 800;
                       CacheService.OpCleanup 900])))
          = Some "new"%string) by (vm_compute; reflexivity).
  split; [exact Hget|].
  exact (get_returns_the_latest_set_within_its_ttl (CacheService.mkConfig 30 2)
           [CacheService.OpSet "a" "old"%string None 0]
           [CacheService.OpGet "a" 700; CacheService.OpSet "b" "2"%string None 800;
            CacheService.OpCleanup 900]
           "a" "new"%string "new"%string (Some 1) 500 60500 eq_refl Hget).
Defined.

Section CacheMaintenance.

Import CacheService.

Context {V : Type}.

Implicit Types (s : Store V) (e : CacheEntry V) (p q : string * CacheEntry V).

(** *** Refreshing *)

(** X11. [refresh] on a key that has no entry answers false and changes
    nothing. On a key that has one it answers true and restarts the life
    of the entry at the time of the call, with the TTL given (the default
    one when none or 0 is given): until that TTL has passed [get] returns
    the payload, unchanged, and afterwards it misses. It does not look at
    the expiry first, so it revives an entry that has expired but has not
    been removed yet. The access count and the last access, by which
    eviction ranks, are not touched, nor is any other key, nor the order
    of the keys. *)
Theorem refresh_restarts_the_life_of_an_entry cfg key ttlMinutes now s :
  let s' := snd (refresh cfg key ttlMinutes now s) in
  let T := ttlOf cfg ttlMinutes in
  match mapGet key s with
  | None => refresh cfg key ttlMinutes now s = (false, s)
  | Some e =>
      fst (refresh cfg key ttlMinutes now s) = true
      /\ (forall later, later - now <= T -> fst (get key later s') = Some (data e))
      /\ (forall later, T < later - now -> fst (get key later s') = None)
      /\ (expired now e = true -> 0 <= T ->
          fst (get key now s) = None /\ fst (get key now s') = Some (data e))
      /\ option_map accessCount (mapGet key s') = Some (accessCount e)
      /\ option_map lastAccessed (mapGet key s') = Some (lastAccessed e)
      /\ (forall k, k <> key -> mapGet k s' = mapGet k s)
      /\ map fst s' = map fst s
  end.
Proof.
  intros s' T. unfold s', refresh.
  destruct (mapGet key s) as [e|] eqn:He; [|done]. cbn [fst snd].
  assert (Hfresh : forall later, later - now <= T ->
            fst (get key later
                   (mapSet key
                      {| data := data e; timestamp := now; ttl := ttlOf cfg ttlMinutes;
                         accessCount := accessCount e; lastAccessed := lastAccessed e |} s))
            = Some (data e)).
  { intros later Hage. rewrite get_result, mapGet_mapSet_eq.
    unfold expired; cbn [timestamp ttl data]. fold T.
    by destruct (Z.gtb_spec (later - now) T); [lia|]. }
  split; [done|]. split; [exact Hfresh|]. split; [|split; [|split; [|split; [|split]]]].
  - intros later Hage. rewrite get_result, mapGet_mapSet_eq.
    unfold expired; cbn [timestamp ttl data]. fold T.
    by destruct (Z.gtb_spec (later - now) T); [|lia].
  - intros Hexp HT. split; [|apply Hfresh; lia].
    by rewrite get_result, He, Hexp.
  - by rewrite mapGet_mapSet_eq.
  - by rewrite mapGet_mapSet_eq.
  - intros k Hk. by apply mapGet_mapSet_ne.
  - by rewrite keys_mapSet, (mapGet_mapHas _ _ _ He).
Qed.

(** *** The periodic sweep *)

Lemma expired_later now later e : now <= later -> expired now e = true -> expired later e = true.
Proof. unfold expired. rewrite !Z.gtb_ltb, !Z.ltb_lt. lia. Qed.

(** X12. The periodic [cleanup] removes exactly the entries that have
    expired at its clock read and keeps the others in their order; no
    reader can tell that it ran: at that time or later [get] and [has]
    answer for every key as they would have without it. Sweeping twice is
    sweeping once. *)
Theorem cache_cleanup_is_transparent cfg (ops : list (Op V)) now :
  let s := run cfg ops in
  (forall q, In q (cleanup now s) <-> In q s /\ expired now (snd q) = false)
  /\ (forall key later, now <= later ->
        fst (get key later (cleanup now s)) = fst (get key later s)
        /\ fst (has key later (cleanup now s)) = fst (has key later s))
  /\ cleanup now (cleanup now s) = cleanup now s
  /\ sublist (cleanup now s) s.
Proof.
  intros s. split; [|split; [|split]].
  - intros q. unfold cleanup. rewrite filter_In, negb_true_iff. tauto.
  - intros key later Hle. rewrite !get_result, !has_result. unfold cleanup.
    rewrite mapGet_filter by apply distinctKeys_run. cbn [snd].
    destruct (mapGet key s) as [e|]; [|done].
    destruct (expired now e) eqn:Hexp; cbn [negb]; [|done].
    by rewrite (expired_later _ _ _ Hle Hexp).
  - unfold cleanup. rewrite filter_filter. apply List.filter_ext.
    intros q. by rewrite andb_diag.
  - unfold cleanup. generalize s. intros l. induction l as [|q l IH]; simpl; [constructor|].
    destruct (negb (expired now (snd q))); by constructor.
Qed.

(** *** Making room *)

Lemma NoDup_entries s : distinctKeys s -> NoDup s.
Proof. unfold distinctKeys. apply NoDup_fmap_1. Qed.

Lemma victims_length cfg s :
  length (victims cfg s) = Nat.min (Z.to_nat (toRemove cfg)) (length s).
Proof.
  unfold victims. rewrite length_firstn.
  by rewrite <- (Permutation_length (sortEntries_perm s)).
Qed.

Lemma victims_NoDup cfg s : distinctKeys s -> NoDup (victims cfg s).
Proof.
  intros Hs. apply NoDup_entries in Hs.
  assert (Hsorted : NoDup (sortEntries s)).
  { apply NoDup_ListNoDup. eapply Permutation_NoDup; [symmetry; apply sortEntries_perm|].
    by apply NoDup_ListNoDup. }
  unfold victims.
  rewrite <- (firstn_skipn (Z.to_nat (toRemove cfg)) (sortEntries s)) in Hsorted.
  by apply NoDup_app in Hsorted as [? _].
Qed.

(** With distinct keys [evictOldest] removes as many entries as it picks. *)
Lemma evictOldest_length cfg s :
  distinctKeys s ->
  (length (evictOldest cfg s) + Nat.min (Z.to_nat (toRemove cfg)) (length s)
   = length s)%nat.
Proof.
  intros Hs. rewrite evictOldest_filter.
  pose proof (List.filter_length (fun q => negb (hasVictimKey cfg s q)) s) as Hsum.
  assert (length (List.filter (fun q => negb (negb (hasVictimKey cfg s q))) s)
          = length (victims cfg s)) as Heq.
  { apply Nat.le_antisymm.
    - apply NoDup_incl_length.
      + by apply NoDup_ListNoDup, NoDup_list_filter, NoDup_entries.
      + intros q Hq. apply filter_In in Hq as [Hq Hv]. rewrite negb_involutive in Hv.
        by apply hasVictimKey_In.
    - apply NoDup_incl_length.
      + by apply NoDup_ListNoDup, victims_NoDup.
      + intros q Hq. apply filter_In. split; [by eapply victims_In|].
        by rewrite negb_involutive, In_hasVictimKey. }
  rewrite victims_length in Heq. lia.
Qed.

(** X13. [set] makes room only when it finds the store at its capacity,
    and it never alters the entry of another key. With room left, every
    other key keeps its entry and the store grows by one entry if the key
    is new and by none if it is overwritten. At capacity exactly
    [max(1, floor(maxSize / 10))] entries are evicted (all of them, if the
    store holds fewer), also when the key is only overwritten. In either
    case an entry found under another key afterwards is the entry that
    was there before. *)
Theorem set_makes_room_only_at_capacity cfg (ops : list (Op V)) key (v : V)
    ttlMinutes now :
  let s := run cfg ops in
  let s' := set cfg key v ttlMinutes now s in
  (size s < maxSize cfg ->
     (forall k, k <> key -> mapGet k s' = mapGet k s)
     /\ size s' = size s + (if mapHas key s then 0 else 1))
  /\ (maxSize cfg <= size s ->
        size (evictOldest cfg s) = size s - Z.min (Z.max 1 (maxSize cfg / 10)) (size s)
        /\ size s' = size (evictOldest cfg s)
                     + (if mapHas key (evictOldest cfg s) then 0 else 1))
  /\ (forall k e, k <> key -> mapGet k s' = Some e -> mapGet k s = Some e).
Proof.
  intros s s'. pose proof (distinctKeys_run cfg ops) as Hs. fold s in Hs.
  unfold s', set. split; [|split].
  - intros Hroom. destruct (Z.geb_spec (size s) (maxSize cfg)); [lia|].
    split; [intros k Hk; by apply mapGet_mapSet_ne|].
    unfold size. rewrite length_mapSet. destruct (mapHas key s); lia.
  - intros Hfull. destruct (Z.geb_spec (size s) (maxSize cfg)); [|lia].
    pose proof (evictOldest_length cfg s Hs) as Hlen.
    unfold size, toRemove in *. rewrite length_mapSet. split; [lia|].
    destruct (mapHas key (evictOldest cfg s)); lia.
  - intros k e Hk. rewrite mapGet_mapSet_ne by done.
    destruct (size s >=? maxSize cfg); [|done].
    rewrite evictOldest_filter. by apply mapGet_filter_Some.
Qed.

(** *** Get or compute *)

(** X14. [getOrSet] memoises what [fn] resolves to: once it has stored a
    result, a later [getOrSet] of the key returns that result without
    calling [fn] until the TTL has passed, and calls [fn] again
    afterwards. There are two exceptions, both read off the code. A result
    of [null] is stored but is never a hit, so [fn] is called again every
    time. And a miss is not remembered while [fn] runs: a second
    [getOrSet] of the key that starts before the first one has stored its
    result calls [fn] too, and the result stored last is the one kept. *)
Theorem getOrSet_memoises_results {E : Type} cfg (isNull : V -> bool) key ttlMinutes
    (result : V) now s :
  let s1 := snd (getOrSetResume (E:=E) cfg key ttlMinutes (inl result) now s) in
  let T := ttlOf cfg ttlMinutes in
  (forall later, later - now <= T ->
     fst (getOrSetStart isNull key later s1)
     = if isNull result then CallsFn else Cached result)
  /\ (forall later, T < later - now -> fst (getOrSetStart isNull key later s1) = CallsFn)
  /\ (forall t1 t2 now' (result' : V),
        mapGet key s = None ->
        let first := getOrSetStart isNull key t1 s in
        let second := getOrSetStart isNull key t2 (snd first) in
        let s2 := snd (getOrSetResume (E:=E) cfg key ttlMinutes (inl result) now
                         (snd second)) in
        let s3 := snd (getOrSetResume (E:=E) cfg key ttlMinutes (inl result') now' s2) in
        fst first = CallsFn /\ fst second = CallsFn
        /\ option_map data (mapGet key s3) = Some result').
Proof.
  intros s1 T. unfold s1. cbn [getOrSetResume snd].
  assert (Hstart : forall later s0,
            fst (getOrSetStart isNull key later s0)
            = match fst (get key later s0) with
              | Some v => if isNull v then CallsFn else Cached v
              | None => CallsFn
              end).
  { intros later s0. unfold getOrSetStart.
    destruct (get key later s0) as [[v0|] s0']; cbn [fst]; [|done].
    by destruct (isNull v0). }
  split; [|split].
  - intros later Hage. rewrite Hstart, get_result, mapGet_set.
    unfold expired; cbn [timestamp ttl data]. fold T.
    by destruct (Z.gtb_spec (later - now) T); [lia|].
  - intros later Hage. rewrite Hstart, get_result, mapGet_set.
    unfold expired; cbn [timestamp ttl data]. fold T.
    by destruct (Z.gtb_spec (later - now) T); [|lia].
  - intros t1 t2 now' result' Hmiss. cbv zeta.
    assert (Hmisses : forall t, getOrSetStart isNull key t s = (CallsFn, s)).
    { intros t. unfold getOrSetStart, get. by rewrite Hmiss. }
    rewrite !Hmisses. cbn [fst snd]. rewrite ?Hmisses. cbn [fst snd].
    repeat split. by rewrite mapGet_set.
Qed.

End CacheMaintenance.

(** ** The orchestrator *)

(** Two cache keys with different prefixes differ. *)
Ltac keys_differ := let H := fresh in intros H; cbn in H; discriminate H.

Section AnalyzerFurther.

Import PropertyAnalyzer.

(** *** How bodies compose *)

Lemma complete_bind env {A B : Type} (m : Async A) (f : A -> Async B) w :
  complete env (bind m f) w
  = match snd (complete env m w) with
    | Fulfilled a => complete env (f a) (fst (complete env m w))
    | Rejected e => (fst (complete env m w), Rejected e)
    end.
Proof.
  revert w. induction m as [a|e|key k IH|key v k IH|k IH|r k IH|ms k IH];
    intros w; cbn [bind complete fst snd]; try done.
  destruct (CacheService.get key (clock w) (cache w)) as [v c]. apply IH.
Qed.

Lemma complete_tryCatch env {A : Type} (body : Async A) (handler : Thrown -> Async A) w :
  complete env (tryCatch body handler) w
  = match snd (complete env body w) with
    | Fulfilled a => (fst (complete env body w), Fulfilled a)
    | Rejected e => complete env (handler e) (fst (complete env body w))
    end.
Proof.
  revert w. induction body as [a|e|key k IH|key v k IH|k IH|r k IH|ms k IH];
    intros w; cbn [tryCatch complete fst snd]; try done.
  destruct (CacheService.get key (clock w) (cache w)) as [v c]. apply IH.
Qed.

(** The look-up a provider starts with. *)
Lemma complete_cacheGet env {A : Type} key (k : option JsAny -> Async A) w :
  complete env (bind (cacheGet key) k) w
  = complete env (k (fst (CacheService.get key (clock w) (cache w))))
      (withCache w (snd (CacheService.get key (clock w) (cache w)))).
Proof.
  cbn [bind cacheGet complete].
  by destruct (CacheService.get key (clock w) (cache w)) as [v c].
Qed.

Lemma complete_cacheSet env {A : Type} key v (k : Async A) w :
  complete env (bind (cacheSet key v) (fun _ => k)) w
  = complete env k
      (withCache w (CacheService.set (cacheConfig env) key v None (clock w) (cache w))).
Proof. reflexivity. Qed.

Lemma complete_axiosGet env r w :
  complete env (axiosGet r) w
  = (advance (send w r) (elapsed env r), respond env r).
Proof. cbn [axiosGet complete]. by destruct (respond env r). Qed.

(** A hit: the entry is there and has not expired. *)
Lemma get_hit key (v : JsAny) (stamp T now : Z) count accessed
    (c : CacheService.Store JsAny) :
  CacheService.mapGet key c
  = Some {| CacheService.data := v; CacheService.timestamp := stamp;
            CacheService.ttl := T; CacheService.accessCount := count;
            CacheService.lastAccessed := accessed |} ->
  now - stamp <= T ->
  fst (CacheService.get key now c) = Some v.
Proof.
  intros Hget Hage. rewrite get_result, Hget. unfold CacheService.expired.
  cbn. by destruct (Z.gtb_spec (now - stamp) T); [lia|].
Qed.

(** *** What bodies end with *)

Lemma Leaves_impl {A : Type} (P P' : A -> Prop) (T T' : Thrown -> Prop) (m : Async A) :
  (forall a, P a -> P' a) -> (forall e, T e -> T' e) ->
  Leaves P T m -> Leaves P' T' m.
Proof. intros HP HT. induction 1; constructor; auto. Qed.

Lemma Leaves_bind {A B : Type} (Q : A -> Prop) (P : B -> Prop) (T : Thrown -> Prop)
    (m : Async A) (f : A -> Async B) :
  Leaves Q T m -> (forall a, Q a -> Leaves P T (f a)) -> Leaves P T (bind m f).
Proof. intros Hm Hf. induction Hm; cbn [bind]; try (constructor; auto); auto. Qed.

Lemma Leaves_tryCatch {A : Type} (P : A -> Prop) (T' T : Thrown -> Prop)
    (body : Async A) (handler : Thrown -> Async A) :
  Leaves P T' body -> (forall e, T' e -> Leaves P T (handler e)) ->
  Leaves P T (tryCatch body handler).
Proof. intros Hb Hh. induction Hb; cbn [tryCatch]; try (constructor; auto); auto. Qed.

Lemma complete_Leaves env {A : Type} (P : A -> Prop) (T : Thrown -> Prop)
    (m : Async A) w :
  Leaves P T m ->
  match snd (complete env m w) with Fulfilled a => P a | Rejected e => T e end.
Proof.
  intros Hm. revert w.
  induction Hm as [a Ha|e He|key k _ IH|key v k _ IH|k _ IH|r k _ IH|ms k _ IH];
    intros w; cbn [complete snd]; try done; try apply IH.
  destruct (CacheService.get key (clock w) (cache w)) as [v c]. apply IH.
Qed.

Lemma complete_Ensures env {A : Type} (P : A -> Prop) (m : Async A) w :
  Leaves P (fun _ => False) m ->
  exists a, snd (complete env m w) = Fulfilled a /\ P a.
Proof.
  intros Hm. pose proof (complete_Leaves env P _ m w Hm) as H.
  destruct (snd (complete env m w)) as [a|e]; [by exists a|done].
Qed.

Lemma axiosGet_Leaves r :
  Leaves (fun _ : Response r => True) (fun _ => True) (axiosGet r).
Proof. constructor. intros [v|e]; by constructor. Qed.

Lemma getLocalAuthority_Leaves env address (T : Thrown -> Prop) :
  Leaves (fun _ => True) T (getLocalAuthority env address).
Proof.
  unfold getLocalAuthority. eapply Leaves_tryCatch with (T' := fun _ => True).
  - eapply Leaves_bind; [apply axiosGet_Leaves|]. intros; by constructor.
  - intros; by constructor.
Qed.

(** *** The seed is resolved once *)

(** What [getCoordinates] does on a miss that postcodes.io answers. *)
Lemma getCoordinates_miss env address w result :
  misses ("coords_" +:+ extractPostcode env address) w ->
  respond env (GetPostcode (extractPostcode env address)) = Fulfilled (Some result) ->
  complete env (getCoordinates env address) w
  = (let w1 :=
       advance
         (send (withCache w (snd (CacheService.get
                                    ("coords_" +:+ extractPostcode env address)
                                    (clock w) (cache w))))
               (GetPostcode (extractPostcode env address)))
         (elapsed env (GetPostcode (extractPostcode env address))) in
     withCache w1
       (CacheService.set (cacheConfig env)
          ("coords_" +:+ extractPostcode env address)
          (VCoordinates {| lat := latitude result; lng := longitude result |})
          None (clock w1) (cache w1)),
     Fulfilled {| lat := latitude result; lng := longitude result |}).
Proof.
  intros Hmiss Hanswer. unfold misses in Hmiss. unfold getCoordinates. cbv zeta.
  rewrite complete_tryCatch, complete_cacheGet, Hmiss.
  rewrite complete_bind, complete_axiosGet. cbn [fst snd]. by rewrite Hanswer.
Qed.

(** What a provider does on a hit: it returns the cached value and sends
    nothing. *)
Lemma complete_hit env {A : Type} key (cast : JsAny -> option A) (v : JsAny) (a : A)
    (miss : Async A) (handler : Thrown -> Async A) w :
  fst (CacheService.get key (clock w) (cache w)) = Some v ->
  cast v = Some a ->
  complete env
    (tryCatch (bind (cacheGet key)
                 (fun cached => match cached with
                                | Some v => returnCached cast v
                                | None => miss
                                end))
       handler) w
  = (withCache w (snd (CacheService.get key (clock w) (cache w))), Fulfilled a).
Proof.
  intros Hhit Hcast. rewrite complete_tryCatch, complete_cacheGet, Hhit.
  unfold returnCached. by rewrite Hcast.
Qed.

(** X15. The seed resolution is memoised. When [getCoordinates] misses
    the cache and postcodes.io answers, it sends that one request, returns
    the coordinates of the answer and stores them; as long as the cache
    keeps that state and no more than the default TTL has passed, a further
    resolution of an address with the same postcode returns the same
    coordinates and sends no request, whatever the network would answer
    then. *)
Theorem geocoding_is_memoised env env' address address' w result :
  misses ("coords_" +:+ extractPostcode env address) w ->
  respond env (GetPostcode (extractPostcode env address)) = Fulfilled (Some result) ->
  extractPostcode env' address' = extractPostcode env address ->
  let coordinates := {| lat := latitude result; lng := longitude result |} in
  let w1 := fst (complete env (getCoordinates env address) w) in
  snd (complete env (getCoordinates env address) w) = Fulfilled coordinates
  /\ issued w1 = issued w ++ [GetPostcode (extractPostcode env address)]
  /\ clock w1 = clock w + elapsed env (GetPostcode (extractPostcode env address))
  /\ forall w2,
       cache w2 = cache w1 ->
       clock w2 - clock w1 <= CacheService.defaultTTL (cacheConfig env) ->
       snd (complete env' (getCoordinates env' address') w2) = Fulfilled coordinates
       /\ issued (fst (complete env' (getCoordinates env' address') w2)) = issued w2
       /\ clock (fst (complete env' (getCoordinates env' address') w2)) = clock w2.
Proof.
  intros Hmiss Hanswer Hsame coordinates w1. unfold w1.
  rewrite (getCoordinates_miss env address w result Hmiss Hanswer).
  cbn [fst snd withCache advance send issued clock cache].
  split; [done|]. split; [done|]. split; [done|].
  intros w2 Hcache Hage.
  unfold getCoordinates. cbv zeta. rewrite Hsame.
  rewrite (complete_hit env' _ asCoordinates (VCoordinates coordinates) coordinates);
    [done| |done].
  rewrite Hcache. eapply get_hit; [apply mapGet_set|]. exact Hage.
Qed.

Lemma geocoding_is_memoised_witness :
  snd (complete testEnv (getCoordinates testEnv testAddress) freshWorld) = Fulfilled london
  /\ forall w2,
       cache w2 = cache (fst (complete testEnv (getCoordinates testEnv testAddress) freshWorld)) ->
       clock w2 - 1700000000050 <= 300000 ->
       snd (complete networkDown (getCoordinates networkDown testAddress) w2)
       = Fulfilled london.
Proof.
  pose proof (geocoding_is_memoised testEnv networkDown testAddress testAddress freshWorld
                {| latitude := (515074 # 10000)%Q; longitude := (- (1278 # 10000))%Q;
                   admin_district := Some "Westminster"%string |}
                eq_refl eq_refl eq_refl) as (Hfirst & _ & _ & Hlater).
  split; [exact Hfirst|].
  intros w2 Hcache Hage. exact (proj1 (Hlater w2 Hcache Hage)).
Defined.

(** *** Failures that are remembered, and failures that are not *)

Lemma misses_mapGet key w :
  misses key w ->
  CacheService.mapGet key (snd (CacheService.get key (clock w) (cache w))) = None.
Proof.
  unfold misses, CacheService.get.
  destruct (CacheService.mapGet key (cache w)) as [entry|] eqn:E; [|done].
  destruct (CacheService.expired (clock w) entry); [|done].
  intros _. apply mapGet_mapDelete_eq.
Qed.

Lemma mapGet_misses key w : CacheService.mapGet key (cache w) = None -> misses key w.
Proof. unfold misses, CacheService.get. by intros ->. Qed.

Lemma getLandRegistryComparables_rejected env postcode w e :
  respond env (GetLandRegistry postcode) = Rejected e ->
  complete env (getLandRegistryComparables env postcode) w
  = (advance (send w (GetLandRegistry postcode)) (elapsed env (GetLandRegistry postcode)),
     Fulfilled []).
Proof.
  intros Hdown. unfold getLandRegistryComparables.
  rewrite complete_tryCatch, complete_bind, complete_axiosGet. cbn [fst snd].
  by rewrite Hdown.
Qed.

(** X16. A failure of the Land Registry is remembered. When
    [getComparables] misses the cache and the request is rejected, it
    returns the empty list and stores the empty list under the key of the
    postcode; as long as the cache keeps that state and no more than the
    default TTL has passed, every further call for the postcode returns
    the empty list without asking the Land Registry, whatever it would
    answer then. *)
Theorem failed_comparables_are_cached env env' coords coords' postcode w e :
  misses ("comparables_" +:+ postcode) w ->
  respond env (GetLandRegistry postcode) = Rejected e ->
  let w1 := fst (complete env (getComparables env coords postcode) w) in
  snd (complete env (getComparables env coords postcode) w) = Fulfilled []
  /\ issued w1 = issued w ++ [GetLandRegistry postcode]
  /\ option_map CacheService.data
       (CacheService.mapGet ("comparables_" +:+ postcode) (cache w1))
     = Some (VComparables [])
  /\ forall w2,
       cache w2 = cache w1 ->
       clock w2 - clock w1 <= CacheService.defaultTTL (cacheConfig env) ->
       snd (complete env' (getComparables env' coords' postcode) w2) = Fulfilled []
       /\ issued (fst (complete env' (getComparables env' coords' postcode) w2))
          = issued w2.
Proof.
  intros Hmiss Hdown w1.
  assert (Hrun : complete env (getComparables env coords postcode) w
            = (let w0 :=
                 advance
                   (send (withCache w (snd (CacheService.get ("comparables_" +:+ postcode)
                                              (clock w) (cache w))))
                         (GetLandRegistry postcode))
                   (elapsed env (GetLandRegistry postcode)) in
               withCache w0
                 (CacheService.set (cacheConfig env) ("comparables_" +:+ postcode)
                    (VComparables []) None (clock w0) (cache w0)),
               Fulfilled [])).
  { unfold misses in Hmiss. unfold getComparables. cbv zeta.
    rewrite complete_tryCatch, complete_cacheGet, Hmiss.
    rewrite complete_bind, (getLandRegistryComparables_rejected _ _ _ e Hdown).
    reflexivity. }
  unfold w1. rewrite Hrun.
  cbn [fst snd withCache advance send issued clock cache].
  split; [done|]. split; [done|]. split; [by rewrite mapGet_set|].
  intros w2 Hcache Hage. unfold getComparables. cbv zeta.
  rewrite (complete_hit env' _ asComparables (VComparables []) []); [done| |done].
  rewrite Hcache. eapply get_hit; [apply mapGet_set|]. exact Hage.
Qed.

Lemma failed_comparables_are_cached_witness :
  snd (complete networkDown (getComparables networkDown london "SW1A1AA") seededWorld)
  = Fulfilled []
  /\ forall w2,
       cache w2
       = cache (fst (complete networkDown (getComparables networkDown london "SW1A1AA")
                       seededWorld)) ->
       clock w2 - 1700000000050 <= 300000 ->
       snd (complete testEnv (getComparables testEnv london "SW1A1AA") w2) = Fulfilled [].
Proof.
  pose proof (failed_comparables_are_cached networkDown testEnv london london "SW1A1AA"
                seededWorld (IsError "Network error") eq_refl eq_refl)
    as (Hfirst & _ & _ & Hlater).
  split; [exact Hfirst|].
  intros w2 Hcache Hage. exact (proj1 (Hlater w2 Hcache Hage)).
Defined.

Lemma getTransportLinks_miss_sends env coords apiKey w :
  misses ("transport_" +:+ coordsKey env coords) w ->
  googlePlacesKey env = Some apiKey ->
  issued (fst (complete env (getTransportLinks env coords) w))
  = issued w ++ [GetPlaces coords "transit_station" apiKey].
Proof.
  intros Hmiss Hkey. unfold misses in Hmiss. unfold getTransportLinks. cbv zeta.
  rewrite complete_tryCatch, complete_cacheGet, Hmiss, Hkey.
  rewrite !complete_bind, complete_axiosGet. cbn [fst snd].
  by destruct (respond env (GetPlaces coords "transit_station" apiKey)).
Qed.

(** X17. A failure of the Places API is not remembered by
    [getTransportLinks]. When it misses the cache and its request is
    rejected, it returns the empty list and stores nothing: the key of the
    location is still absent, and the next call at that state of the cache
    sends the request again. (In [getComparables] the failure is caught
    below the provider and the empty list is cached; here it is caught by
    the provider's own handler, past the [cache.set].) *)
Theorem failed_transport_links_are_not_cached env coords apiKey w e :
  misses ("transport_" +:+ coordsKey env coords) w ->
  googlePlacesKey env = Some apiKey ->
  respond env (GetPlaces coords "transit_station" apiKey) = Rejected e ->
  let w1 := fst (complete env (getTransportLinks env coords) w) in
  snd (complete env (getTransportLinks env coords) w) = Fulfilled []
  /\ issued w1 = issued w ++ [GetPlaces coords "transit_station" apiKey]
  /\ CacheService.mapGet ("transport_" +:+ coordsKey env coords) (cache w1) = None
  /\ forall w2,
       cache w2 = cache w1 ->
       issued (fst (complete env (getTransportLinks env coords) w2))
       = issued w2 ++ [GetPlaces coords "transit_station" apiKey].
Proof.
  intros Hmiss Hkey Hdown w1.
  assert (Hrun : complete env (getTransportLinks env coords) w
            = (advance
                 (send (withCache w (snd (CacheService.get
                                            ("transport_" +:+ coordsKey env coords)
                                            (clock w) (cache w))))
                       (GetPlaces coords "transit_station" apiKey))
                 (elapsed env (GetPlaces coords "transit_station" apiKey)),
               Fulfilled [])).
  { pose proof Hmiss as Hnone. unfold misses in Hnone.
    unfold getTransportLinks. cbv zeta.
    rewrite complete_tryCatch, complete_cacheGet, Hnone, Hkey.
    rewrite !complete_bind, complete_axiosGet. cbn [fst snd]. by rewrite Hdown. }
  unfold w1. rewrite Hrun.
  cbn [fst snd withCache advance send issued clock cache].
  split; [done|]. split; [done|].
  pose proof (misses_mapGet _ _ Hmiss) as Habsent. split; [exact Habsent|].
  intros w2 Hcache. apply getTransportLinks_miss_sends; [|done].
  apply mapGet_misses. by rewrite Hcache.
Qed.

Lemma failed_transport_links_are_not_cached_witness :
  snd (complete networkDown (getTransportLinks networkDown london) seededWorld)
  = Fulfilled []
  /\ CacheService.mapGet ("transport_" +:+ coordsKey networkDown london)
       (cache (fst (complete networkDown (getTransportLinks networkDown london)
                      seededWorld)))
     = None.
Proof.
  pose proof (failed_transport_links_are_not_cached networkDown london "test-google-key"
                seededWorld (IsError "Network error") eq_refl eq_refl eq_refl)
    as (Hfirst & _ & Habsent & _).
  split; [exact Hfirst|exact Habsent].
Defined.

(** *** The property details *)

Lemma areaEstimates_positive (postcodeArea : string) :
  0 < default 400000 (lookup postcodeArea areaEstimates).
Proof.
  unfold areaEstimates. cbn [lookup].
  repeat (destruct (String.eqb _ postcodeArea); [cbn; lia|]). cbn. lia.
Qed.

Lemma scrapeRightmoveDetails_Leaves env address :
  Leaves (fun scraped => forall d, scraped = Some d -> placeholders d) (fun _ => False)
    (scrapeRightmoveDetails env address).
Proof.
  unfold scrapeRightmoveDetails. eapply Leaves_tryCatch with (T' := fun _ => True).
  - eapply Leaves_bind; [apply axiosGet_Leaves|]. intros [card|] _.
    + eapply Leaves_bind; [apply getLocalAuthority_Leaves|].
      intros localAuthority _. constructor. by intros d [= <-].
    + constructor. by intros d.
  - intros e _. constructor. by intros d.
Qed.

Lemma estimatePropertyDetails_Leaves env address :
  Leaves (fun d => 0 < PropertyDetails.currentValue d /\ placeholders d) (fun _ => False)
    (estimatePropertyDetails env address).
Proof.
  unfold estimatePropertyDetails. cbv zeta.
  eapply Leaves_bind; [apply getLocalAuthority_Leaves|].
  intros localAuthority _. constructor. split; [apply areaEstimates_positive|done].
Qed.

(** X18. On a cache miss [getPropertyDetails] always returns details with
    a value other than 0, whatever Rightmove and postcodes.io answer or
    fail to answer: a scraped value of 0 and a failed scrape are both
    replaced by the estimate for the postcode area, which is positive. So
    the provider's default (value 0, everything "Unknown") is never its
    result on a miss. The number of bathrooms, the tenure and the use
    class are 1, "Freehold" and "C3" in every case; and the details
    returned are stored in the cache under the address. *)
Theorem property_details_on_a_miss_are_never_the_default env address coords w :
  misses ("details_" +:+ address) w ->
  exists d,
    snd (complete env (getPropertyDetails env address coords) w) = Fulfilled d
    /\ PropertyDetails.currentValue d <> 0
    /\ PropertyDetails.bathrooms d = 1
    /\ PropertyDetails.tenure d = "Freehold"%string
    /\ PropertyDetails.useClass d = "C3"%string
    /\ d <> getDefaultPropertyDetails
    /\ option_map CacheService.data
         (CacheService.mapGet ("details_" +:+ address)
            (cache (fst (complete env (getPropertyDetails env address coords) w))))
       = Some (VPropertyDetails d).
Proof.
  intros Hmiss. unfold misses in Hmiss. unfold getPropertyDetails. cbv zeta.
  rewrite complete_tryCatch, complete_cacheGet, Hmiss.
  set (w0 := withCache w _).
  rewrite complete_bind.
  destruct (complete_Ensures env _ (scrapeRightmoveDetails env address) w0
              (scrapeRightmoveDetails_Leaves env address)) as [scraped [Hscraped Hfixed]].
  rewrite Hscraped. set (w1 := fst (complete env (scrapeRightmoveDetails env address) w0)).
  rewrite complete_bind.
  set (chosen := match scraped with
                 | Some d => if PropertyDetails.currentValue d =? 0
                             then estimatePropertyDetails env address else Ret d
                 | None => estimatePropertyDetails env address
                 end).
  assert (Hchosen : Leaves (fun d => PropertyDetails.currentValue d <> 0 /\ placeholders d)
                      (fun _ => False) chosen).
  { assert (Hest : Leaves (fun d => PropertyDetails.currentValue d <> 0 /\ placeholders d)
                     (fun _ => False) (estimatePropertyDetails env address)).
    { eapply Leaves_impl; [| |apply estimatePropertyDetails_Leaves]; [|done].
      intros d [Hpos Hd]. split; [lia|done]. }
    unfold chosen. destruct scraped as [d|]; [|exact Hest].
    destruct (Z.eqb_spec (PropertyDetails.currentValue d) 0); [exact Hest|].
    constructor. split; [done|]. by apply Hfixed. }
  destruct (complete_Ensures env _ chosen w1 Hchosen) as [d [Hd [Hvalue Hplace]]].
  rewrite Hd. rewrite complete_cacheSet. cbn [complete fst snd withCache cache].
  exists d. destruct Hplace as (Hbath & Htenure & Huse).
  repeat split; try done.
  - intros ->. by apply Hvalue.
  - by rewrite mapGet_set.
Qed.

Lemma property_details_on_a_miss_are_never_the_default_witness :
  exists d,
    snd (complete networkDown (getPropertyDetails networkDown testAddress london) freshWorld)
    = Fulfilled d
    /\ PropertyDetails.currentValue d <> 0.
Proof.
  destruct (property_details_on_a_miss_are_never_the_default networkDown testAddress london
              freshWorld eq_refl) as [d (Hd & Hvalue & _)].
  by exists d.
Defined.

(** *** The comparables *)

Lemma landRegistryComparable_sales env now (rows : list (option LandRegistryRow)) :
  (length (flat_map (landRegistryComparable env now) rows) <= length rows)%nat
  /\ Forall landRegistrySale (flat_map (landRegistryComparable env now) rows).
Proof.
  induction rows as [|row rows [IHlen IHall]]; [by split; [|constructor]|].
  cbn [flat_map]. rewrite length_app. unfold landRegistryComparable at 1 3.
  destruct row as [fields|]; [|split; [cbn; lia|done]].
  destruct (match dateGetTime env (rowSaleDate fields) with
            | Some saleTime => threeYearsBefore env now <=? saleTime
            | None => false
            end); cbn [andb]; [|split; [cbn; lia|done]].
  destruct (Z.gtb_spec (rowPrice fields) 0); [|split; [cbn; lia|done]].
  split; [cbn; lia|]. cbn [app]. constructor; [|done]. by repeat split.
Qed.

Lemma getLandRegistryComparables_Leaves env postcode :
  Leaves (fun l => (length l <= 10)%nat /\ Forall landRegistrySale l) (fun _ => False)
    (getLandRegistryComparables env postcode).
Proof.
  unfold getLandRegistryComparables. eapply Leaves_tryCatch with (T' := fun _ => True).
  - eapply Leaves_bind; [apply axiosGet_Leaves|]. intros response _.
    constructor. intros now. constructor.
    destruct (landRegistryComparable_sales env now (firstn 10 response)) as [Hlen Hall].
    split; [|done]. rewrite length_firstn in Hlen. lia.
  - intros e _. constructor. by split; [cbn; lia|constructor].
Qed.

(** X19. On a cache miss [getComparables] returns at most 10 comparables,
    whatever the Land Registry answers. Each of them has a positive price,
    the source "Land Registry", no floor area and hence a price per square
    foot of 0, and as its distance the distance between the subject
    property and the centre of London: the same number for all of them,
    not a distance between the comparable and the property. *)
Theorem comparables_on_a_miss env coords postcode w :
  misses ("comparables_" +:+ postcode) w ->
  exists l,
    snd (complete env (getComparables env coords postcode) w) = Fulfilled l
    /\ (length l <= 10)%nat
    /\ Forall (fun c => landRegistrySale c
                        /\ Comparable.pricePerSqFt c = 0%Q
                        /\ Comparable.distance c = calculateDistance env coords london) l.
Proof.
  intros Hmiss. unfold misses in Hmiss. unfold getComparables. cbv zeta.
  rewrite complete_tryCatch, complete_cacheGet, Hmiss.
  set (w0 := withCache w _). rewrite complete_bind.
  destruct (complete_Ensures env _ (getLandRegistryComparables env postcode) w0
              (getLandRegistryComparables_Leaves env postcode)) as [sales [Hsales [Hlen Hall]]].
  rewrite Hsales. cbn [bind dateNow cacheSet complete fst snd].
  eexists. split; [reflexivity|]. split; [by rewrite length_map|].
  apply Forall_fmap. eapply Forall_impl; [exact Hall|].
  intros c (Hprice & Hsource & Hbeds & Harea). cbn.
  unfold landRegistrySale. cbn. by rewrite Harea.
Qed.

Lemma comparables_on_a_miss_witness :
  exists l,
    snd (complete testEnv (getComparables testEnv london "SW1A1AA") freshWorld) = Fulfilled l
    /\ (length l <= 10)%nat.
Proof.
  destruct (comparables_on_a_miss testEnv london "SW1A1AA" freshWorld eq_refl)
    as [l (Hl & Hlen & _)].
  by exists l.
Defined.

(** *** The local amenities *)

Lemma amenitiesLoop_complete env coords apiKey (types : list string) :
  forall (amenities : list Amenity.t) w,
    snd (complete env (amenitiesLoop env coords apiKey types amenities) w)
    = Fulfilled (amenities ++ flat_map (amenitiesOfType env coords apiKey) types)
    /\ issued (fst (complete env (amenitiesLoop env coords apiKey types amenities) w))
       = issued w ++ map (fun type => GetPlaces coords type apiKey) types
    /\ cache (fst (complete env (amenitiesLoop env coords apiKey types amenities) w))
       = cache w.
Proof.
  induction types as [|type types IH]; intros amenities w.
  - cbn. by rewrite !app_nil_r.
  - cbn [amenitiesLoop]. rewrite complete_bind, complete_tryCatch, complete_bind.
    rewrite complete_axiosGet. cbn [fst snd flat_map map].
    unfold amenitiesOfType at 1.
    destruct (respond env (GetPlaces coords type apiKey)) as [response|e];
      cbn [bind sleep complete fst snd].
    + destruct (IH (amenities ++ map (amenityOf env coords type) (firstn 3 response))
                  (advance (advance (send w (GetPlaces coords type apiKey))
                              (elapsed env (GetPlaces coords type apiKey))) 100))
        as (Hres & Hsent & Hcache).
      rewrite Hres, Hsent, Hcache. cbn [advance send issued cache].
      by rewrite <- !app_assoc.
    + destruct (IH amenities
                  (advance (send w (GetPlaces coords type apiKey))
                     (elapsed env (GetPlaces coords type apiKey))))
        as (Hres & Hsent & Hcache).
      rewrite Hres, Hsent, Hcache. cbn [advance send issued cache].
      by rewrite <- !app_assoc.
Qed.

(** X20. On a cache miss, with an API key set, [getLocalAmenities] asks
    the Places API once for each of the six amenity types, in their order,
    and returns for each type the first three places of the answer; a type
    whose request fails contributes nothing and does not disturb the
    others. Without an API key it sends nothing and returns the empty
    list. Either way the list returned is stored in the cache under the
    key of the location, also when every request has failed. *)
Theorem amenities_on_a_miss env coords w :
  misses ("amenities_" +:+ coordsKey env coords) w ->
  let w1 := fst (complete env (getLocalAmenities env coords) w) in
  let found :=
    match googlePlacesKey env with
    | Some apiKey => flat_map (amenitiesOfType env coords apiKey) amenityTypes
    | None => []
    end in
  snd (complete env (getLocalAmenities env coords) w) = Fulfilled found
  /\ issued w1
     = issued w ++ match googlePlacesKey env with
                   | Some apiKey => map (fun type => GetPlaces coords type apiKey) amenityTypes
                   | None => []
                   end
  /\ (length found <= 18)%nat
  /\ option_map CacheService.data
       (CacheService.mapGet ("amenities_" +:+ coordsKey env coords) (cache w1))
     = Some (VAmenities found).
Proof.
  intros Hmiss w1 found. unfold w1, found. clear w1 found.
  unfold misses in Hmiss. unfold getLocalAmenities. cbv zeta.
  rewrite complete_tryCatch, complete_cacheGet, Hmiss.
  set (w0 := withCache w _). rewrite complete_bind.
  destruct (googlePlacesKey env) as [apiKey|].
  - destruct (amenitiesLoop_complete env coords apiKey amenityTypes [] w0)
      as (Hres & Hsent & Hcache).
    rewrite Hres. cbn [app]. rewrite complete_cacheSet.
    cbn [complete fst snd withCache issued cache]. rewrite Hsent.
    split; [done|]. split; [done|]. split; [|by rewrite mapGet_set].
    unfold amenityTypes. cbn [flat_map]. rewrite !length_app. cbn [length].
    assert (Hthree : forall type,
              (length (amenitiesOfType env coords apiKey type) <= 3)%nat).
    { intros type. unfold amenitiesOfType.
      destruct (respond env (GetPlaces coords type apiKey)) as [response|e]; [|cbn; lia].
      rewrite length_map, length_firstn. lia. }
    pose proof (Hthree "school"%string). pose proof (Hthree "hospital"%string).
    pose proof (Hthree "supermarket"%string). pose proof (Hthree "restaurant"%string).
    pose proof (Hthree "park"%string). pose proof (Hthree "gym"%string). lia.
  - cbn [complete fst snd]. rewrite complete_cacheSet.
    cbn [complete fst snd withCache issued cache]. rewrite app_nil_r.
    split; [done|]. split; [done|]. split; [cbn; lia|by rewrite mapGet_set].
Qed.

Lemma amenities_on_a_miss_witness :
  snd (complete networkDown (getLocalAmenities networkDown london) freshWorld) = Fulfilled []
  /\ length (issued (fst (complete networkDown (getLocalAmenities networkDown london)
                            freshWorld))) = 6%nat.
Proof.
  pose proof (amenities_on_a_miss networkDown london freshWorld eq_refl)
    as (Hres & Hsent & _).
  split; [exact Hres|]. by rewrite Hsent.
Defined.

(** *** The number of requests *)

Lemma Sends_le {A : Type} (n n' : nat) (m : Async A) :
  Sends n m -> (n <= n')%nat -> Sends n' m.
Proof.
  intros Hm. revert n'.
  induction Hm as [n a|n e|n key k _ IH|n key v k _ IH|n k _ IH|n r k _ IH|n ms k _ IH];
    intros n' Hle; try (constructor; auto).
  destruct n' as [|n']; [lia|]. constructor. intros x. apply IH. lia.
Qed.

Lemma Sends_bind {A B : Type} (n j : nat) (m : Async A) (f : A -> Async B) :
  Sends n m -> (forall a, Sends j (f a)) -> Sends (n + j) (bind m f).
Proof.
  intros Hm Hf.
  induction Hm as [n a|n e|n key k _ IH|n key v k _ IH|n k _ IH|n r k _ IH|n ms k _ IH];
    cbn [bind]; try (constructor; auto).
  eapply Sends_le; [apply Hf|lia].
Qed.

Lemma Sends_tryCatch {A : Type} (n j : nat) (body : Async A)
    (handler : Thrown -> Async A) :
  Sends n body -> (forall e, Sends j (handler e)) -> Sends (n + j) (tryCatch body handler).
Proof.
  intros Hb Hh.
  induction Hb as [n a|n e|n key k _ IH|n key v k _ IH|n k _ IH|n r k _ IH|n ms k _ IH];
    cbn [tryCatch]; try (constructor; auto).
  eapply Sends_le; [apply Hh|lia].
Qed.

Lemma complete_Sends env {A : Type} (n : nat) (m : Async A) w :
  Sends n m ->
  (length (issued (fst (complete env m w))) <= length (issued w) + n)%nat.
Proof.
  intros Hm. revert w.
  induction Hm as [n a|n e|n key k _ IH|n key v k _ IH|n k _ IH|n r k _ IH|n ms k _ IH];
    intros w; cbn [complete fst]; try lia.
  - destruct (CacheService.get key (clock w) (cache w)) as [v c].
    exact (IH v (withCache w c)).
  - exact (IH (withCache w (CacheService.set (cacheConfig env) key v None
                              (clock w) (cache w)))).
  - exact (IH (clock w) w).
  - pose proof (IH (respond env r) (advance (send w r) (elapsed env r))) as Hle.
    cbn [advance send issued] in Hle. rewrite length_app in Hle. cbn [length] in Hle. lia.
  - exact (IH (advance w ms)).
Qed.

(** A started body has sent its first request; the promise owes the
    others. *)
Lemma start_Sends env {A : Type} (n : nat) (m : Async A) w :
  Sends n m ->
  exists owed,
    taskSends owed (snd (start env m w))
    /\ (length (issued (fst (start env m w))) + owed <= length (issued w) + n)%nat.
Proof.
  intros Hm. revert w.
  induction Hm as [n a|n e|n key k _ IH|n key v k _ IH|n k _ IH|n r k Hk _|n ms k Hk _];
    intros w; cbn [start fst snd].
  - exists 0%nat. split; [done|lia].
  - exists 0%nat. split; [done|lia].
  - destruct (CacheService.get key (clock w) (cache w)) as [v c].
    exact (IH v (withCache w c)).
  - exact (IH (withCache w (CacheService.set (cacheConfig env) key v None
                              (clock w) (cache w)))).
  - exact (IH (clock w) w).
  - exists n. split; [exact Hk|]. cbn [send issued]. rewrite length_app. cbn [length]. lia.
  - exists n. split; [exact Hk|lia].
Qed.

Lemma settle_Sends env {A : Type} (owed : nat) (t : Task A) w :
  taskSends owed t ->
  (length (issued (fst (settle env t w))) <= length (issued w) + owed)%nat.
Proof.
  destruct t as [result|r k|ms k]; cbn [taskSends settle fst]; intros Ht; [lia|..].
  - exact (complete_Sends env owed (k (respond env r)) (advance w (elapsed env r)) (Ht _)).
  - exact (complete_Sends env owed k (advance w ms) Ht).
Qed.

Lemma axiosGet_Sends r : Sends 1 (axiosGet r).
Proof. constructor. intros [v|e]; constructor. Qed.

Lemma returnCached_Sends {A : Type} (cast : JsAny -> option A) v n :
  Sends n (returnCached cast v).
Proof. unfold returnCached. destruct (cast v); constructor. Qed.

(** A provider: a look-up, then on a miss a body that sends at most [n]
    requests, inside a [try] whose handler returns. *)
Lemma provider_Sends {A : Type} (n : nat) key (cast : JsAny -> option A)
    (miss : Async A) (a : A) :
  Sends n miss ->
  Sends n (tryCatch (bind (cacheGet key)
                       (fun cached => match cached with
                                      | Some v => returnCached cast v
                                      | None => miss
                                      end))
             (fun _ => Ret a)).
Proof.
  intros Hmiss. eapply Sends_le; [apply (Sends_tryCatch n 0)|lia].
  - cbn [bind cacheGet]. constructor. intros [v|]; [apply returnCached_Sends|exact Hmiss].
  - intros e. constructor.
Qed.

Lemma getLocalAuthority_Sends env address : Sends 1 (getLocalAuthority env address).
Proof.
  unfold getLocalAuthority. apply (Sends_tryCatch 1 0); [|intros; constructor].
  apply (Sends_bind 1 0); [apply axiosGet_Sends|intros; constructor].
Qed.

Lemma getCoordinates_Sends env address : Sends 1 (getCoordinates env address).
Proof.
  unfold getCoordinates. cbv zeta. apply (Sends_tryCatch 1 0); [|intros; constructor].
  cbn [bind cacheGet]. constructor. intros [v|]; [apply returnCached_Sends|].
  apply (Sends_bind 1 0); [apply axiosGet_Sends|].
  intros [result|]; repeat constructor.
Qed.

Lemma getPropertyDetails_Sends env address coords :
  Sends 3 (getPropertyDetails env address coords).
Proof.
  unfold getPropertyDetails. cbv zeta. apply provider_Sends.
  apply (Sends_bind 2 1).
  - unfold scrapeRightmoveDetails. apply (Sends_tryCatch 2 0); [|intros; constructor].
    apply (Sends_bind 1 1); [apply axiosGet_Sends|].
    intros [card|]; [|constructor].
    apply (Sends_bind 1 0); [apply getLocalAuthority_Sends|intros; constructor].
  - assert (Hest : Sends 1 (estimatePropertyDetails env address)).
    { unfold estimatePropertyDetails. cbv zeta.
      apply (Sends_bind 1 0); [apply getLocalAuthority_Sends|intros; constructor]. }
    intros scraped. apply (Sends_bind 1 0); [|intros; repeat constructor].
    destruct scraped as [d|]; [|exact Hest].
    destruct (PropertyDetails.currentValue d =? 0); [exact Hest|constructor].
Qed.

Lemma getPlanningHistory_Sends env address coords :
  Sends 0 (getPlanningHistory env address coords).
Proof. unfold getPlanningHistory. cbv zeta. apply provider_Sends. repeat constructor. Qed.

Lemma getComparables_Sends env coords postcode :
  Sends 1 (getComparables env coords postcode).
Proof.
  unfold getComparables. cbv zeta. apply provider_Sends.
  apply (Sends_bind 1 0); [|intros; repeat constructor].
  unfold getLandRegistryComparables. apply (Sends_tryCatch 1 0); [|intros; constructor].
  apply (Sends_bind 1 0); [apply axiosGet_Sends|intros; repeat constructor].
Qed.

Lemma getMarketData_Sends env postcode : Sends 0 (getMarketData env postcode).
Proof. unfold getMarketData. cbv zeta. apply provider_Sends. repeat constructor. Qed.

Lemma getTransportLinks_Sends env coords : Sends 1 (getTransportLinks env coords).
Proof.
  unfold getTransportLinks. cbv zeta. apply provider_Sends.
  apply (Sends_bind 1 0); [|intros; repeat constructor].
  destruct (googlePlacesKey env) as [apiKey|]; [|constructor].
  apply (Sends_bind 1 0); [apply axiosGet_Sends|intros; constructor].
Qed.

Lemma amenitiesLoop_Sends env coords apiKey (types : list string) amenities :
  Sends (length types) (amenitiesLoop env coords apiKey types amenities).
Proof.
  revert amenities. induction types as [|type types IH]; intros amenities; [constructor|].
  cbn [amenitiesLoop length]. apply (Sends_bind 1 (length types)); [|intros; apply IH].
  apply (Sends_tryCatch 1 0); [|intros; constructor].
  apply (Sends_bind 1 0); [apply axiosGet_Sends|intros; repeat constructor].
Qed.

Lemma getLocalAmenities_Sends env coords : Sends 6 (getLocalAmenities env coords).
Proof.
  unfold getLocalAmenities. cbv zeta. apply provider_Sends.
  apply (Sends_bind 6 0); [|intros; repeat constructor].
  destruct (googlePlacesKey env) as [apiKey|]; [|constructor].
  apply (amenitiesLoop_Sends env coords apiKey amenityTypes []).
Qed.

Lemma checkPlanningRestrictions_Sends env coords :
  Sends 0 (checkPlanningRestrictions env coords).
Proof.
  unfold checkPlanningRestrictions. cbv zeta. apply provider_Sends. repeat constructor.
Qed.

Lemma startDataPromises_Sends env address coordinates postcode w :
  exists o0 o1 o2 o3 o4 o5 o6 : nat,
    let ps := snd (startDataPromises env address coordinates postcode w) in
    taskSends o0 (promise0 ps) /\ taskSends o1 (promise1 ps)
    /\ taskSends o2 (promise2 ps) /\ taskSends o3 (promise3 ps)
    /\ taskSends o4 (promise4 ps) /\ taskSends o5 (promise5 ps)
    /\ taskSends o6 (promise6 ps)
    /\ (length (issued (fst (startDataPromises env address coordinates postcode w)))
        + (o0 + o1 + o2 + o3 + o4 + o5 + o6)
        <= length (issued w) + 11)%nat.
Proof.
  unfold startDataPromises.
  destruct (start_Sends env 3 _ w (getPropertyDetails_Sends env address coordinates))
    as [o0 [H0 L0]].
  destruct (start env (getPropertyDetails env address coordinates) w) as [w1 t0].
  destruct (start_Sends env 0 _ w1 (getPlanningHistory_Sends env address coordinates))
    as [o1 [H1 L1]].
  destruct (start env (getPlanningHistory env address coordinates) w1) as [w2 t1].
  destruct (start_Sends env 1 _ w2 (getComparables_Sends env coordinates postcode))
    as [o2 [H2 L2]].
  destruct (start env (getComparables env coordinates postcode) w2) as [w3 t2].
  destruct (start_Sends env 0 _ w3 (getMarketData_Sends env postcode)) as [o3 [H3 L3]].
  destruct (start env (getMarketData env postcode) w3) as [w4 t3].
  destruct (start_Sends env 1 _ w4 (getTransportLinks_Sends env coordinates))
    as [o4 [H4 L4]].
  destruct (start env (getTransportLinks env coordinates) w4) as [w5 t4].
  destruct (start_Sends env 6 _ w5 (getLocalAmenities_Sends env coordinates))
    as [o5 [H5 L5]].
  destruct (start env (getLocalAmenities env coordinates) w5) as [w6 t5].
  destruct (start_Sends env 0 _ w6 (checkPlanningRestrictions_Sends env coordinates))
    as [o6 [H6 L6]].
  destruct (start env (checkPlanningRestrictions env coordinates) w6) as [w7 t6].
  cbn [fst snd] in *. exists o0, o1, o2, o3, o4, o5, o6.
  cbn [promise0 promise1 promise2 promise3 promise4 promise5 promise6].
  repeat split; try done. lia.
Qed.

(** X21. One call of [analyze] sends at most 12 requests, in either mode
    and whatever the cache holds and the sources answer: one for the seed,
    at most three for the property details (Rightmove, and the local
    authority once or twice), one to the Land Registry, one to the Places
    API for the transport links and six for the amenities. The bound is
    reached: a comprehensive analysis on an empty cache sends 12 when
    every source answers and Rightmove's price reads 0. *)
Theorem analyze_sends_at_most_12_requests env address analysisType w :
  (length (requestsOf env address analysisType w) <= length (issued w) + 12)%nat
  /\ length (requestsOf answeringEnv testAddress "comprehensive" freshWorld) = 12%nat.
Proof.
  split; [|vm_compute; reflexivity].
  unfold requestsOf, analyze.
  pose proof (complete_Sends env 1 _ w (getCoordinates_Sends env address)) as Lseed.
  destruct (complete env (getCoordinates env address) w) as [w0 [coordinates|error]];
    cbn [fst] in Lseed |- *; [|lia].
  destruct (startDataPromises_Sends env address coordinates (extractPostcode env address) w0)
    as (o0 & o1 & o2 & o3 & o4 & o5 & o6 & H0 & H1 & H2 & H3 & H4 & H5 & H6 & Lstart).
  destruct (startDataPromises env address coordinates (extractPostcode env address) w0)
    as [w1 ps]. cbn [fst snd] in *.
  destruct (String.eqb analysisType "basic").
  - pose proof (settle_Sends env o0 (promise0 ps) w1 H0) as L0.
    destruct (settle env (promise0 ps) w1) as [w2 first]. cbn [fst] in L0.
    pose proof (settle_Sends env o6 (promise6 ps) w2 H6) as L6.
    destruct (settle env (promise6 ps) w2) as [w3 last]. cbn [fst] in L6.
    destruct first, last; cbn [fst]; lia.
  - unfold allSettled.
    pose proof (settle_Sends env o0 (promise0 ps) w1 H0) as L0.
    destruct (settle env (promise0 ps) w1) as [w2 r0]. cbn [fst] in L0.
    pose proof (settle_Sends env o1 (promise1 ps) w2 H1) as L1.
    destruct (settle env (promise1 ps) w2) as [w3 r1]. cbn [fst] in L1.
    pose proof (settle_Sends env o2 (promise2 ps) w3 H2) as L2.
    destruct (settle env (promise2 ps) w3) as [w4 r2]. cbn [fst] in L2.
    pose proof (settle_Sends env o3 (promise3 ps) w4 H3) as L3.
    destruct (settle env (promise3 ps) w4) as [w5 r3]. cbn [fst] in L3.
    pose proof (settle_Sends env o4 (promise4 ps) w5 H4) as L4.
    destruct (settle env (promise4 ps) w5) as [w6 r4]. cbn [fst] in L4.
    pose proof (settle_Sends env o5 (promise5 ps) w6 H5) as L5.
    destruct (settle env (promise5 ps) w6) as [w7 r5]. cbn [fst] in L5.
    pose proof (settle_Sends env o6 (promise6 ps) w7 H6) as L6.
    destruct (settle env (promise6 ps) w7) as [w8 r6]. cbn [fst] in L6.
    cbn [fst]. lia.
Qed.

(** *** Keys a body does not touch *)

Lemma mapGet_fold_mapDelete_None key (ps : list (string * CacheService.CacheEntry JsAny))
    (c : CacheService.Store JsAny) :
  CacheService.mapGet key c = None ->
  CacheService.mapGet key
    (fold_left (fun acc p => CacheService.mapDelete (fst p) acc) ps c) = None.
Proof.
  revert c. induction ps as [|p ps IH]; intros c Hc; [done|].
  cbn [fold_left]. apply IH.
  destruct (decide (fst p = key)) as [->|Hne]; [apply mapGet_mapDelete_eq|].
  by rewrite mapGet_mapDelete_ne.
Qed.

Lemma absent_set cfg key key' v ttlMinutes now (c : CacheService.Store JsAny) :
  key' <> key -> CacheService.mapGet key c = None ->
  CacheService.mapGet key (CacheService.set cfg key' v ttlMinutes now c) = None.
Proof.
  intros Hne Hc. unfold CacheService.set. rewrite mapGet_mapSet_ne by done.
  destruct (CacheService.size c >=? CacheService.maxSize cfg); [|done].
  by apply mapGet_fold_mapDelete_None.
Qed.

Lemma absent_get key key' now (c : CacheService.Store JsAny) :
  key' <> key -> CacheService.mapGet key c = None ->
  CacheService.mapGet key (snd (CacheService.get key' now c)) = None.
Proof.
  intros Hne Hc. unfold CacheService.get.
  destruct (CacheService.mapGet key' c) as [entry|]; [|done].
  destruct (CacheService.expired now entry); cbn [snd].
  - by rewrite mapGet_mapDelete_ne.
  - by rewrite mapGet_mapSet_ne.
Qed.

Lemma Avoids_bind {A B : Type} key (m : Async A) (f : A -> Async B) :
  Avoids key m -> (forall a, Avoids key (f a)) -> Avoids key (bind m f).
Proof. intros Hm Hf. induction Hm; cbn [bind]; try (constructor; auto); auto. Qed.

Lemma Avoids_tryCatch {A : Type} key (body : Async A) (handler : Thrown -> Async A) :
  Avoids key body -> (forall e, Avoids key (handler e)) ->
  Avoids key (tryCatch body handler).
Proof. intros Hb Hh. induction Hb; cbn [tryCatch]; try (constructor; auto); auto. Qed.

Lemma complete_Avoids env {A : Type} key (m : Async A) w :
  Avoids key m -> absent key w -> absent key (fst (complete env m w)).
Proof.
  intros Hm. revert w.
  induction Hm as [a|e|key' k Hne _ IH|key' v k Hne _ IH|k _ IH|r k _ IH|ms k _ IH];
    intros w Hw; cbn [complete fst]; try done.
  - pose proof (absent_get key key' (clock w) (cache w) Hne Hw) as Hc.
    destruct (CacheService.get key' (clock w) (cache w)) as [v c]. by apply IH.
  - apply IH. by apply absent_set.
  - by apply IH.
  - by apply IH.
  - by apply IH.
Qed.

Lemma start_Avoids env {A : Type} key (m : Async A) w :
  Avoids key m -> absent key w -> absent key (fst (start env m w)).
Proof.
  intros Hm. revert w.
  induction Hm as [a|e|key' k Hne _ IH|key' v k Hne _ IH|k _ IH|r k _ IH|ms k _ IH];
    intros w Hw; cbn [start fst]; try done.
  - pose proof (absent_get key key' (clock w) (cache w) Hne Hw) as Hc.
    destruct (CacheService.get key' (clock w) (cache w)) as [v c]. by apply IH.
  - apply IH. by apply absent_set.
  - by apply IH.
Qed.

(** A provider avoids every key but its own, when the body it runs on a
    miss does. *)
Lemma provider_Avoids {A : Type} key key' (cast : JsAny -> option A)
    (miss : Async A) (a : A) :
  key' <> key -> Avoids key miss ->
  Avoids key (tryCatch (bind (cacheGet key')
                          (fun cached => match cached with
                                         | Some v => returnCached cast v
                                         | None => miss
                                         end))
                (fun _ => Ret a)).
Proof.
  intros Hne Hmiss. apply Avoids_tryCatch; [|intros; constructor].
  cbn [bind cacheGet]. constructor; [done|]. intros [v|]; [|done].
  unfold returnCached. destruct (cast v); constructor.
Qed.

Lemma axiosGet_Avoids key r : Avoids key (axiosGet r).
Proof. constructor. intros [v|e]; constructor. Qed.

Lemma getLocalAuthority_Avoids env key address : Avoids key (getLocalAuthority env address).
Proof.
  unfold getLocalAuthority. apply Avoids_tryCatch; [|intros; constructor].
  apply Avoids_bind; [apply axiosGet_Avoids|intros; constructor].
Qed.

Lemma getCoordinates_Avoids env key address :
  "coords_" +:+ extractPostcode env address <> key ->
  Avoids key (getCoordinates env address).
Proof.
  intros Hne. unfold getCoordinates. cbv zeta.
  apply Avoids_tryCatch; [|intros; constructor].
  cbn [bind cacheGet]. constructor; [done|]. intros [v|].
  - unfold returnCached. destruct (asCoordinates v); constructor.
  - apply Avoids_bind; [apply axiosGet_Avoids|].
    intros [result|]; [|constructor]. cbn [bind cacheSet]. by repeat constructor.
Qed.

Lemma getPropertyDetails_Avoids env key address coords :
  "details_" +:+ address <> key ->
  Avoids key (getPropertyDetails env address coords).
Proof.
  intros Hne. unfold getPropertyDetails. cbv zeta. apply provider_Avoids; [done|].
  assert (Hest : Avoids key (estimatePropertyDetails env address)).
  { unfold estimatePropertyDetails. cbv zeta.
    apply Avoids_bind; [apply getLocalAuthority_Avoids|intros; constructor]. }
  apply Avoids_bind.
  - unfold scrapeRightmoveDetails. apply Avoids_tryCatch; [|intros; constructor].
    apply Avoids_bind; [apply axiosGet_Avoids|].
    intros [card|]; [|constructor].
    apply Avoids_bind; [apply getLocalAuthority_Avoids|intros; constructor].
  - intros scraped. apply Avoids_bind.
    + destruct scraped as [d|]; [|exact Hest].
      destruct (PropertyDetails.currentValue d =? 0); [exact Hest|constructor].
    + intros d. cbn [bind cacheSet]. by repeat constructor.
Qed.

Lemma getComparables_Avoids env key coords postcode :
  "comparables_" +:+ postcode <> key ->
  Avoids key (getComparables env coords postcode).
Proof.
  intros Hne. unfold getComparables. cbv zeta. apply provider_Avoids; [done|].
  apply Avoids_bind.
  - unfold getLandRegistryComparables. apply Avoids_tryCatch; [|intros; constructor].
    apply Avoids_bind; [apply axiosGet_Avoids|intros; repeat constructor].
  - intros comps. cbn [bind dateNow cacheSet]. by repeat constructor.
Qed.

(** *** Planning history and market data *)

Lemma getPlanningHistory_absent env address coords w :
  absent ("planning_" +:+ address) w ->
  start env (getPlanningHistory env address coords) w
  = (withCache w (CacheService.set (cacheConfig env) ("planning_" +:+ address)
                    (VPlanningHistory mockPlanningHistory) None (clock w) (cache w)),
     Done (Fulfilled mockPlanningHistory)).
Proof.
  intros Hw. unfold absent in Hw. unfold getPlanningHistory.
  cbn [tryCatch bind cacheGet cacheSet start]. unfold CacheService.get. by rewrite Hw.
Qed.

Lemma getMarketData_absent env postcode w :
  absent ("market_" +:+ postcode) w ->
  start env (getMarketData env postcode) w
  = (withCache w (CacheService.set (cacheConfig env) ("market_" +:+ postcode)
                    (VMarketData (generateMarketDataByArea (String.substring 0 2 postcode)))
                    None (clock w) (cache w)),
     Done (Fulfilled (generateMarketDataByArea (String.substring 0 2 postcode)))).
Proof.
  intros Hw. unfold absent in Hw. unfold getMarketData.
  cbn [tryCatch bind cacheGet cacheSet start]. unfold CacheService.get. by rewrite Hw.
Qed.

Lemma generateMarketDataByArea_sampleSize postcodeArea :
  MarketData.sampleSize (generateMarketDataByArea postcodeArea) = 25.
Proof.
  unfold generateMarketDataByArea.
  by destruct (match lookup postcodeArea areaData with
               | Some base => base
               | None => (400000, 6%Q, Medium)
               end) as [[averagePrice priceChange1Year] demandLevel].
Qed.

Lemma startDataPromises_placeholders env address coordinates postcode w :
  absent ("planning_" +:+ address) w ->
  absent ("market_" +:+ postcode) w ->
  let ps := snd (startDataPromises env address coordinates postcode w) in
  promise1 ps = Done (Fulfilled mockPlanningHistory)
  /\ promise3 ps
     = Done (Fulfilled (generateMarketDataByArea (String.substring 0 2 postcode))).
Proof.
  intros Hplanning Hmarket. unfold startDataPromises.
  pose proof (start_Avoids env ("planning_" +:+ address)
                (getPropertyDetails env address coordinates) w
                (getPropertyDetails_Avoids env ("planning_" +:+ address) address coordinates
                   ltac:(intros H; cbn in H; discriminate H))
                Hplanning) as Hplanning1.
  pose proof (start_Avoids env ("market_" +:+ postcode)
                (getPropertyDetails env address coordinates) w
                (getPropertyDetails_Avoids env ("market_" +:+ postcode) address coordinates
                   ltac:(intros H; cbn in H; discriminate H))
                Hmarket) as Hmarket1.
  destruct (start env (getPropertyDetails env address coordinates) w) as [w1 t0].
  cbn [fst] in Hplanning1, Hmarket1.
  rewrite (getPlanningHistory_absent env address coordinates w1 Hplanning1).
  set (w2 := withCache w1 _).
  assert (Hmarket2 : absent ("market_" +:+ postcode) w2).
  { unfold absent, w2. cbn [withCache cache].
    apply absent_set; [|exact Hmarket1]. intros H. cbn in H. discriminate H. }
  pose proof (start_Avoids env ("market_" +:+ postcode)
                (getComparables env coordinates postcode) w2
                (getComparables_Avoids env ("market_" +:+ postcode) coordinates postcode
                   ltac:(intros H; cbn in H; discriminate H))
                Hmarket2) as Hmarket3.
  destruct (start env (getComparables env coordinates postcode) w2) as [w3 t2].
  cbn [fst] in Hmarket3.
  rewrite (getMarketData_absent env postcode w3 Hmarket3).
  destruct (start env (getTransportLinks env coordinates) _) as [w5 t4].
  destruct (start env (getLocalAmenities env coordinates) w5) as [w6 t5].
  destruct (start env (checkPlanningRestrictions env coordinates) w6) as [w7 t6].
  by split.
Qed.

(** X22. Two of the three components of the quality score do not depend
    on any source. When a comprehensive analysis finds no entry for the
    planning history of the address and none for the market data of the
    postcode, its planning history is the built-in list of two
    applications and its market data has the built-in sample size of 25,
    whatever the address is and whatever the sources answer. So planning is
    rated Medium and market data High, the overall score is 67, 78 or 89
    according to the comparables alone, and the only warning the result
    can carry is the one about comparables. *)
Theorem analysis_rates_planning_and_market_data_alike env address analysisType w :
  absent ("planning_" +:+ address) w ->
  absent ("market_" +:+ extractPostcode env address) w ->
  String.eqb analysisType "basic" = false ->
  match snd (analyze env address analysisType w) with
  | Rejected _ => True
  | Fulfilled result =>
      let q := PropertyData.dataQuality result in
      PropertyData.planningHistory result = mockPlanningHistory
      /\ MarketData.sampleSize (PropertyData.marketTrends result) = 25
      /\ DataQuality.planningDataQuality q = Medium
      /\ DataQuality.marketDataQuality q = High
      /\ (DataQuality.overallScore q = 67 \/ DataQuality.overallScore q = 78
          \/ DataQuality.overallScore q = 89)
      /\ (forall warning, In warning (DataQuality.warnings q) ->
            warning = "Limited comparable sales data available"%string)
  end.
Proof.
  intros Hplanning Hmarket Hmode. unfold analyze.
  pose proof (complete_Avoids env ("planning_" +:+ address) (getCoordinates env address) w
                (getCoordinates_Avoids env ("planning_" +:+ address) address
                   ltac:(intros H; cbn in H; discriminate H))
                Hplanning) as Hplanning0.
  pose proof (complete_Avoids env ("market_" +:+ extractPostcode env address)
                (getCoordinates env address) w
                (getCoordinates_Avoids env ("market_" +:+ extractPostcode env address) address
                   ltac:(intros H; cbn in H; discriminate H))
                Hmarket) as Hmarket0.
  destruct (complete env (getCoordinates env address) w) as [w0 [coordinates|error]];
    cbn [fst] in Hplanning0, Hmarket0; [|done].
  destruct (startDataPromises_placeholders env address coordinates
              (extractPostcode env address) w0 Hplanning0 Hmarket0) as [Hp1 Hp3].
  destruct (startDataPromises env address coordinates (extractPostcode env address) w0)
    as [w1 ps]. cbn [snd] in Hp1, Hp3.
  rewrite Hmode. unfold allSettled.
  destruct (settle env (promise0 ps) w1) as [w2 r0]. rewrite Hp1. cbn [settle].
  destruct (settle env (promise2 ps) w2) as [w3 r2]. rewrite Hp3. cbn [settle].
  destruct (settle env (promise4 ps) w3) as [w4 r4].
  destruct (settle env (promise5 ps) w4) as [w5 r5].
  destruct (settle env (promise6 ps) w5) as [w6 r6].
  cbn [snd]. unfold comprehensiveResult.
  cbn [PropertyData.dataQuality PropertyData.planningHistory PropertyData.marketTrends
       planningHistory marketData comparables extractResult].
  set (market := generateMarketDataByArea _).
  set (found := extractResult r2 []).
  assert (Hsample : MarketData.sampleSize market = 25)
    by apply generateMarketDataByArea_sampleSize.
  assert (Hrating : marketRating market = High).
  { unfold marketRating. rewrite Hsample. by rewrite decide_True by lia. }
  rewrite assessDataQuality_planning, assessDataQuality_market, assessDataQuality_score,
          assessDataQuality_warnings, Hrating.
  change (planningRating mockPlanningHistory) with Medium.
  split; [done|]. split; [done|]. split; [done|]. split; [done|]. split.
  - destruct (comparablesRating found); vm_compute; tauto.
  - intros warning Hin. unfold lowWarning in Hin.
    destruct (comparablesRating found); cbn in Hin; [tauto|tauto|].
    by destruct Hin as [<-|[]].
Qed.

Lemma analysis_rates_planning_and_market_data_alike_witness :
  match snd (analyze testEnv testAddress "comprehensive" freshWorld) with
  | Rejected _ => True
  | Fulfilled result =>
      DataQuality.overallScore (PropertyData.dataQuality result) = 67
      \/ DataQuality.overallScore (PropertyData.dataQuality result) = 78
      \/ DataQuality.overallScore (PropertyData.dataQuality result) = 89
  end.
Proof.
  pose proof (analysis_rates_planning_and_market_data_alike testEnv testAddress
                "comprehensive" freshWorld eq_refl eq_refl eq_refl) as H.
  destruct (snd (analyze testEnv testAddress "comprehensive" freshWorld)) as [result|error];
    [|exact I].
  exact (proj1 (proj2 (proj2 (proj2 (proj2 H))))).
Defined.

(** *** An analysis served from the cache *)

Lemma get_frame key key' now now' (c : CacheService.Store JsAny) :
  key' <> key ->
  fst (CacheService.get key now (snd (CacheService.get key' now' c)))
  = fst (CacheService.get key now c).
Proof.
  intros Hne. rewrite !get_result. unfold CacheService.get.
  destruct (CacheService.mapGet key' c) as [entry|]; [|done].
  destruct (CacheService.expired now' entry); cbn [snd].
  - by rewrite mapGet_mapDelete_ne.
  - by rewrite mapGet_mapSet_ne.
Qed.

Lemma cachedAt_frame w key key' v :
  key' <> key -> cachedAt w key v ->
  cachedAt (withCache w (snd (CacheService.get key' (clock w) (cache w)))) key v.
Proof.
  intros Hne Hv. unfold cachedAt in *. cbn [withCache clock cache].
  by rewrite get_frame.
Qed.

Lemma start_hit env {A : Type} key (cast : JsAny -> option A) (v : JsAny) (a : A)
    (miss : Async A) (handler : Thrown -> Async A) w :
  cachedAt w key v ->
  cast v = Some a ->
  start env
    (tryCatch (bind (cacheGet key)
                 (fun cached => match cached with
                                | Some v => returnCached cast v
                                | None => miss
                                end))
       handler) w
  = (withCache w (snd (CacheService.get key (clock w) (cache w))), Done (Fulfilled a)).
Proof.
  unfold cachedAt. intros Hhit Hcast. cbn [tryCatch bind cacheGet start].
  destruct (CacheService.get key (clock w) (cache w)) as [v' c].
  cbn [fst snd] in *. subst v'. unfold returnCached. by rewrite Hcast.
Qed.

Lemma startDataPromises_hits env address coordinates postcode w d p cs m t a r :
  cachedAt w ("details_" +:+ address) (VPropertyDetails d) ->
  cachedAt w ("planning_" +:+ address) (VPlanningHistory p) ->
  cachedAt w ("comparables_" +:+ postcode) (VComparables cs) ->
  cachedAt w ("market_" +:+ postcode) (VMarketData m) ->
  cachedAt w ("transport_" +:+ coordsKey env coordinates) (VTransportLinks t) ->
  cachedAt w ("amenities_" +:+ coordsKey env coordinates) (VAmenities a) ->
  cachedAt w ("restrictions_" +:+ coordsKey env coordinates) (VRestrictions r) ->
  exists w',
    startDataPromises env address coordinates postcode w
    = (w', {| promise0 := Done (Fulfilled d); promise1 := Done (Fulfilled p);
              promise2 := Done (Fulfilled cs); promise3 := Done (Fulfilled m);
              promise4 := Done (Fulfilled t); promise5 := Done (Fulfilled a);
              promise6 := Done (Fulfilled r) |})
    /\ issued w' = issued w /\ clock w' = clock w.
Proof.
  intros H0 H1 H2 H3 H4 H5 H6. unfold startDataPromises.
  unfold getPropertyDetails. cbv zeta.
  rewrite (start_hit env _ asPropertyDetails _ d _ _ w H0 eq_refl).
  apply (cachedAt_frame w _ ("details_" +:+ address)) in H1, H2, H3, H4, H5, H6;
    try keys_differ.
  set (w1 := withCache w _) in *.
  unfold getPlanningHistory. cbv zeta.
  rewrite (start_hit env _ asPlanningHistory _ p _ _ w1 H1 eq_refl).
  apply (cachedAt_frame w1 _ ("planning_" +:+ address)) in H2, H3, H4, H5, H6;
    try keys_differ.
  set (w2 := withCache w1 _) in *.
  unfold getComparables. cbv zeta.
  rewrite (start_hit env _ asComparables _ cs _ _ w2 H2 eq_refl).
  apply (cachedAt_frame w2 _ ("comparables_" +:+ postcode)) in H3, H4, H5, H6;
    try keys_differ.
  set (w3 := withCache w2 _) in *.
  unfold getMarketData. cbv zeta.
  rewrite (start_hit env _ asMarketData _ m _ _ w3 H3 eq_refl).
  apply (cachedAt_frame w3 _ ("market_" +:+ postcode)) in H4, H5, H6; try keys_differ.
  set (w4 := withCache w3 _) in *.
  unfold getTransportLinks. cbv zeta.
  rewrite (start_hit env _ asTransportLinks _ t _ _ w4 H4 eq_refl).
  apply (cachedAt_frame w4 _ ("transport_" +:+ coordsKey env coordinates)) in H5, H6;
    try keys_differ.
  set (w5 := withCache w4 _) in *.
  unfold getLocalAmenities. cbv zeta.
  rewrite (start_hit env _ asAmenities _ a _ _ w5 H5 eq_refl).
  apply (cachedAt_frame w5 _ ("amenities_" +:+ coordsKey env coordinates)) in H6;
    try keys_differ.
  set (w6 := withCache w5 _) in *.
  unfold checkPlanningRestrictions. cbv zeta.
  rewrite (start_hit env _ asRestrictions _ r _ _ w6 H6 eq_refl).
  eexists. split; [reflexivity|]. by split.
Qed.

(** X24. An analysis whose eight look-ups all hit the cache (the
    coordinates of the postcode and the seven entries of the providers,
    none of them expired) sends no request and takes no time: it returns
    at once the result assembled from the cached values, in the basic mode
    from the property details and the restrictions, in any other mode
    from all seven. *)
Theorem cached_analysis_sends_nothing env address analysisType w
    coordinates d p cs m t a r :
  cachedAt w ("coords_" +:+ extractPostcode env address) (VCoordinates coordinates) ->
  cachedAt w ("details_" +:+ address) (VPropertyDetails d) ->
  cachedAt w ("planning_" +:+ address) (VPlanningHistory p) ->
  cachedAt w ("comparables_" +:+ extractPostcode env address) (VComparables cs) ->
  cachedAt w ("market_" +:+ extractPostcode env address) (VMarketData m) ->
  cachedAt w ("transport_" +:+ coordsKey env coordinates) (VTransportLinks t) ->
  cachedAt w ("amenities_" +:+ coordsKey env coordinates) (VAmenities a) ->
  cachedAt w ("restrictions_" +:+ coordsKey env coordinates) (VRestrictions r) ->
  issued (fst (analyze env address analysisType w)) = issued w
  /\ clock (fst (analyze env address analysisType w)) = clock w
  /\ snd (analyze env address analysisType w)
     = Fulfilled
         (if String.eqb analysisType "basic"
          then basicResult address coordinates d r (clock w)
          else comprehensiveResult address coordinates
                 {| propertyDetails := Fulfilled d; planningHistory := Fulfilled p;
                    comparables := Fulfilled cs; marketData := Fulfilled m;
                    transportLinks := Fulfilled t; amenities := Fulfilled a;
                    restrictions := Fulfilled r |}
                 (clock w)).
Proof.
  intros Hseed H0 H1 H2 H3 H4 H5 H6.
  assert (Hrun : exists w',
            analyze env address analysisType w
            = (w', Fulfilled
                     (if String.eqb analysisType "basic"
                      then basicResult address coordinates d r (clock w)
                      else comprehensiveResult address coordinates
                             {| propertyDetails := Fulfilled d;
                                planningHistory := Fulfilled p;
                                comparables := Fulfilled cs; marketData := Fulfilled m;
                                transportLinks := Fulfilled t; amenities := Fulfilled a;
                                restrictions := Fulfilled r |}
                             (clock w)))
            /\ issued w' = issued w /\ clock w' = clock w).
  { unfold analyze. unfold getCoordinates. cbv zeta.
    rewrite (complete_hit env _ asCoordinates _ coordinates _ _ w Hseed eq_refl).
    apply (cachedAt_frame w _ ("coords_" +:+ extractPostcode env address))
      in H0, H1, H2, H3, H4, H5, H6; try keys_differ.
    set (w0 := withCache w _) in *.
    destruct (startDataPromises_hits env address coordinates (extractPostcode env address)
                w0 d p cs m t a r H0 H1 H2 H3 H4 H5 H6)
      as (w1 & Hstart & Hissued & Hclock).
    rewrite Hstart. exists w1.
    destruct (String.eqb analysisType "basic");
      cbn [allSettled settle promise0 promise1 promise2 promise3 promise4 promise5
           promise6 fst snd];
      rewrite Hclock; done. }
  destruct Hrun as (w' & -> & Hissued & Hclock). done.
Qed.

Lemma cached_analysis_sends_nothing_witness :
  issued (fst (analyze networkDown testAddress "comprehensive" analysedWorld))
  = issued analysedWorld
  /\ clock (fst (analyze networkDown testAddress "comprehensive" analysedWorld))
     = clock analysedWorld.
Proof.
  pose proof (cached_analysis_sends_nothing networkDown testAddress "comprehensive"
                analysedWorld london
                {| PropertyDetails.currentValue := 800000;
                   PropertyDetails.propertyType := "Terraced";
                   PropertyDetails.bedrooms := 3;
                   PropertyDetails.bathrooms := 1;
                   PropertyDetails.tenure := "Freehold";
                   PropertyDetails.useClass := "C3";
                   PropertyDetails.localAuthority := "Westminster" |}
                mockPlanningHistory [] (generateMarketDataByArea "SW") [] [] noRestrictions
                ltac:(vm_compute; reflexivity) ltac:(vm_compute; reflexivity)
                ltac:(vm_compute; reflexivity) ltac:(vm_compute; reflexivity)
                ltac:(vm_compute; reflexivity) ltac:(vm_compute; reflexivity)
                ltac:(vm_compute; reflexivity) ltac:(vm_compute; reflexivity))
    as (Hissued & Hclock & _).
  split; [exact Hissued|exact Hclock].
Defined.

End AnalyzerFurther.

(* ===================================================================== *)
(** * Part V: what an analysis returns when sources fail *)
(* ===================================================================== *)

(** The two statements of the specification about partial failure, with
    the account of the providers of Part IV: on a cache that holds none of
    the seven provider entries, the result of [analyze] is a function of
    the answers of the sources. *)

Section PartialFailure.

Import PropertyAnalyzer.

(** *** Bodies in given surroundings *)

Lemma Answers_impl env {A : Type} (P P' : A -> Prop) (T T' : Thrown -> Prop)
    (m : Async A) :
  (forall a, P a -> P' a) -> (forall e, T e -> T' e) ->
  Answers env P T m -> Answers env P' T' m.
Proof. intros HP HT. induction 1; constructor; auto. Qed.

Lemma Leaves_Answers env {A : Type} (P : A -> Prop) (T : Thrown -> Prop) (m : Async A) :
  Leaves P T m -> Answers env P T m.
Proof. induction 1; constructor; auto. Qed.

Lemma Answers_bind env {A B : Type} (Q : A -> Prop) (P : B -> Prop) (T : Thrown -> Prop)
    (m : Async A) (f : A -> Async B) :
  Answers env Q T m -> (forall a, Q a -> Answers env P T (f a)) ->
  Answers env P T (bind m f).
Proof. intros Hm Hf. induction Hm; cbn [bind]; try (constructor; auto); auto. Qed.

Lemma Answers_tryCatch env {A : Type} (P : A -> Prop) (T' T : Thrown -> Prop)
    (body : Async A) (handler : Thrown -> Async A) :
  Answers env P T' body -> (forall e, T' e -> Answers env P T (handler e)) ->
  Answers env P T (tryCatch body handler).
Proof. intros Hb Hh. induction Hb; cbn [tryCatch]; try (constructor; auto); auto. Qed.

Lemma complete_Answers env {A : Type} (P : A -> Prop) (T : Thrown -> Prop)
    (m : Async A) w :
  Answers env P T m ->
  match snd (complete env m w) with Fulfilled a => P a | Rejected e => T e end.
Proof.
  intros Hm. revert w.
  induction Hm as [a Ha|e He|key k _ IH|key v k _ IH|k _ IH|r k _ IH|ms k _ IH];
    intros w; cbn [complete snd]; try done; try apply IH.
  destruct (CacheService.get key (clock w) (cache w)) as [v c]. apply IH.
Qed.

Lemma start_Answers env {A : Type} (P : A -> Prop) (T : Thrown -> Prop)
    (m : Async A) w :
  Answers env P T m -> taskAnswers env P T (snd (start env m w)).
Proof.
  intros Hm. revert w.
  induction Hm as [a Ha|e He|key k _ IH|key v k _ IH|k _ IH|r k Hk _|ms k Hk _];
    intros w; cbn [start snd taskAnswers]; try done; try apply IH.
  destruct (CacheService.get key (clock w) (cache w)) as [v c]. apply IH.
Qed.

Lemma settle_Answers env {A : Type} (P : A -> Prop) (T : Thrown -> Prop)
    (t : Task A) w :
  taskAnswers env P T t ->
  match snd (settle env t w) with Fulfilled a => P a | Rejected e => T e end.
Proof.
  destruct t as [[a|e]|r k|ms k]; cbn [taskAnswers settle snd]; intros Ht; try done;
    by apply complete_Answers.
Qed.

(** A promise that can only be fulfilled, and only with one value. *)
Lemma settle_value env {A : Type} (a : A) (t : Task A) w :
  taskAnswers env (fun x => x = a) (fun _ => False) t ->
  snd (settle env t w) = Fulfilled a.
Proof.
  intros Ht. pose proof (settle_Answers env _ _ t w Ht) as H.
  destruct (snd (settle env t w)) as [x|e]; [by subst|done].
Qed.

Lemma axiosGet_Answers env r :
  Answers env (fun v => respond env r = Fulfilled v) (fun e => respond env r = Rejected e)
    (axiosGet r).
Proof.
  unfold axiosGet. constructor.
  destruct (respond env r) as [v|e]; by constructor.
Qed.

(** A provider started on a cache that does not hold its key runs the
    body it has for a miss. *)
Lemma start_miss_Answers env {A : Type} key (K : option JsAny -> Async A)
    (handler : Thrown -> Async A) (P : A -> Prop) (T : Thrown -> Prop) w :
  absent key w ->
  Answers env P T (tryCatch (K None) handler) ->
  taskAnswers env P T (snd (start env (tryCatch (bind (cacheGet key) K) handler) w)).
Proof.
  unfold absent. intros Hw HK. cbn [bind cacheGet tryCatch start].
  unfold CacheService.get. rewrite Hw. by apply start_Answers.
Qed.

(** *** The providers on a miss *)

Lemma getLocalAuthority_Answers env address (T : Thrown -> Prop) :
  Answers env (fun authority => authority = localAuthorityOf env address) T
    (getLocalAuthority env address).
Proof.
  unfold getLocalAuthority, localAuthorityOf. cbv zeta.
  eapply Answers_tryCatch; [eapply Answers_bind; [apply axiosGet_Answers|]|].
  - intros response Hanswer. cbn beta in Hanswer. rewrite Hanswer. by constructor.
  - intros e Hanswer. cbn beta in Hanswer. rewrite Hanswer. by constructor.
Qed.

Lemma estimatePropertyDetails_Answers env address (T : Thrown -> Prop) :
  Answers env (fun d => d = estimatedDetails env address) T
    (estimatePropertyDetails env address).
Proof.
  unfold estimatePropertyDetails. cbv zeta.
  eapply Answers_bind; [apply getLocalAuthority_Answers|].
  intros authority ->. by constructor.
Qed.

Lemma getPropertyDetails_uncached env address coordinates w :
  absent ("details_" +:+ address) w ->
  taskAnswers env (fun d => d = fetchedDetails env address) (fun _ => False)
    (snd (start env (getPropertyDetails env address coordinates) w)).
Proof.
  intros Hw. unfold getPropertyDetails. cbv zeta.
  apply start_miss_Answers; [done|].
  eapply Answers_tryCatch with (T' := fun _ => False); [|done].
  eapply Answers_bind with
    (Q := fun scraped =>
            match scraped with
            | Some d => exists card,
                respond env (GetRightmove address) = Fulfilled (Some card)
                /\ fetchedDetails env address
                   = (if priceValue card =? 0 then estimatedDetails env address else d)
                /\ PropertyDetails.currentValue d = priceValue card
            | None => fetchedDetails env address = estimatedDetails env address
            end).
  - unfold scrapeRightmoveDetails.
    eapply Answers_tryCatch; [eapply Answers_bind; [apply axiosGet_Answers|]|].
    + intros [card|] Hanswer; cbn beta in Hanswer.
      * eapply Answers_bind; [apply getLocalAuthority_Answers|].
        intros authority ->. constructor. exists card.
        unfold fetchedDetails. rewrite Hanswer. by destruct (priceValue card =? 0).
      * constructor. unfold fetchedDetails. by rewrite Hanswer.
    + intros e Hanswer. cbn beta in Hanswer. constructor.
      unfold fetchedDetails. by rewrite Hanswer.
  - intros scraped Hscraped. eapply Answers_bind with (Q := fun d => d = fetchedDetails env address).
    + destruct scraped as [d|].
      * destruct Hscraped as (card & _ & Hfetched & Hvalue). rewrite Hfetched, Hvalue.
        destruct (priceValue card =? 0);
          [apply estimatePropertyDetails_Answers|by constructor].
      * rewrite Hscraped. apply estimatePropertyDetails_Answers.
    + intros d ->. cbn [bind cacheSet]. by repeat constructor.
Qed.

Lemma getComparables_uncached env coordinates postcode w :
  absent ("comparables_" +:+ postcode) w ->
  taskAnswers env
    (fun l => exists now1 now2, l = fetchedComparables env coordinates postcode now1 now2)
    (fun _ => False)
    (snd (start env (getComparables env coordinates postcode) w)).
Proof.
  intros Hw. unfold getComparables. cbv zeta.
  apply start_miss_Answers; [done|].
  eapply Answers_tryCatch with (T' := fun _ => False); [|done].
  eapply Answers_bind with
    (Q := fun sales =>
            exists now1, forall now2,
              map (enhanceComparable env now2 coordinates) sales
              = fetchedComparables env coordinates postcode now1 now2).
  - unfold getLandRegistryComparables.
    eapply Answers_tryCatch; [eapply Answers_bind; [apply axiosGet_Answers|]|].
    + intros response Hanswer. cbn beta in Hanswer. constructor. intros now1.
      constructor. exists now1. intros now2. unfold fetchedComparables. by rewrite Hanswer.
    + intros e Hanswer. cbn beta in Hanswer. constructor. exists 0. intros now2.
      unfold fetchedComparables. by rewrite Hanswer.
  - intros sales [now1 Hsales]. constructor. intros now2. cbn [bind cacheSet].
    repeat constructor. exists now1, now2. apply Hsales.
Qed.

Lemma getTransportLinks_uncached env coordinates w :
  absent ("transport_" +:+ coordsKey env coordinates) w ->
  taskAnswers env (fun l => l = fetchedTransportLinks env coordinates) (fun _ => False)
    (snd (start env (getTransportLinks env coordinates) w)).
Proof.
  intros Hw. unfold getTransportLinks. cbv zeta.
  apply start_miss_Answers; [done|].
  unfold fetchedTransportLinks. destruct (googlePlacesKey env) as [apiKey|].
  - eapply Answers_tryCatch with
      (T' := fun e => respond env (GetPlaces coordinates "transit_station" apiKey)
                      = Rejected e).
    + eapply Answers_bind with
        (Q := fun links =>
                exists response,
                  respond env (GetPlaces coordinates "transit_station" apiKey)
                  = Fulfilled response
                  /\ links = map (transportLinkOf env coordinates) (firstn 5 response)).
      * eapply Answers_bind; [apply axiosGet_Answers|].
        intros response Hanswer. cbn beta in Hanswer. constructor. by exists response.
      * intros links (response & Hanswer & ->). cbn [bind cacheSet].
        repeat constructor. by rewrite Hanswer.
    + intros e Hanswer. cbn beta in Hanswer. constructor. by rewrite Hanswer.
  - eapply Answers_tryCatch with (T' := fun _ => False); [|done].
    cbn [bind cacheSet]. by repeat constructor.
Qed.

Lemma amenitiesLoop_Answers env coordinates apiKey (types : list string)
    (T : Thrown -> Prop) :
  forall amenities,
    Answers env
      (fun l => l = amenities ++ flat_map (amenitiesOfType env coordinates apiKey) types) T
      (amenitiesLoop env coordinates apiKey types amenities).
Proof.
  induction types as [|type types IH]; intros amenities.
  - constructor. cbn. by rewrite app_nil_r.
  - cbn [amenitiesLoop flat_map].
    eapply Answers_bind with
      (Q := fun l => l = amenities ++ amenitiesOfType env coordinates apiKey type).
    + unfold amenitiesOfType.
      eapply Answers_tryCatch; [eapply Answers_bind; [apply axiosGet_Answers|]|].
      * intros response Hanswer. cbn beta in Hanswer. cbn [bind sleep].
        repeat constructor. by rewrite Hanswer.
      * intros e Hanswer. cbn beta in Hanswer. constructor.
        rewrite Hanswer. by rewrite app_nil_r.
    + intros l ->. rewrite app_assoc. apply IH.
Qed.

Lemma getLocalAmenities_uncached env coordinates w :
  absent ("amenities_" +:+ coordsKey env coordinates) w ->
  taskAnswers env (fun l => l = fetchedAmenities env coordinates) (fun _ => False)
    (snd (start env (getLocalAmenities env coordinates) w)).
Proof.
  intros Hw. unfold getLocalAmenities. cbv zeta.
  apply start_miss_Answers; [done|].
  eapply Answers_tryCatch with (T' := fun _ => False); [|done].
  eapply Answers_bind with (Q := fun l => l = fetchedAmenities env coordinates).
  - unfold fetchedAmenities. destruct (googlePlacesKey env) as [apiKey|].
    + apply (amenitiesLoop_Answers env coordinates apiKey amenityTypes _ []).
    + by constructor.
  - intros l ->. cbn [bind cacheSet]. by repeat constructor.
Qed.

Lemma checkPlanningRestrictions_absent env coordinates w :
  absent ("restrictions_" +:+ coordsKey env coordinates) w ->
  snd (start env (checkPlanningRestrictions env coordinates) w)
  = Done (Fulfilled noRestrictions).
Proof.
  intros Hw. unfold absent in Hw. unfold checkPlanningRestrictions.
  cbn [tryCatch bind cacheGet cacheSet start]. unfold CacheService.get. by rewrite Hw.
Qed.

(** *** The seven promises on a cache without their entries *)

Lemma getTransportLinks_Avoids env key coordinates :
  "transport_" +:+ coordsKey env coordinates <> key ->
  Avoids key (getTransportLinks env coordinates).
Proof.
  intros Hne. unfold getTransportLinks. cbv zeta. apply provider_Avoids; [done|].
  apply Avoids_bind.
  - destruct (googlePlacesKey env) as [apiKey|]; [|constructor].
    apply Avoids_bind; [apply axiosGet_Avoids|intros; constructor].
  - intros links. cbn [bind cacheSet]. by repeat constructor.
Qed.

Lemma amenitiesLoop_Avoids env key coordinates apiKey (types : list string) amenities :
  Avoids key (amenitiesLoop env coordinates apiKey types amenities).
Proof.
  revert amenities. induction types as [|type types IH]; intros amenities; [constructor|].
  cbn [amenitiesLoop]. apply Avoids_bind; [|intros; apply IH].
  apply Avoids_tryCatch; [|intros; constructor].
  apply Avoids_bind; [apply axiosGet_Avoids|intros; repeat constructor].
Qed.

Lemma getLocalAmenities_Avoids env key coordinates :
  "amenities_" +:+ coordsKey env coordinates <> key ->
  Avoids key (getLocalAmenities env coordinates).
Proof.
  intros Hne. unfold getLocalAmenities. cbv zeta. apply provider_Avoids; [done|].
  apply Avoids_bind.
  - destruct (googlePlacesKey env) as [apiKey|]; [|constructor].
    apply amenitiesLoop_Avoids.
  - intros found. cbn [bind cacheSet]. by repeat constructor.
Qed.

Lemma withCache_absent_set env key key' v w :
  key' <> key -> absent key w ->
  absent key (withCache w (CacheService.set (cacheConfig env) key' v None
                             (clock w) (cache w))).
Proof. intros Hne Hw. unfold absent. cbn [withCache cache]. by apply absent_set. Qed.

Lemma startDataPromises_uncached env address coordinates w :
  uncached env address coordinates w ->
  let ps := snd (startDataPromises env address coordinates (extractPostcode env address) w) in
  taskAnswers env (fun d => d = fetchedDetails env address) (fun _ => False) (promise0 ps)
  /\ promise1 ps = Done (Fulfilled mockPlanningHistory)
  /\ taskAnswers env
       (fun l => exists now1 now2,
          l = fetchedComparables env coordinates (extractPostcode env address) now1 now2)
       (fun _ => False) (promise2 ps)
  /\ promise3 ps
     = Done (Fulfilled (generateMarketDataByArea
                          (String.substring 0 2 (extractPostcode env address))))
  /\ taskAnswers env (fun l => l = fetchedTransportLinks env coordinates) (fun _ => False)
       (promise4 ps)
  /\ taskAnswers env (fun l => l = fetchedAmenities env coordinates) (fun _ => False)
       (promise5 ps)
  /\ promise6 ps = Done (Fulfilled noRestrictions).
Proof.
  intros (H0 & H1 & H2 & H3 & H4 & H5 & H6). unfold startDataPromises.
  pose proof (getPropertyDetails_uncached env address coordinates w H0) as T0.
  apply (start_Avoids env _ (getPropertyDetails env address coordinates) w)
    in H1, H2, H3, H4, H5, H6; try (apply getPropertyDetails_Avoids; keys_differ).
  destruct (start env (getPropertyDetails env address coordinates) w) as [w1 t0].
  cbn [fst snd] in *.
  rewrite (getPlanningHistory_absent env address coordinates w1 H1).
  apply (withCache_absent_set env _ ("planning_" +:+ address)
           (VPlanningHistory mockPlanningHistory) w1) in H2, H3, H4, H5, H6;
    try keys_differ.
  set (w2 := withCache w1 _) in *.
  pose proof (getComparables_uncached env coordinates (extractPostcode env address) w2 H2)
    as T2.
  apply (start_Avoids env _ (getComparables env coordinates (extractPostcode env address)) w2)
    in H3, H4, H5, H6; try (apply getComparables_Avoids; keys_differ).
  destruct (start env (getComparables env coordinates (extractPostcode env address)) w2)
    as [w3 t2]. cbn [fst snd] in *.
  rewrite (getMarketData_absent env (extractPostcode env address) w3 H3).
  apply (withCache_absent_set env _ ("market_" +:+ extractPostcode env address)
           (VMarketData (generateMarketDataByArea
                           (String.substring 0 2 (extractPostcode env address)))) w3)
    in H4, H5, H6; try keys_differ.
  set (w4 := withCache w3 _) in *.
  pose proof (getTransportLinks_uncached env coordinates w4 H4) as T4.
  apply (start_Avoids env _ (getTransportLinks env coordinates) w4) in H5, H6;
    try (apply getTransportLinks_Avoids; keys_differ).
  destruct (start env (getTransportLinks env coordinates) w4) as [w5 t4].
  cbn [fst snd] in *.
  pose proof (getLocalAmenities_uncached env coordinates w5 H5) as T5.
  apply (start_Avoids env _ (getLocalAmenities env coordinates) w5) in H6;
    try (apply getLocalAmenities_Avoids; keys_differ).
  destruct (start env (getLocalAmenities env coordinates) w5) as [w6 t5].
  cbn [fst snd] in *.
  pose proof (checkPlanningRestrictions_absent env coordinates w6 H6) as T6.
  destruct (start env (checkPlanningRestrictions env coordinates) w6) as [w7 t6].
  cbn [fst snd promise0 promise1 promise2 promise3 promise4 promise5 promise6] in *.
  by subst t6.
Qed.

(** After the seed resolution the cache still holds none of the seven
    entries. *)
Lemma getCoordinates_uncached env address coordinates w :
  uncached env address coordinates w ->
  uncached env address coordinates (fst (complete env (getCoordinates env address) w)).
Proof.
  intros (H0 & H1 & H2 & H3 & H4 & H5 & H6).
  repeat split;
    (apply complete_Avoids; [apply getCoordinates_Avoids; keys_differ|done]).
Qed.

(** The result of an analysis that finds none of the seven entries. *)
Lemma analyze_uncached env address analysisType w coordinates :
  snd (complete env (getCoordinates env address) w) = Fulfilled coordinates ->
  uncached env address coordinates w ->
  exists now now1 now2,
    snd (analyze env address analysisType w)
    = Fulfilled
        (if String.eqb analysisType "basic"
         then basicResult address coordinates (fetchedDetails env address) noRestrictions now
         else comprehensiveResult address coordinates
                (fetchedOutcomes env address coordinates now1 now2) now).
Proof.
  intros Hseed Hcold. apply (getCoordinates_uncached env) in Hcold. unfold analyze.
  destruct (complete env (getCoordinates env address) w) as [w0 seed].
  cbn [fst snd] in *. subst seed.
  destruct (startDataPromises_uncached env address coordinates w0 Hcold)
    as (T0 & T1 & T2 & T3 & T4 & T5 & T6).
  destruct (startDataPromises env address coordinates (extractPostcode env address) w0)
    as [w1 ps]. cbn [snd] in *.
  destruct (String.eqb analysisType "basic").
  - pose proof (settle_value env _ _ w1 T0) as S0.
    destruct (settle env (promise0 ps) w1) as [w2 r0]. cbn [snd] in S0. subst r0.
    rewrite T6. cbn [settle snd]. by exists (clock w2), 0, 0.
  - unfold allSettled.
    pose proof (settle_value env _ _ w1 T0) as S0.
    destruct (settle env (promise0 ps) w1) as [w2 r0]. cbn [snd] in S0. subst r0.
    rewrite T1. cbn [settle].
    pose proof (settle_Answers env _ _ _ w2 T2) as S2.
    destruct (settle env (promise2 ps) w2) as [w3 [found|e]]; cbn [snd] in S2; [|done].
    destruct S2 as (now1 & now2 & ->).
    rewrite T3. cbn [settle].
    pose proof (settle_value env _ _ w3 T4) as S4.
    destruct (settle env (promise4 ps) w3) as [w4 r4]. cbn [snd] in S4. subst r4.
    pose proof (settle_value env _ _ w4 T5) as S5.
    destruct (settle env (promise5 ps) w4) as [w5 r5]. cbn [snd] in S5. subst r5.
    rewrite T6. cbn [settle snd]. by exists (clock w5), now1, now2.
Qed.

(** *** The failure of every source *)

Lemma rejects_Rightmove env address :
  rejects env (GetRightmove address) -> fetchedDetails env address = estimatedDetails env address.
Proof.
  unfold rejects, fetchedDetails.
  by destruct (respond env (GetRightmove address)) as [[card|]|e].
Qed.

Lemma rejects_LandRegistry env coordinates postcode now1 now2 :
  rejects env (GetLandRegistry postcode) ->
  fetchedComparables env coordinates postcode now1 now2 = [].
Proof.
  unfold rejects, fetchedComparables.
  by destruct (respond env (GetLandRegistry postcode)) as [response|e].
Qed.

Lemma rejects_Places env coordinates :
  (forall placeType apiKey, rejects env (GetPlaces coordinates placeType apiKey)) ->
  fetchedTransportLinks env coordinates = [] /\ fetchedAmenities env coordinates = [].
Proof.
  intros Hdown. unfold fetchedTransportLinks, fetchedAmenities.
  destruct (googlePlacesKey env) as [apiKey|]; [|done]. split.
  - specialize (Hdown "transit_station"%string apiKey). unfold rejects in Hdown.
    by destruct (respond env (GetPlaces coordinates "transit_station" apiKey)).
  - assert (Hnone : forall type, amenitiesOfType env coordinates apiKey type = []).
    { intros type. specialize (Hdown type apiKey). unfold rejects in Hdown.
      unfold amenitiesOfType.
      by destruct (respond env (GetPlaces coordinates type apiKey)). }
    unfold amenityTypes. cbn [flat_map]. by rewrite !Hnone.
Qed.

Lemma estimatedDetails_positive env address :
  0 < PropertyDetails.currentValue (estimatedDetails env address).
Proof. apply areaEstimates_positive. Qed.

(** C1 (as stated, refuted). With the seed in the cache and every request
    rejected, so that every provider that asks a source fails, the call
    returns, but the property details of the result are not the
    provider's default (value 0, type "Unknown", no bedrooms): they are
    the estimate for the postcode area, 800000, "Terraced", three
    bedrooms. *)
Lemma failed_sources_leave_an_estimate :
  (forall r, exists reason, respond networkDown r = Rejected reason)
  /\ PropertyDetails.currentValue getDefaultPropertyDetails = 0
  /\ PropertyDetails.propertyType getDefaultPropertyDetails = "Unknown"%string
  /\ PropertyDetails.bedrooms getDefaultPropertyDetails = 0
  /\ exists result,
       snd (analyze networkDown testAddress "comprehensive" seededWorld) = Fulfilled result
       /\ PropertyData.currentValue result = 800000
       /\ PropertyData.propertyType result = "Terraced"%string
       /\ PropertyData.bedrooms result = 3.
Proof.
  split; [intros r; by eexists|]. repeat (split; [reflexivity|]).
  eexists. split; [vm_compute; reflexivity|]. by repeat split.
Qed.

(** C1 (amended). [analyze] throws exactly when the seed resolution
    ([getCoordinates]) fails; the error then reads "Property analysis
    failed: Could not geocode address: " followed by the address, and the
    call stops where the seed resolution stopped, before any provider is
    started, so no result is produced. When the seed resolution succeeds
    the call returns a result for that address and those coordinates,
    whatever the cache holds and the sources answer. When moreover the
    cache holds none of the seven provider entries and Rightmove, the Land
    Registry and the Places API all fail, the result has no comparables,
    no transport links and no amenities, and a non-empty warnings list;
    its property details are not the default but the estimate for the
    postcode area: a positive value, "Terraced", three bedrooms, one
    bathroom, "Freehold", "C3". *)
Theorem analyze_fails_exactly_on_seed_failure env address analysisType w :
  let seed := snd (complete env (getCoordinates env address) w) in
  let outcome := snd (analyze env address analysisType w) in
  ((exists error, outcome = Rejected error) <-> (exists reason, seed = Rejected reason))
  /\ (forall error, outcome = Rejected error ->
        error = IsError ("Property analysis failed: Could not geocode address: "
                         +:+ address))
  /\ (forall reason, seed = Rejected reason ->
        fst (analyze env address analysisType w)
        = fst (complete env (getCoordinates env address) w))
  /\ (forall coordinates, seed = Fulfilled coordinates ->
        exists result,
          outcome = Fulfilled result
          /\ PropertyData.address result = address
          /\ PropertyData.coordinates result = coordinates
          /\ (PropertyData.comparables result = []
              \/ PropertyData.planningHistory result = [] ->
              DataQuality.warnings (PropertyData.dataQuality result) <> []))
  /\ (forall coordinates,
        seed = Fulfilled coordinates ->
        uncached env address coordinates w ->
        sourcesDown env address coordinates ->
        exists result,
          outcome = Fulfilled result
          /\ PropertyData.comparables result = []
          /\ PropertyData.transportLinks result = []
          /\ PropertyData.localAmenities result = []
          /\ DataQuality.warnings (PropertyData.dataQuality result) <> []
          /\ PropertyData.currentValue result
             = PropertyDetails.currentValue (estimatedDetails env address)
          /\ 0 < PropertyData.currentValue result
          /\ PropertyData.propertyType result = "Terraced"%string
          /\ PropertyData.bedrooms result = 3
          /\ PropertyData.bathrooms result = 1
          /\ PropertyData.tenure result = "Freehold"%string
          /\ PropertyData.useClass result = "C3"%string
          /\ PropertyData.localAuthority result = localAuthorityOf env address).
Proof.
  intros seed outcome.
  assert (Hfail : forall reason, seed = Rejected reason ->
            analyze env address analysisType w
            = (fst (complete env (getCoordinates env address) w),
               Rejected (IsError ("Property analysis failed: Could not geocode address: "
                                  +:+ address))))
    by (intros reason; apply analyze_seed_rejected).
  assert (Hok : forall coordinates, seed = Fulfilled coordinates ->
            exists result,
              outcome = Fulfilled result
              /\ PropertyData.address result = address
              /\ PropertyData.coordinates result = coordinates
              /\ (PropertyData.comparables result = []
                  \/ PropertyData.planningHistory result = [] ->
                  DataQuality.warnings (PropertyData.dataQuality result) <> [])).
  { intros coordinates Hseed. unfold outcome.
    destruct (String.eqb_spec analysisType "basic") as [->|Hmode].
    - destruct (analyze_basic env address w coordinates Hseed)
        as (w' & details & restricted & ->).
      eexists. split; [reflexivity|]. by repeat split.
    - destruct (analyze_comprehensive env address analysisType w coordinates)
        as (w' & outcomes & ->); [by apply String.eqb_neq|done|].
      eexists. split; [reflexivity|]. split; [done|]. split; [done|].
      apply comprehensiveResult_warns. }
  split; [|split; [|split; [|split]]].
  - split.
    + intros [error Herr]. destruct seed as [coordinates|reason] eqn:Hseed; [|eauto].
      destruct (Hok coordinates eq_refl) as (result & Hres & _). congruence.
    + intros [reason Hseed]. unfold outcome. rewrite (Hfail reason Hseed). eauto.
  - intros error Herr. destruct seed as [coordinates|reason] eqn:Hseed.
    + destruct (Hok coordinates eq_refl) as (result & Hres & _). congruence.
    + unfold outcome in Herr. rewrite (Hfail reason eq_refl) in Herr.
      simpl in Herr. congruence.
  - intros reason Hseed. by rewrite (Hfail reason Hseed).
  - exact Hok.
  - intros coordinates Hseed Hcold (Hrightmove & Hregistry & Hplaces).
    destruct (analyze_uncached env address analysisType w coordinates Hseed Hcold)
      as (now & now1 & now2 & Hrun).
    unfold outcome. rewrite Hrun. eexists. split; [reflexivity|].
    pose proof (estimatedDetails_positive env address) as Hpositive.
    destruct (rejects_Places env coordinates Hplaces) as [Htransport Hamenities].
    destruct (String.eqb analysisType "basic").
    + unfold basicResult. cbn. rewrite (rejects_Rightmove env address Hrightmove).
      by repeat split.
    + assert (Hfound : PropertyData.comparables
                         (comprehensiveResult address coordinates
                            (fetchedOutcomes env address coordinates now1 now2) now) = [])
        by (cbn; by apply rejects_LandRegistry).
      split; [exact Hfound|].
      split; [exact Htransport|]. split; [exact Hamenities|].
      split; [apply comprehensiveResult_warns; by left|].
      unfold comprehensiveResult, fetchedOutcomes.
      cbn [PropertyData.currentValue PropertyData.propertyType PropertyData.bedrooms
           PropertyData.bathrooms PropertyData.tenure PropertyData.useClass
           PropertyData.localAuthority propertyDetails extractResult].
      rewrite (rejects_Rightmove env address Hrightmove). by repeat split.
Qed.

Lemma analyze_fails_exactly_on_seed_failure_witness :
  exists result,
    snd (analyze networkDown testAddress "comprehensive" seededWorld) = Fulfilled result
    /\ PropertyData.comparables result = []
    /\ PropertyData.transportLinks result = []
    /\ PropertyData.localAmenities result = []
    /\ DataQuality.warnings (PropertyData.dataQuality result) <> []
    /\ 0 < PropertyData.currentValue result
    /\ PropertyData.propertyType result = "Terraced"%string.
Proof.
  destruct (proj2 (proj2 (proj2 (proj2
              (analyze_fails_exactly_on_seed_failure networkDown testAddress
                 "comprehensive" seededWorld)))) london)
    as (result & Hrun & Hfound & Htransport & Hamenities & Hwarn & _ & Hvalue & Htype & _).
  - vm_compute. reflexivity.
  - repeat split; reflexivity.
  - repeat split.
  - exists result. by repeat split.
Defined.

(** *** The reduction of a comprehensive analysis *)



End PartialFailure.
